(** * Click-counter server ([server.js]): model and verified properties

    The server keeps one number in [touchcount.json] and exposes it over
    HTTP.  This development embeds the parts of the runtime the program
    relies on (IEEE-754 doubles, [JSON.parse], [JSON.stringify], the file
    primitives of [fs.promises]) and then the program itself
    ([ensureDataFile], [readCount], [writeCount], the request handler
    [server] and the script of the page), and proves the properties of the
    counter and of the routing. *)

From Stdlib Require Import ZArith String Ascii List Lia Bool.
From Stdlib Require Import SpecFloat DecimalString DecimalN DecimalPos DecimalFacts.
Import ListNotations.
Open Scope string_scope.
Open Scope Z_scope.

(** ** JavaScript numbers

    A JavaScript number is a binary64 float.  The standard library's
    [spec_float] gives the values (no NaN payload, which JavaScript
    cannot observe either) and the correctly rounded operations. *)

Definition number := spec_float.
Definition prec := 53.
Definition emax := 1024.

(** The number nearest to the integer [z] (ties to even). *)
Definition ofZ (z : Z) : number := binary_normalize prec emax z 0 false.

(** [x + y] on numbers. *)
Definition js_add (x y : number) : number := SFadd prec emax x y.

Definition is_finite (x : number) : bool :=
  match x with
  | S754_zero _ | S754_finite _ _ _ => true
  | S754_infinity _ | S754_nan => false
  end.

Definition number_eqb (x y : number) : bool :=
  match x, y with
  | S754_zero a, S754_zero b => Bool.eqb a b
  | S754_infinity a, S754_infinity b => Bool.eqb a b
  | S754_finite a m e, S754_finite b m' e' =>
      Bool.eqb a b && Pos.eqb m m' && Z.eqb e e'
  | _, _ => false
  end.

(** The number nearest to the fraction [num / den] ([0 < num], [0 < den]),
    with sign [neg].  The quotient is taken with 1200 extra binary digits,
    below the smallest subnormal exponent (-1074), so the final rounding
    always shifts right and sees the exact position of the remainder. *)
Definition round_fraction (neg : bool) (num den : Z) : number :=
  let a := num * 2 ^ 1200 in
  binary_round_aux prec emax neg (a / den) (-1200) (new_location den (a mod den)).

(** The number denoted by the decimal literal [m * 10 ^ e10]. *)
Definition dec_to_number (neg : bool) (m e10 : Z) : number :=
  if m =? 0 then S754_zero neg
  else round_fraction neg (m * 10 ^ Z.max e10 0) (10 ^ Z.max (- e10) 0).

(** Decimal digits of a non-negative integer. *)
Definition decimal (z : Z) : string :=
  NilEmpty.string_of_uint (N.to_uint (Z.to_N z)).

(** *** Number::toString (radix 10)

    For a positive finite [x = num / den] the language picks integers
    [n], [k], [s] with [10^(k-1) <= s < 10^k], [s * 10^(n-k)] rounding
    to [x], and [k] as small as possible. *)

Definition lt_pow10 (num den n : Z) : bool :=
  num * 10 ^ Z.max (- n) 0 <? den * 10 ^ Z.max n 0.

(** Least [n] (from the start value on) with [num / den < 10 ^ n]. *)
Fixpoint find_n (fuel : nat) (num den n : Z) : Z :=
  match fuel with
  | O => n
  | S f => if lt_pow10 num den n then n else find_n f num den (n + 1)
  end.

(** The [k]-digit candidates next to [num / den] are the floor [lo] of
    [num / den / 10^(n-k)] and [lo + 1]; of those that round to [x] the
    closer one is taken, the even one on a tie. *)
Definition candidate (x : number) (num den n k : Z) : option Z :=
  let j := n - k in
  let a := num * 10 ^ Z.max (- j) 0 in
  let b := den * 10 ^ Z.max j 0 in
  let lo := a / b in
  let r := a mod b in
  let hi := lo + 1 in
  match number_eqb (dec_to_number false lo j) x,
        number_eqb (dec_to_number false hi j) x with
  | true, true =>
      match 2 * r ?= b with
      | Lt => Some lo
      | Gt => Some hi
      | Eq => Some (if Z.even lo then lo else hi)
      end
  | true, false => Some lo
  | false, true => Some hi
  | false, false => None
  end.

Fixpoint shortest (fuel : nat) (x : number) (num den n k : Z) : Z * Z :=
  match fuel with
  | O => (0, k)
  | S f =>
      match candidate x num den n k with
      | Some s => (s, k)
      | None => shortest f x num den n (k + 1)
      end
  end.

Fixpoint strip_zeros (fuel : nat) (s : Z) : Z :=
  match fuel with
  | O => s
  | S f => if (s mod 10 =? 0) && (0 <? s) then strip_zeros f (s / 10) else s
  end.

Fixpoint zeros (n : nat) : string :=
  match n with
  | O => EmptyString
  | S k => String "0" (zeros k)
  end.

Definition str_take (n : Z) (s : string) : string := substring 0 (Z.to_nat n) s.

Definition str_drop (n : Z) (s : string) : string :=
  substring (Z.to_nat n) (String.length s - Z.to_nat n) s.

(** Layout of the digits [ds] of a number below [10 ^ n]. *)
Definition format_digits (ds : string) (n : Z) : string :=
  let k := Z.of_nat (String.length ds) in
  if (k <=? n) && (n <=? 21) then ds ++ zeros (Z.to_nat (n - k))
  else if (0 <? n) && (n <=? 21) then str_take n ds ++ "." ++ str_drop n ds
  else if (-6 <? n) && (n <=? 0) then "0." ++ zeros (Z.to_nat (- n)) ++ ds
  else
    let e := n - 1 in
    let es := (if e <? 0 then "-" else "+") ++ decimal (Z.abs e) in
    if k =? 1 then ds ++ "e" ++ es
    else str_take 1 ds ++ "." ++ str_drop 1 ds ++ "e" ++ es.

(** Shortest digits of the positive number [m * 2 ^ e].  A candidate
    [10 ^ k] (the round-up of [99..9]) is one digit one place higher:
    stripping its zeros and counting its length puts it there. *)
Definition shortest_repr (m : positive) (e : Z) : string :=
  let x := S754_finite false m e in
  let num := Z.pos m * 2 ^ Z.max e 0 in
  let den := 2 ^ Z.max (- e) 0 in
  let n := find_n 700 num den (-330) in
  let '(s, k) := shortest 17 x num den n 1 in
  let n' := n + (Z.of_nat (String.length (decimal s)) - k) in
  format_digits (decimal (strip_zeros 400 s)) n'.

(** The integer a number is, when it is one. *)
Definition int_value (x : number) : option Z :=
  match x with
  | S754_zero _ => Some 0
  | S754_finite s m e =>
      let v :=
        if 0 <=? e then Some (Z.pos m * 2 ^ e)
        else if Z.pos m mod 2 ^ (- e) =? 0 then Some (Z.pos m / 2 ^ (- e))
        else None in
      match v with
      | Some a => Some (if s then - a else a)
      | None => None
      end
  | S754_infinity _ | S754_nan => None
  end.

(** The value of [m * 2 ^ e] when it is an integer of at most [2 ^ 53]. *)
Definition safe_integer (m : positive) (e : Z) : option Z :=
  match int_value (S754_finite false m e) with
  | Some v => if v <=? 2 ^ 53 then Some v else None
  | None => None
  end.

(** [String(x)].  Up to [2 ^ 53] every integer is a number and
    neighbouring numbers are at most 1 apart, so the shortest digits of an
    integer are its own decimal digits: that case is printed directly
    (the examples below compare it with the search). *)
Definition Number_toString (x : number) : string :=
  match x with
  | S754_nan => "NaN"
  | S754_zero _ => "0"
  | S754_infinity s => if s then "-Infinity" else "Infinity"
  | S754_finite s m e =>
      (if s then "-" else EmptyString) ++
      match safe_integer m e with
      | Some z => decimal z
      | None => shortest_repr m e
      end
  end.

(** ** JSON values *)

Unset Elimination Schemes.
Inductive json : Type :=
  | JNull
  | JBool (b : bool)
  | JNum (x : number)
  | JStr (s : string)
  | JArr (l : list json)
  | JObj (l : list (string * json)).
Set Elimination Schemes.

Definition dq : ascii := "034"%char.
Definition bslash : ascii := "092"%char.
Definition lf : ascii := "010"%char.

Definition code (c : ascii) : Z := Z.of_N (N_of_ascii c).
Definition chr (z : Z) : ascii := ascii_of_N (Z.to_N z).

(** ** JSON.parse

    The text is the file's bytes: JSON's structural characters, digits,
    literals and escapes are all ASCII, and every other byte is legal only
    inside a string, where it is kept as it is.  A [\u] escape is stored
    in UTF-8 as well, so a decoded string is the property name [count]
    exactly when JavaScript's is. *)

Definition is_ws (c : ascii) : bool :=
  let n := code c in (n =? 32) || (n =? 9) || (n =? 10) || (n =? 13).

Fixpoint skip_ws (s : string) : string :=
  match s with
  | String c r => if is_ws c then skip_ws r else s
  | EmptyString => s
  end.

Definition digit_of (c : ascii) : option Z :=
  let n := code c in
  if (48 <=? n) && (n <=? 57) then Some (n - 48) else None.

Definition hex_of (c : ascii) : option Z :=
  let n := code c in
  if (48 <=? n) && (n <=? 57) then Some (n - 48)
  else if (65 <=? n) && (n <=? 70) then Some (n - 55)
  else if (97 <=? n) && (n <=? 102) then Some (n - 87)
  else None.

(** All leading digits of [s]: the value accumulated onto [acc], the
    number of digits added to [cnt], and the rest of the text. *)
Fixpoint lex_digits (s : string) (acc cnt : Z) : Z * Z * string :=
  match s with
  | String c r =>
      match digit_of c with
      | Some d => lex_digits r (10 * acc + d) (cnt + 1)
      | None => (acc, cnt, s)
      end
  | EmptyString => (acc, cnt, s)
  end.

(** Integer part: [0], or a non-zero digit followed by digits. *)
Definition lex_int (s : string) : option (Z * string) :=
  match s with
  | String c r =>
      match digit_of c with
      | Some 0 => Some (0, r)
      | Some d => let '(v, _, r') := lex_digits r d 1 in Some (v, r')
      | None => None
      end
  | EmptyString => None
  end.

(** Optional fraction: its digits extend the mantissa [m]. *)
Definition lex_frac (m : Z) (s : string) : option (Z * Z * string) :=
  match s with
  | String "." r =>
      let '(v, cnt, r') := lex_digits r m 0 in
      if cnt =? 0 then None else Some (v, cnt, r')
  | _ => Some (m, 0, s)
  end.

(** Optional exponent. *)
Definition lex_exp (s : string) : option (Z * string) :=
  let digits (neg : bool) (r : string) : option (Z * string) :=
    let '(v, cnt, r') := lex_digits r 0 0 in
    if cnt =? 0 then None else Some (if neg then - v else v, r') in
  match s with
  | String c r =>
      if (code c =? 101) || (code c =? 69) then
        match r with
        | String "+" r1 => digits false r1
        | String "-" r1 => digits true r1
        | _ => digits false r
        end
      else Some (0, s)
  | EmptyString => Some (0, s)
  end.

Definition parse_number (s : string) : option (number * string) :=
  let '(neg, s1) :=
    match s with
    | String c r => if code c =? 45 then (true, r) else (false, s)
    | EmptyString => (false, s)
    end in
  match lex_int s1 with
  | None => None
  | Some (i, s2) =>
      match lex_frac i s2 with
      | None => None
      | Some (m, nfrac, s3) =>
          match lex_exp s3 with
          | None => None
          | Some (e, s4) => Some (dec_to_number neg m (e - nfrac), s4)
          end
      end
  end.

(** UTF-8 bytes of a 16-bit code unit, in front of [tl]. *)
Definition utf8 (cu : Z) (tl : string) : string :=
  if cu <? 128 then String (chr cu) tl
  else if cu <? 2048 then
    String (chr (192 + cu / 64)) (String (chr (128 + cu mod 64)) tl)
  else
    String (chr (224 + cu / 4096))
      (String (chr (128 + (cu / 64) mod 64)) (String (chr (128 + cu mod 64)) tl)).

Definition hex4 (a b c d : ascii) : option Z :=
  match hex_of a, hex_of b, hex_of c, hex_of d with
  | Some x, Some y, Some z, Some w => Some (((x * 16 + y) * 16 + z) * 16 + w)
  | _, _, _, _ => None
  end.

Definition simple_escape (c : ascii) : option ascii :=
  let n := code c in
  if n =? 34 then Some dq
  else if n =? 92 then Some bslash
  else if n =? 47 then Some "/"%char
  else if n =? 98 then Some "008"%char
  else if n =? 102 then Some "012"%char
  else if n =? 110 then Some "010"%char
  else if n =? 114 then Some "013"%char
  else if n =? 116 then Some "009"%char
  else None.

(** A string after its opening quote: the decoded characters and the
    text after the closing quote.  Control characters must be escaped. *)
Fixpoint parse_string (s : string) : option (string * string) :=
  match s with
  | EmptyString => None
  | String c r =>
      if code c =? 34 then Some (EmptyString, r)
      else if code c =? 92 then
        match r with
        | String "u" (String h1 (String h2 (String h3 (String h4 r')))) =>
            match hex4 h1 h2 h3 h4, parse_string r' with
            | Some cu, Some (str, tl) => Some (utf8 cu str, tl)
            | _, _ => None
            end
        | String e r' =>
            match simple_escape e, parse_string r' with
            | Some ch, Some (str, tl) => Some (String ch str, tl)
            | _, _ => None
            end
        | EmptyString => None
        end
      else if code c <? 32 then None
      else
        match parse_string r with
        | Some (str, tl) => Some (String c str, tl)
        | None => None
        end
  end.

Definition expect (lit s : string) : option string :=
  if prefix lit s
  then Some (substring (String.length lit) (String.length s - String.length lit) s)
  else None.

(** The text after the character [ch], when the text starts with it. *)
Definition starts_with (ch : ascii) (s : string) : option string :=
  match s with
  | String c r => if Ascii.eqb c ch then Some r else None
  | EmptyString => None
  end.

(** Values, array elements and object members.  Every call made with
    less fuel comes after at least one consumed character or is the one
    value of an element or member, so twice the length of the text is
    enough fuel ([parse_value_fuel] below). *)
Fixpoint parse_value (fuel : nat) (s : string) {struct fuel} : option (json * string) :=
  match fuel with
  | O => None
  | S f =>
      match skip_ws s with
      | EmptyString => None
      | String c r as s' =>
          if code c =? 34 then
            match parse_string r with
            | Some (str, tl) => Some (JStr str, tl)
            | None => None
            end
          else if code c =? 91 then
            match starts_with "]" (skip_ws r) with
            | Some tl => Some (JArr [], tl)
            | None =>
                match parse_elements f r with
                | Some (l, tl) => Some (JArr l, tl)
                | None => None
                end
            end
          else if code c =? 123 then
            match starts_with "}" (skip_ws r) with
            | Some tl => Some (JObj [], tl)
            | None =>
                match parse_members f r with
                | Some (l, tl) => Some (JObj l, tl)
                | None => None
                end
            end
          else if code c =? 110 then
            match expect "null" s' with
            | Some tl => Some (JNull, tl)
            | None => None
            end
          else if code c =? 116 then
            match expect "true" s' with
            | Some tl => Some (JBool true, tl)
            | None => None
            end
          else if code c =? 102 then
            match expect "false" s' with
            | Some tl => Some (JBool false, tl)
            | None => None
            end
          else
            match parse_number s' with
            | Some (x, tl) => Some (JNum x, tl)
            | None => None
            end
      end
  end
with parse_elements (fuel : nat) (s : string) {struct fuel} : option (list json * string) :=
  match fuel with
  | O => None
  | S f =>
      match parse_value f s with
      | None => None
      | Some (v, tl) =>
          match starts_with "," (skip_ws tl) with
          | Some tl' =>
              match parse_elements f tl' with
              | Some (l, tl'') => Some (v :: l, tl'')
              | None => None
              end
          | None =>
              match starts_with "]" (skip_ws tl) with
              | Some tl' => Some ([v], tl')
              | None => None
              end
          end
      end
  end
with parse_members (fuel : nat) (s : string) {struct fuel}
  : option (list (string * json) * string) :=
  match fuel with
  | O => None
  | S f =>
      match starts_with dq (skip_ws s) with
      | None => None
      | Some r =>
          match parse_string r with
          | None => None
          | Some (k, tl) =>
              match starts_with ":" (skip_ws tl) with
              | None => None
              | Some tl1 =>
                  match parse_value f tl1 with
                  | None => None
                  | Some (v, tl2) =>
                      match starts_with "," (skip_ws tl2) with
                      | Some tl3 =>
                          match parse_members f tl3 with
                          | Some (l, tl4) => Some ((k, v) :: l, tl4)
                          | None => None
                          end
                      | None =>
                          match starts_with "}" (skip_ws tl2) with
                          | Some tl3 => Some ([(k, v)], tl3)
                          | None => None
                          end
                      end
                  end
              end
          end
      end
  end.

(** [JSON.parse(s)]; [None] is a thrown [SyntaxError].  The members of
    an object are kept in source order, duplicates included. *)
Definition JSON_parse (s : string) : option json :=
  match parse_value (2 * String.length s + 2) s with
  | Some (v, tl) =>
      match skip_ws tl with
      | EmptyString => Some v
      | _ => None
      end
  | None => None
  end.

(** ** JSON.stringify *)

Definition hex_digit (n : Z) : ascii :=
  if n <? 10 then chr (48 + n) else chr (87 + n).

Fixpoint quote_chars (s : string) : string :=
  match s with
  | EmptyString => String dq EmptyString
  | String c r =>
      let n := code c in
      let tl := quote_chars r in
      if n =? 34 then String bslash (String dq tl)
      else if n =? 92 then String bslash (String bslash tl)
      else if n =? 8 then String bslash (String "b" tl)
      else if n =? 9 then String bslash (String "t" tl)
      else if n =? 10 then String bslash (String "n" tl)
      else if n =? 12 then String bslash (String "f" tl)
      else if n =? 13 then String bslash (String "r" tl)
      else if n <? 32 then
        String bslash (String "u" (String "0" (String "0"
          (String (hex_digit (n / 16)) (String (hex_digit (n mod 16)) tl)))))
      else String c tl
  end.

Definition QuoteJSONString (s : string) : string := String dq (quote_chars s).

Fixpoint join (sep : string) (l : list string) : string :=
  match l with
  | [] => EmptyString
  | [x] => x
  | x :: r => x ++ sep ++ join sep r
  end.

Definition nl : string := String lf EmptyString.

(** Serialization with indentation unit [gap] at current indentation
    [indent].  A number that is not finite is written [null]. *)
Fixpoint serialize (gap indent : string) (v : json) {struct v} : string :=
  let inner := indent ++ gap in
  let wrap (opening closing : string) (items : list string) : string :=
    match items with
    | [] => opening ++ closing
    | _ =>
        if String.eqb gap EmptyString
        then opening ++ join "," items ++ closing
        else opening ++ nl ++ inner ++ join ("," ++ nl ++ inner) items
             ++ nl ++ indent ++ closing
    end in
  match v with
  | JNull => "null"
  | JBool b => if b then "true" else "false"
  | JNum x => if is_finite x then Number_toString x else "null"
  | JStr s => QuoteJSONString s
  | JArr l => wrap "[" "]" (map (serialize gap inner) l)
  | JObj l =>
      wrap "{" "}"
        (map (fun kv : string * json =>
                QuoteJSONString (fst kv)
                ++ (if String.eqb gap EmptyString then ":" else ": ")
                ++ serialize gap inner (snd kv)) l)
  end.

Fixpoint spaces (n : nat) : string :=
  match n with
  | O => EmptyString
  | S k => String " " (spaces k)
  end.

(** [JSON.stringify(v, null, space)]; [JSON.stringify(v)] is [space = 0]. *)
Definition JSON_stringify (v : json) (space : nat) : string :=
  serialize (spaces space) EmptyString v.

(** ** The data file and its primitives

    The only file the program touches is [DATA_PATH]; its state is its
    content, or [None] when it does not exist.  An [io] value says how
    the file operations of one request (or of startup) go: a read may
    fail for a reason other than absence, and a write may succeed, fail
    before it opens the file, or fail after [n] bytes went out. *)

Definition fs := option string.

Inductive outcome (A : Type) : Type :=
  | Returned (a : A)
  | Thrown.
Arguments Returned {A} a.
Arguments Thrown {A}.

Inductive write_outcome : Type :=
  | WriteOk
  | OpenFails
  | WriteCut (n : nat).

Record io : Type := { read_fails : bool; write : write_outcome }.

(** No failure at all. *)
Definition quiet : io := {| read_fails := false; write := WriteOk |}.

(** [fsp.access(DATA_PATH)] *)
Definition access (f : fs) : outcome unit :=
  match f with
  | Some _ => Returned tt
  | None => Thrown
  end.

(** [fsp.readFile(DATA_PATH, 'utf8')] *)
Definition readFile (e : io) (f : fs) : outcome string :=
  if read_fails e then Thrown
  else match f with
       | Some raw => Returned raw
       | None => Thrown
       end.

(** [fsp.writeFile(DATA_PATH, data, 'utf8')]: the file is truncated when
    it is opened, so a write that fails midway leaves a prefix. *)
Definition writeFile (e : io) (data : string) (f : fs) : outcome unit * fs :=
  match write e with
  | WriteOk => (Returned tt, Some data)
  | OpenFails => (Thrown, f)
  | WriteCut n => (Thrown, Some (substring 0 n data))
  end.

(** ** The counter store *)

(** The object literals [{ count: n }] and [{ error: msg }]. *)
Definition count_obj (n : number) : json := JObj [("count", JNum n)].
Definition error_obj (msg : string) : json := JObj [("error", JStr msg)].

(** Own property [k] of an object: the last member with that name. *)
Fixpoint own_property (k : string) (l : list (string * json)) : option json :=
  match l with
  | [] => None
  | (k', v) :: r =>
      match own_property k r with
      | Some v' => Some v'
      | None => if String.eqb k' k then Some v else None
      end
  end.

(** [obj.count]: a [TypeError] on [null]; [undefined] ([None]) on an
    object without the member and on every other value, none of whose
    prototypes has a [count]. *)
Definition prop_count (obj : json) : outcome (option json) :=
  match obj with
  | JNull => Thrown
  | JObj l => Returned (own_property "count" l)
  | _ => Returned None
  end.

Definition ensureDataFile (e : io) (f : fs) : outcome unit * fs :=
  match access f with
  | Returned _ => (Returned tt, f)
  | Thrown => writeFile e (JSON_stringify (count_obj (ofZ 0)) 2) f
  end.

Definition readCount (e : io) (f : fs) : number :=
  match readFile e f with
  | Thrown => ofZ 0
  | Returned raw =>
      match JSON_parse (if String.eqb raw EmptyString then "{}" else raw) with
      | None => ofZ 0
      | Some obj =>
          match prop_count obj with
          | Returned (Some (JNum x)) => x
          | _ => ofZ 0
          end
      end
  end.

Definition writeCount (e : io) (n : number) (f : fs) : outcome unit * fs :=
  writeFile e (JSON_stringify (count_obj n) 2) f.

(** ** Requests and responses *)

Record request : Type := { method : string; url : string }.

Record response : Type :=
  { statusCode : Z; headers : list (string * string); body : string }.

Definition new_response : response :=
  {| statusCode := 200; headers := []; body := EmptyString |}.

Fixpoint set_header (name value : string) (h : list (string * string))
  : list (string * string) :=
  match h with
  | [] => [(name, value)]
  | (k, v) :: r =>
      if String.eqb k name then (name, value) :: r
      else (k, v) :: set_header name value r
  end.

Fixpoint getHeader (name : string) (h : list (string * string)) : option string :=
  match h with
  | [] => None
  | (k, v) :: r => if String.eqb k name then Some v else getHeader name r
  end.

(** [res.setHeader(name, value)] *)
Definition setHeader (name value : string) (res : response) : response :=
  {| statusCode := statusCode res;
     headers := set_header name value (headers res);
     body := body res |}.

(** [res.statusCode = code] *)
Definition set_statusCode (status : Z) (res : response) : response :=
  {| statusCode := status; headers := headers res; body := body res |}.

(** [res.writeHead(code, hs)]: the headers of [hs] are added to the ones
    already set. *)
Definition writeHead (status : Z) (hs : list (string * string)) (res : response)
  : response :=
  {| statusCode := status;
     headers := fold_left (fun h kv => set_header (fst kv) (snd kv) h) hs (headers res);
     body := body res |}.

(** [res.end(data)] *)
Definition end_ (data : string) (res : response) : response :=
  {| statusCode := statusCode res; headers := headers res; body := data |}.

Definition json_type : list (string * string) :=
  [("Content-Type", "application/json")].

(** The text of a request target before its query and fragment: the
    pathname of an origin-form target, used to run the handler on
    concrete requests. *)
Fixpoint before_query (u : string) : string :=
  match u with
  | EmptyString => EmptyString
  | String c r =>
      if (code c =? 63) || (code c =? 35) then EmptyString
      else String c (before_query r)
  end.

Definition origin_pathname (u : string) : option string :=
  match u with
  | EmptyString => None
  | _ => Some (before_query u)
  end.

(** ** The texts of the interface

    [{"count":z}] as a response body, the same object as the data file
    holds it (indented by two spaces), and [{"error":msg}]. *)

Definition quoted (s : string) : string := String dq (s ++ String dq EmptyString).

(** Decimal text of an integer. *)
Definition integer_text (z : Z) : string :=
  if z <? 0 then "-" ++ decimal (- z) else decimal z.

Definition count_body (z : Z) : string :=
  "{" ++ quoted "count" ++ ":" ++ integer_text z ++ "}".

Definition count_file (z : Z) : string :=
  "{" ++ nl ++ "  " ++ quoted "count" ++ ": " ++ integer_text z ++ nl ++ "}".

Definition error_body (msg : string) : string :=
  "{" ++ quoted "error" ++ ":" ++ quoted msg ++ "}".

(** ** Auxiliary notions for the proofs *)

(** The three parsers never lose a result when given more fuel. *)
Definition fuel_monotone (f : nat) : Prop :=
  (forall s r, parse_value f s = Some r -> parse_value (S f) s = Some r)
  /\ (forall s r, parse_elements f s = Some r -> parse_elements (S f) s = Some r)
  /\ (forall s r, parse_members f s = Some r -> parse_members (S f) s = Some r).

(** A result obtained with fuel is obtained with twice the number of
    characters consumed. *)
Definition fuel_bounded (f : nat) : Prop :=
  (forall s v tl, parse_value f s = Some (v, tl) ->
     (String.length tl < String.length s)%nat
     /\ parse_value (2 * (String.length s - String.length tl)) s = Some (v, tl))
  /\ (forall s l tl, parse_elements f s = Some (l, tl) ->
        (String.length tl < String.length s)%nat
        /\ parse_elements (2 * (String.length s - String.length tl)) s = Some (l, tl))
  /\ (forall s l tl, parse_members f s = Some (l, tl) ->
        (String.length tl < String.length s)%nat
        /\ parse_members (2 * (String.length s - String.length tl)) s = Some (l, tl)).

(** A shift record with nothing shifted out yet. *)
Definition exact (m : Z) : shr_record :=
  {| shr_m := m; shr_r := false; shr_s := false |}.

(** Mantissa and exponent of the number that is the integer [w],
    [0 < w < 2 ^ 53]. *)
Definition norm_m (w : Z) : positive := Z.to_pos (w * 2 ^ (52 - Z.log2 w)).
Definition norm_e (w : Z) : Z := Z.log2 w - 52.

(** The number that is the integer [z], [0 < |z| < 2 ^ 53]. *)
Definition normal (z : Z) : number :=
  S754_finite (z <? 0) (norm_m (Z.abs z)) (norm_e (Z.abs z)).

(** The integers that are numbers one by one. *)
Definition safe (z : Z) : Prop := - 2 ^ 53 <= z /\ z <= 2 ^ 53.

(** Value of a digit sequence read after the value [acc]. *)
Fixpoint uint_value (d : Decimal.uint) (acc : Z) : Z :=
  match d with
  | Decimal.Nil => acc
  | Decimal.D0 d => uint_value d (10 * acc)
  | Decimal.D1 d => uint_value d (10 * acc + 1)
  | Decimal.D2 d => uint_value d (10 * acc + 2)
  | Decimal.D3 d => uint_value d (10 * acc + 3)
  | Decimal.D4 d => uint_value d (10 * acc + 4)
  | Decimal.D5 d => uint_value d (10 * acc + 5)
  | Decimal.D6 d => uint_value d (10 * acc + 6)
  | Decimal.D7 d => uint_value d (10 * acc + 7)
  | Decimal.D8 d => uint_value d (10 * acc + 8)
  | Decimal.D9 d => uint_value d (10 * acc + 9)
  end.

(** The text does not go on with a digit. *)
Definition no_digit_ahead (s : string) : Prop :=
  match s with
  | String c _ => digit_of c = None
  | EmptyString => True
  end.

(** A page and requests to run the handler on. *)
Definition sample_page : string := "<!doctype html><title>Click Counter</title>".
Definition GET_count : request := {| method := "GET"; url := "/api/count" |}.
Definition POST_increment : request := {| method := "POST"; url := "/api/increment" |}.
Definition OPTIONS_any : request := {| method := "OPTIONS"; url := "/anything" |}.
Definition GET_unknown : request := {| method := "GET"; url := "/nope?x=1" |}.

(** File operations that fail: the write before it opens the file, the
    write after three bytes, the read. *)
Definition io_open_fails : io := {| read_fails := false; write := OpenFails |}.
Definition io_cut : io := {| read_fails := false; write := WriteCut 3 |}.
Definition io_read_fails : io := {| read_fails := true; write := WriteOk |}.

(** Data files with a negative count and with a count that is not an
    integer. *)
Definition negative_file : string := "{" ++ quoted "count" ++ ":-1}".
Definition tiny_file : string := "{" ++ quoted "count" ++ ":1e-17}".

(** [String(v)] for a value [JSON.parse] gives.  In the string of an
    array [null] elements are empty. *)
Fixpoint ToString (v : json) : string :=
  match v with
  | JNull => "null"
  | JBool b => if b then "true" else "false"
  | JNum x => Number_toString x
  | JStr s => s
  | JArr l =>
      join ","
        (map (fun x => match x with
                       | JNull => EmptyString
                       | _ => ToString x
                       end) l)
  | JObj _ => "[object Object]"
  end.

(** The data file a non-finite count is written as. *)
Definition null_file : string :=
  "{" ++ nl ++ "  " ++ quoted "count" ++ ": null" ++ nl ++ "}".

Definition null_body : string := "{" ++ quoted "count" ++ ":null}".

(** A data file whose count is too large for a number. *)
Definition huge_file : string := "{" ++ quoted "count" ++ ":1e999}".


(** Characters of the text of an integer: digits and the minus sign. *)
Definition plain_char (c : ascii) : Prop := 48 <= code c <= 57 \/ code c = 45.

Fixpoint plain (s : string) : Prop :=
  match s with
  | EmptyString => True
  | String c r => plain_char c /\ plain r
  end.

(** The request for the page. *)
Definition GET_root : request := {| method := "GET"; url := "/" |}.

(** ** What the client receives

    [url.parse] is called before the handler's [try] block, so when it
    throws nothing catches it: no header is set and nothing is sent. *)
Inductive reply : Type :=
  | Answered (res : response)
  | Unanswered.

(** The response as it is sent: no body goes out in answer to [HEAD]. *)
Definition on_the_wire (req : request) (res : response) : response :=
  if String.eqb (method req) "HEAD" then end_ EmptyString res else res.

(** ** Requests in progress

    The handler is an [async] function: it gives way at every [await],
    and [fsp.writeFile] opens the file (flag [w]: the file is created or
    truncated) before it writes the data from position 0.  An increment
    request in progress is about to read the count, about to open the
    file for the count [n] it has computed, or about to write that count
    to the file it has opened.  Requests for the other routes write
    nothing and are left out. *)
Inductive progress : Type :=
  | Reading
  | Opening (n : number)
  | Writing (n : number).

(** [data] written from position 0 over the content [old]. *)
Definition overwrite (data old : string) : string :=
  data ++ substring (String.length data) (String.length old - String.length data) old.

(** The next step of an increment request: what is left of it ([None]
    when the handler has come to its end) and the data file. *)
Definition advance (e : io) (p : progress) (f : fs) : option progress * fs :=
  match p with
  | Reading => (Some (Opening (js_add (readCount e f) (ofZ 1))), f)
  | Opening n =>
      match write e with
      | OpenFails => (None, f)
      | _ => (Some (Writing n), Some EmptyString)
      end
  | Writing n =>
      let data := JSON_stringify (count_obj n) 2 in
      let sent := match write e with
                  | WriteCut k => substring 0 k data
                  | _ => data
                  end in
      (None, Some (overwrite sent (match f with
                                   | Some old => old
                                   | None => EmptyString
                                   end)))
  end.

(** The data file and the increment requests in progress, each with the
    way its file operations go. *)
Record service : Type :=
  { data_file : fs; in_progress : list (io * progress) }.

Definition at_rest (f : fs) : service := {| data_file := f; in_progress := [] |}.

(** An increment request arrives, or the request at position [i] takes
    its next step. *)
Inductive event : Type :=
  | Arrive (e : io)
  | Advance (i : nat).

Definition step (ev : event) (s : service) : service :=
  match ev with
  | Arrive e =>
      {| data_file := data_file s;
         in_progress := (in_progress s ++ [(e, Reading)])%list |}
  | Advance i =>
      match nth_error (in_progress s) i with
      | None => s
      | Some (e, p) =>
          let '(next, f') := advance e p (data_file s) in
          {| data_file := f';
             in_progress :=
               (firstn i (in_progress s)
                ++ match next with
                   | Some p' => [(e, p')]
                   | None => []
                   end
                ++ skipn (S i) (in_progress s))%list |}
      end
  end.

Fixpoint run (evs : list event) (s : service) : service :=
  match evs with
  | [] => s
  | ev :: r => run r (step ev s)
  end.

(** One increment request from its arrival to its end. *)
Definition whole_request (e : io) : list event :=
  [Arrive e; Advance 0; Advance 0; Advance 0].

(** Two increment requests whose steps alternate: the first opens the
    file, the second reads and opens it, then both write. *)
Definition two_overlapping : list event :=
  [Arrive quiet; Arrive quiet; Advance 0; Advance 0; Advance 1; Advance 1;
   Advance 0; Advance 0].

(** ** Further notions for the proofs *)

(** Position of the fraction [r / d] ([0 <= r < d]) in its unit. *)
Definition loc_of (d r : Z) : location :=
  if r =? 0 then loc_Exact else loc_Inexact (Z.compare (2 * r) d).

(** Numbers that are integers from [2 ^ 53] on: a mantissa of 53 bits and
    an exponent of at least 1. *)
Definition big (m : positive) (e : Z) : Prop :=
  2 ^ 52 <= Z.pos m < 2 ^ 53 /\ 1 <= e <= 971.

(** ** Further requests to run the handler on *)

(** A request target [url.parse] throws on: a host that opens a bracket
    and does not close it. *)
Definition bad_target : string := "http://[::1/x".

(** Whether [url.parse] throws, for the requests run below: it throws on
    that target and returns for the other targets used here. *)
Definition rejects_bad_target (u : string) : bool := String.eqb u bad_target.

Definition GET_bad_target : request := {| method := "GET"; url := bad_target |}.
Definition OPTIONS_bad_target : request := {| method := "OPTIONS"; url := bad_target |}.
Definition HEAD_unknown : request := {| method := "HEAD"; url := "/nope" |}.

(** A data file with a count above [2 ^ 53]. *)
Definition large_file : string := "{" ++ quoted "count" ++ ":9007199254740994}".

Section Server.

(** The page served at [/] (the constant [HTML] of the program). *)
Variable HTML : string.

(** [url.parse(u, true).pathname] when [url.parse] returns; [None] is a
    [null] pathname. *)
Variable pathname_of : string -> option string.

(** Whether [url.parse(u, true)] throws. *)
Variable url_throws : string -> bool.

Definition path_is (p : option string) (lit : string) : bool :=
  match p with
  | Some s => String.eqb s lit
  | None => false
  end.

(** The body of the handler's [try] block. *)
Definition routes (e : io) (req : request) (pathname : option string)
  (res : response) (f : fs) : outcome response * fs :=
  if path_is pathname "/" && String.eqb (method req) "GET" then
    (Returned (end_ HTML
       (writeHead 200 [("Content-Type", "text/html; charset=utf-8")] res)), f)
  else if path_is pathname "/api/count" && String.eqb (method req) "GET" then
    let n := readCount e f in
    (Returned (end_ (JSON_stringify (count_obj n) 0) (writeHead 200 json_type res)), f)
  else if path_is pathname "/api/increment" && String.eqb (method req) "POST" then
    let n := js_add (readCount e f) (ofZ 1) in
    match writeCount e n f with
    | (Returned _, f') =>
        (Returned (end_ (JSON_stringify (count_obj n) 0)
           (writeHead 200 json_type res)), f')
    | (Thrown, f') => (Thrown, f')
    end
  else
    (Returned (end_ (JSON_stringify (error_obj "Not found") 0)
       (writeHead 404 json_type res)), f).

(** The request handler given to [http.createServer], once [url.parse]
    has returned: the response handed to [res.end] and the data file. *)
Definition server (e : io) (req : request) (f : fs) : response * fs :=
  let pathname := pathname_of (url req) in
  let res := setHeader "Access-Control-Allow-Origin" "*" new_response in
  let res := setHeader "Access-Control-Allow-Methods" "GET,POST,OPTIONS" res in
  let res := setHeader "Access-Control-Allow-Headers" "Content-Type" res in
  if String.eqb (method req) "OPTIONS" then
    (end_ EmptyString (set_statusCode 204 res), f)
  else
    match routes e req pathname res f with
    | (Returned res', f') => (res', f')
    | (Thrown, f') =>
        (end_ (JSON_stringify (error_obj "Server error") 0)
           (writeHead 500 json_type res), f')
    end.

(** A request as the client sees it: when [url.parse] throws the handler
    ends before it has set a header, and nothing is sent. *)
Definition exchange (e : io) (req : request) (f : fs) : reply * fs :=
  if url_throws (url req) then (Unanswered, f)
  else (Answered (on_the_wire req (fst (server e req f))), snd (server e req f)).

(** Requests handled one after the other, each with its own [io]. *)
Fixpoint serve (l : list (io * request)) (f : fs) : fs :=
  match l with
  | [] => f
  | (e, req) :: r => serve r (snd (server e req f))
  end.

Definition is_get_count (req : request) : Prop :=
  pathname_of (url req) = Some "/api/count" /\ method req = "GET".

Definition is_increment (req : request) : Prop :=
  pathname_of (url req) = Some "/api/increment" /\ method req = "POST".

(** The three cross-origin headers the handler sets first. *)
Definition cors (res : response) : response :=
  setHeader "Access-Control-Allow-Headers" "Content-Type"
    (setHeader "Access-Control-Allow-Methods" "GET,POST,OPTIONS"
       (setHeader "Access-Control-Allow-Origin" "*" res)).

(** An increment request whose read and write do not fail. *)
Definition clean (er : io * request) : Prop :=
  is_increment (snd er) /\ read_fails (fst er) = false /\ write (fst er) = WriteOk.

(** No member [count] that is a number: [obj.count] throws, is
    [undefined], or is not a number. *)
Definition lacks_numeric_count (v : json) : Prop :=
  forall x, prop_count v <> Returned (Some (JNum x)).

(** The data file is missing, is not valid JSON, or has no numeric
    [count]. *)
Definition unusable (f : fs) : Prop :=
  f = None
  \/ exists raw, f = Some raw
       /\ (JSON_parse raw = None
           \/ exists v, JSON_parse raw = Some v /\ lacks_numeric_count v).

(** The count a read without failure returns. *)
Definition persisted_count (f : fs) : number := readCount quiet f.

(** The data file holds a JSON object whose [count] is the number [x]. *)
Definition holds_count (f : fs) (x : number) : Prop :=
  exists raw l,
    f = Some raw /\ JSON_parse raw = Some (JObj l)
    /\ own_property "count" l = Some (JNum x).

(** The data file holds a JSON object whose [count] is a number that is
    an integer [z >= 0]. *)
Definition file_invariant (f : fs) : Prop :=
  exists x z, holds_count f x /\ int_value x = Some z /\ 0 <= z.

(** The invariant with the count within the integers that numbers
    represent one by one. *)
Definition bounded_invariant (f : fs) : Prop :=
  exists z, holds_count f (ofZ z) /\ 0 <= z /\ z <= 2 ^ 53.

(** A write that fails does so before it touches the file. *)
Definition atomic (e : io) : Prop := forall n, write e <> WriteCut n.

(** States of the data file between requests, when every request is
    handled to its end before the next one arrives: the state the startup
    leaves when it succeeds on a file allowed by [init], and the states
    whole requests lead to, all under file operations allowed by [ok].
    ([run] takes the steps of requests one by one, in any order.) *)
Inductive reachable (init : fs -> Prop) (ok : io -> Prop) : fs -> Prop :=
  | reach_start (e : io) (f0 f : fs) :
      init f0 -> ok e -> ensureDataFile e f0 = (Returned tt, f) ->
      reachable init ok f
  | reach_step (e : io) (req : request) (f : fs) :
      reachable init ok f -> ok e ->
      reachable init ok (snd (server e req f)).

Definition any {A : Type} (_ : A) : Prop := True.

(** No data file, or one that holds a non-negative integer count. *)
Definition fresh_or_sound (f : fs) : Prop := f = None \/ file_invariant f.

(** ** The script of the page

    The page calls the two count routes with [fetch] and shows the
    result.  Its state is the text of the [count] and [status] elements
    and the [disabled] flag of the button. *)

(** What becomes of a [fetch]: the request reaches the server and the
    response comes back, the request is lost, or the response is lost
    after the server handled the request. *)
Inductive network : Type :=
  | Delivered
  | RequestLost
  | ResponseLost.

(** [fetch(url, { method })] against this server. *)
Definition fetch (net : network) (e : io) (req : request) (f : fs)
  : outcome response * fs :=
  match net with
  | Delivered => (Returned (fst (server e req f)), snd (server e req f))
  | RequestLost => (Thrown, f)
  | ResponseLost => (Thrown, snd (server e req f))
  end.

(** [j.count ?? 0] *)
Definition count_or_zero (j : json) : outcome json :=
  match prop_count j with
  | Thrown => Thrown
  | Returned None | Returned (Some JNull) => Returned (JNum (ofZ 0))
  | Returned (Some v) => Returned v
  end.

(** [(await r.json()).count ?? 0] for the outcome [r] of a [fetch]. *)
Definition json_count (r : outcome response) : outcome json :=
  match r with
  | Thrown => Thrown
  | Returned res =>
      match JSON_parse (body res) with
      | None => Thrown
      | Some j => count_or_zero j
      end
  end.

Definition fetchCount (net : network) (e : io) (f : fs) : outcome json * fs :=
  let r := fetch net e GET_count f in (json_count (fst r), snd r).

Definition inc (net : network) (e : io) (f : fs) : outcome json * fs :=
  let r := fetch net e POST_increment f in (json_count (fst r), snd r).

Record page : Type :=
  { count_text : string; status_text : string; tap_disabled : bool }.

(** [countEl.textContent = v]: the string of the value, the empty
    string for [null]. *)
Definition set_count (v : json) (p : page) : page :=
  {| count_text := match v with JNull => EmptyString | _ => ToString v end;
     status_text := status_text p;
     tap_disabled := tap_disabled p |}.

(** [function setStatus(msg)] *)
Definition setStatus (msg : string) (p : page) : page :=
  {| count_text := count_text p;
     status_text := if String.eqb msg EmptyString then EmptyString else msg;
     tap_disabled := tap_disabled p |}.

(** [btn.disabled = b] *)
Definition set_disabled (b : bool) (p : page) : page :=
  {| count_text := count_text p; status_text := status_text p; tap_disabled := b |}.

(** The page before its script runs: a dash for the count. *)
Definition initial_page : page :=
  {| count_text := String "226" (String "128" (String "148" EmptyString));
     status_text := EmptyString;
     tap_disabled := false |}.

(** [async function init()] *)
Definition init (net : network) (e : io) (f : fs) (p : page) : page * fs :=
  match fetchCount net e f with
  | (Returned n, f') => (setStatus "Ready." (set_count n p), f')
  | (Thrown, f') =>
      (setStatus "Failed to load count." (set_count (JStr "?") p), f')
  end.

(** The [click] listener of the button. *)
Definition click (net : network) (e : io) (f : fs) (p : page) : page * fs :=
  let p1 := setStatus "Saving..." (set_disabled true p) in
  let r :=
    match inc net e f with
    | (Returned n, f') => (setStatus "Saved." (set_count n p1), f')
    | (Thrown, f') => (setStatus "Save failed." p1, f')
    end in
  (set_disabled false (fst r), snd r).

(** Whether the server comes to listen: [server.listen(PORT)] is called
    when [ensureDataFile] has returned.  [PORT] comes from the environment;
    [port_ok] says that it is a valid port and is free.  Otherwise
    [listen] fails, and nothing handles that failure. *)
Definition listens (e : io) (port_ok : bool) (f : fs) : bool :=
  match fst (ensureDataFile e f) with
  | Returned _ => port_ok
  | Thrown => false
  end.

(** A request that is not one for the increment route. *)
Definition other_request (er : io * request) : Prop := ~ is_increment (snd er).

(** ** Numbers that are integers below [2 ^ 53] *)

Lemma digits2_size p : digits2_pos p = Pos.size p.
Proof. induction p; simpl; congruence. Qed.

Lemma Zdigits2_log2 p : Z.pos (digits2_pos p) = Z.log2 (Z.pos p) + 1.
Proof.
  rewrite digits2_size. destruct p; simpl; rewrite ?Pos2Z.inj_succ; lia.
Qed.

Lemma Zpos_iter_xO q p : Z.pos (Pos.iter xO q p) = Z.pos q * 2 ^ Z.pos p.
Proof.
  rewrite <- Z.shiftl_mul_pow2 by lia. simpl.
  apply (Pos.iter_swap_gen _ _ Z.pos xO (Z.mul 2)). reflexivity.
Qed.

(** Shifting right by the zeros a left shift put in loses nothing. *)
Lemma iter_shr_exact p : forall q,
  iter_pos shr_1 p (exact (Z.pos (Pos.iter xO q p))) = exact (Z.pos q).
Proof.
  induction p; intros q; cbn [iter_pos Pos.iter].
  - change (shr_1 (exact (Z.pos (Pos.iter xO (Pos.iter xO q p) p)~0)))
      with (exact (Z.pos (Pos.iter xO (Pos.iter xO q p) p))).
    rewrite !IHp. reflexivity.
  - rewrite !IHp. reflexivity.
  - reflexivity.
Qed.

Lemma shr_exact (w : positive) (k e : Z) :
  0 <= k ->
  shr (exact (Z.pos w * 2 ^ k)) e k = (exact (Z.pos w), e + k).
Proof.
  intros Hk. destruct k as [|p|p]; try lia.
  - unfold shr. rewrite Z.pow_0_r, Z.mul_1_r, Z.add_0_r. reflexivity.
  - unfold shr. rewrite <- Zpos_iter_xO, iter_shr_exact. reflexivity.
Qed.

Lemma fexp_small d : 1 <= d -> d <= 54 -> fexp prec emax d = d - 53.
Proof. intros. unfold fexp, SpecFloat.emin, prec, emax. lia. Qed.

(** Rounding is exact on an integer below [2 ^ 53] scaled by a power of
    two: the result is the integer with its mantissa on 53 bits. *)
Lemma round_exact (s : bool) (w k : Z) :
  0 < w -> w < 2 ^ 53 -> 52 - Z.log2 w <= k ->
  binary_round_aux prec emax s (w * 2 ^ k) (- k) loc_Exact
  = S754_finite s (norm_m w) (norm_e w).
Proof.
  intros Hw Hlt Hk.
  assert (Hl : 0 <= Z.log2 w < 53).
  { split. apply Z.log2_nonneg. apply Z.log2_lt_pow2; lia. }
  assert (Hk0 : 0 <= k) by lia.
  set (r := 52 - Z.log2 w) in *.
  assert (Hr : 0 <= r) by (unfold r; lia).
  assert (Hwr : 0 < w * 2 ^ r) by (apply Z.mul_pos_pos; [lia | apply Z.pow_pos_nonneg; lia]).
  assert (Hsplit : w * 2 ^ k = Z.pos (norm_m w) * 2 ^ (k - r)).
  { unfold norm_m. fold r. rewrite Z2Pos.id by lia.
    rewrite <- Z.mul_assoc, <- Z.pow_add_r by lia. do 2 f_equal. lia. }
  assert (Hdig : forall j, 0 <= j -> Zdigits2 (Z.pos (norm_m w) * 2 ^ j) = 53 + j).
  { intros j Hj.
    assert (0 < Z.pos (norm_m w) * 2 ^ j) by (apply Z.mul_pos_pos; [lia | apply Z.pow_pos_nonneg; lia]).
    destruct (Z.pos (norm_m w) * 2 ^ j) eqn:E; try lia.
    unfold Zdigits2. rewrite Zdigits2_log2, <- E.
    rewrite Z.log2_mul_pow2 by lia.
    unfold norm_m. fold r. rewrite Z2Pos.id by lia.
    rewrite Z.log2_mul_pow2 by lia. unfold r. lia. }
  unfold binary_round_aux, shr_fexp.
  rewrite Hsplit, Hdig by lia.
  replace (53 + (k - r) + - k) with (53 - r) by lia.
  rewrite fexp_small by lia.
  replace (53 - r - 53 - - k) with (k - r) by lia.
  change (shr_record_of_loc (Z.pos (norm_m w) * 2 ^ (k - r)) loc_Exact)
    with (exact (Z.pos (norm_m w) * 2 ^ (k - r))).
  rewrite shr_exact by lia.
  cbn [shr_m exact loc_of_shr_record round_nearest_even shr_record_of_loc].
  specialize (Hdig 0 ltac:(lia)). rewrite Z.mul_1_r in Hdig.
  rewrite Hdig.
  replace (53 + 0 + (- k + (k - r))) with (53 - r) by lia.
  rewrite fexp_small by lia.
  replace (53 - r - 53 - (- k + (k - r))) with 0 by lia.
  cbn [shr shr_m].
  replace (- k + (k - r)) with (norm_e w) by (unfold norm_e, r; lia).
  assert (He : (norm_e w <=? emax - prec) = true).
  { apply Z.leb_le. unfold norm_e, emax, prec. lia. }
  rewrite He. reflexivity.
Qed.

Lemma shl_align_down m e e' :
  e' <= e ->
  Z.pos (fst (shl_align m e e')) = Z.pos m * 2 ^ (e - e') /\ snd (shl_align m e e') = e'.
Proof.
  intros H. unfold shl_align. destruct (e' - e) eqn:E; try lia; cbn [fst snd].
  - replace (e - e') with 0 by lia. rewrite Z.mul_1_r. split; [reflexivity | lia].
  - rewrite Zpos_iter_xO. replace (e - e') with (Z.pos p) by lia. split; reflexivity.
Qed.

Lemma shl_align_up m e e' : e <= e' -> shl_align m e e' = (m, e).
Proof.
  intros H. unfold shl_align. destruct (e' - e) eqn:E; try lia; reflexivity.
Qed.

Lemma log2_range w : 0 < w -> w < 2 ^ 53 -> 0 <= Z.log2 w < 53.
Proof.
  intros. split; [apply Z.log2_nonneg | apply Z.log2_lt_pow2; lia].
Qed.

Lemma norm_m_eq w : 0 < w -> w < 2 ^ 53 -> Z.pos (norm_m w) = w * 2 ^ (52 - Z.log2 w).
Proof.
  intros Hw Hlt. pose proof (log2_range w Hw Hlt).
  unfold norm_m. rewrite Z2Pos.id; [reflexivity|].
  apply Z.mul_pos_pos; [lia | apply Z.pow_pos_nonneg; lia].
Qed.

Lemma binary_round_exact (s : bool) (m : positive) (k : Z) (w : Z) :
  0 < w -> w < 2 ^ 53 -> 0 <= k <= 52 -> Z.pos m = w * 2 ^ k ->
  binary_round prec emax s m (- k) = S754_finite s (norm_m w) (norm_e w).
Proof.
  intros Hw Hlt Hk Hm. pose proof (log2_range w Hw Hlt) as Hl.
  unfold binary_round.
  rewrite Zdigits2_log2, Hm, Z.log2_mul_pow2 by lia.
  replace (k + Z.log2 w + 1 + - k) with (Z.log2 w + 1) by lia.
  rewrite fexp_small by lia.
  destruct (Z_le_gt_dec (- k) (Z.log2 w + 1 - 53)) as [Hc|Hc].
  - rewrite shl_align_up by lia. rewrite Hm.
    apply round_exact; lia.
  - destruct (shl_align_down m (- k) (Z.log2 w + 1 - 53)) as [Ha Hb]; [lia|].
    destruct (shl_align m (- k) (Z.log2 w + 1 - 53)) as [mz ez].
    cbn [fst snd] in Ha, Hb. subst ez. rewrite Ha, Hm.
    rewrite <- Z.mul_assoc, <- Z.pow_add_r by lia.
    replace (k + (- k - (Z.log2 w + 1 - 53))) with (52 - Z.log2 w) by lia.
    replace (Z.log2 w + 1 - 53) with (- (52 - Z.log2 w)) by lia.
    apply round_exact; lia.
Qed.

(** The shape of a number that is an integer. *)
Lemma ofZ_normal z :
  z <> 0 -> Z.abs z < 2 ^ 53 -> ofZ z = normal z.
Proof.
  intros Hz Hlt. unfold normal, ofZ, binary_normalize.
  destruct z as [|p|p]; try lia.
  - apply (binary_round_exact false p 0 (Z.pos p)); lia.
  - apply (binary_round_exact true p 0 (Z.pos p)); cbn [Z.abs] in Hlt; lia.
Qed.

(** Both numbers aligned to the exponent of 1. *)
Lemma align_to_one w :
  0 < w -> w < 2 ^ 53 ->
  Z.min (norm_e w) (-52) = -52
  /\ Z.pos (fst (shl_align (norm_m w) (norm_e w) (-52))) = w * 2 ^ 52
  /\ fst (shl_align 4503599627370496 (-52) (-52)) = 4503599627370496%positive.
Proof.
  intros Hw Hlt. pose proof (log2_range w Hw Hlt) as Hl.
  split; [unfold norm_e; lia|]. split.
  - destruct (shl_align_down (norm_m w) (norm_e w) (-52)) as [Ha _];
      [unfold norm_e; lia|].
    rewrite Ha, norm_m_eq by lia.
    rewrite <- Z.mul_assoc, <- Z.pow_add_r by (unfold norm_e; lia).
    do 2 f_equal. unfold norm_e. lia.
  - rewrite shl_align_up by lia. reflexivity.
Qed.

Lemma js_add_one_pos z :
  0 < z -> z < 2 ^ 53 - 1 -> js_add (ofZ z) (ofZ 1) = ofZ (z + 1).
Proof.
  intros Hz Hlt.
  rewrite (ofZ_normal z), (ofZ_normal (z + 1)) by lia. unfold normal.
  replace (z <? 0) with false by (symmetry; apply Z.ltb_ge; lia).
  replace (z + 1 <? 0) with false by (symmetry; apply Z.ltb_ge; lia).
  rewrite !Z.abs_eq by lia.
  destruct (align_to_one z) as (Hmin & Ha & Hb); [lia | lia|].
  change (ofZ 1) with (S754_finite false 4503599627370496 (-52)).
  unfold js_add, SFadd. cbn [cond_Zopp]. rewrite Hmin, Hb.
  set (a := fst (shl_align (norm_m z) (norm_e z) (-52))) in *.
  change (Z.pos a + 4503599627370496) with (Z.pos (a + 4503599627370496)).
  unfold binary_normalize.
  apply (binary_round_exact false _ 52 (z + 1)); lia.
Qed.

Lemma js_add_one_neg z :
  - 2 ^ 53 < z -> z < -1 -> js_add (ofZ z) (ofZ 1) = ofZ (z + 1).
Proof.
  intros Hlo Hz.
  rewrite (ofZ_normal z), (ofZ_normal (z + 1)) by lia. unfold normal.
  replace (z <? 0) with true by (symmetry; apply Z.ltb_lt; lia).
  replace (z + 1 <? 0) with true by (symmetry; apply Z.ltb_lt; lia).
  destruct (align_to_one (Z.abs z)) as (Hmin & Ha & Hb); [lia | lia|].
  change (ofZ 1) with (S754_finite false 4503599627370496 (-52)).
  unfold js_add, SFadd. cbn [cond_Zopp]. rewrite Hmin, Hb.
  set (a := fst (shl_align (norm_m (Z.abs z)) (norm_e (Z.abs z)) (-52))) in *.
  destruct (- Z.pos a + 4503599627370496) as [|p|p] eqn:Es; try lia.
  unfold binary_normalize.
  apply (binary_round_exact true _ 52 (Z.abs (z + 1))); lia.
Qed.

(** Adding 1 to a number that is an integer gives the next integer, up
    to [2 ^ 53]. *)
Lemma js_add_one_next z :
  - 2 ^ 53 <= z -> z < 2 ^ 53 -> js_add (ofZ z) (ofZ 1) = ofZ (z + 1).
Proof.
  intros Hlo Hlt.
  destruct (Z.eq_dec z (2 ^ 53 - 1)) as [->|H1]; [vm_compute; reflexivity|].
  destruct (Z.eq_dec z (- 2 ^ 53)) as [->|H2]; [vm_compute; reflexivity|].
  destruct (Z.eq_dec z 0) as [->|H3]; [reflexivity|].
  destruct (Z.eq_dec z (-1)) as [->|H4]; [reflexivity|].
  destruct (Z_lt_le_dec z 0).
  - apply js_add_one_neg; lia.
  - apply js_add_one_pos; lia.
Qed.

Lemma js_add_one_stuck : js_add (ofZ (2 ^ 53)) (ofZ 1) = ofZ (2 ^ 53).
Proof. vm_compute. reflexivity. Qed.

(** An integer literal denotes the number that is the integer. *)
Lemma dec_to_number_int (neg : bool) w :
  0 < w -> w <= 2 ^ 53 ->
  dec_to_number neg w 0 = ofZ (if neg then - w else w).
Proof.
  intros Hw Hle.
  destruct (Z.eq_dec w (2 ^ 53)) as [->|Htop];
    [destruct neg; vm_compute; reflexivity|].
  rewrite ofZ_normal by (destruct neg; lia).
  unfold dec_to_number. destruct (Z.eqb_spec w 0); [lia|].
  unfold round_fraction.
  change (10 ^ Z.max 0 0) with 1. change (10 ^ Z.max (- 0) 0) with 1.
  rewrite Z.mul_1_r, Z.div_1_r, Z.mod_1_r.
  change (new_location 1 0) with loc_Exact.
  pose proof (log2_range w ltac:(lia) ltac:(lia)).
  transitivity (S754_finite neg (norm_m w) (norm_e w));
    [apply (round_exact neg w 1200); lia|]. unfold normal.
  destruct neg.
  - replace (- w <? 0) with true by (symmetry; apply Z.ltb_lt; lia).
    rewrite Z.abs_neq by lia. rewrite Z.opp_involutive. reflexivity.
  - replace (w <? 0) with false by (symmetry; apply Z.ltb_ge; lia).
    rewrite Z.abs_eq by lia. reflexivity.
Qed.

Lemma int_value_normal w :
  0 < w -> w < 2 ^ 53 ->
  int_value (S754_finite false (norm_m w) (norm_e w)) = Some w
  /\ int_value (S754_finite true (norm_m w) (norm_e w)) = Some (- w).
Proof.
  intros Hw Hlt. pose proof (log2_range w Hw Hlt) as Hl.
  unfold int_value. rewrite norm_m_eq by lia. unfold norm_e.
  destruct (Z.leb_spec 0 (Z.log2 w - 52)).
  - replace (Z.log2 w) with 52 by lia. cbn -[Z.pow].
    rewrite !Z.mul_1_r. split; reflexivity.
  - replace (- (Z.log2 w - 52)) with (52 - Z.log2 w) by lia.
    rewrite Z.mod_mul, Z.div_mul by (apply Z.pow_nonzero; lia).
    cbn -[Z.pow]. split; reflexivity.
Qed.

Lemma safe_integer_normal w :
  0 < w -> w < 2 ^ 53 -> safe_integer (norm_m w) (norm_e w) = Some w.
Proof.
  intros Hw Hlt. unfold safe_integer.
  rewrite (proj1 (int_value_normal w Hw Hlt)).
  replace (w <=? 2 ^ 53) with true by (symmetry; apply Z.leb_le; lia).
  reflexivity.
Qed.

Lemma int_value_ofZ z : safe z -> int_value (ofZ z) = Some z.
Proof.
  intros [Hlo Hhi].
  destruct (Z.eq_dec z 0) as [->|Hnz]; [reflexivity|].
  destruct (Z.eq_dec z (2 ^ 53)) as [->|Htop]; [reflexivity|].
  destruct (Z.eq_dec z (- 2 ^ 53)) as [->|Hbot]; [reflexivity|].
  rewrite ofZ_normal by lia. unfold normal.
  destruct (int_value_normal (Z.abs z)) as [Hp Hn]; [lia | lia|].
  destruct (Z.ltb_spec z 0).
  - rewrite Hn. f_equal. lia.
  - rewrite Hp. f_equal. lia.
Qed.

Lemma Number_toString_int z : safe z -> Number_toString (ofZ z) = integer_text z.
Proof.
  intros [Hlo Hhi].
  destruct (Z.eq_dec z 0) as [->|Hnz]; [reflexivity|].
  destruct (Z.eq_dec z (2 ^ 53)) as [->|Htop]; [vm_compute; reflexivity|].
  destruct (Z.eq_dec z (- 2 ^ 53)) as [->|Hbot]; [vm_compute; reflexivity|].
  rewrite ofZ_normal by lia. unfold normal, Number_toString, integer_text.
  rewrite safe_integer_normal by lia.
  destruct (Z.ltb_spec z 0).
  - rewrite Z.abs_neq by lia. reflexivity.
  - rewrite Z.abs_eq by lia. reflexivity.
Qed.

Lemma is_finite_int z : safe z -> is_finite (ofZ z) = true.
Proof.
  intros [Hlo Hhi].
  destruct (Z.eq_dec z 0) as [->|Hnz]; [reflexivity|].
  destruct (Z.eq_dec z (2 ^ 53)) as [->|Htop]; [reflexivity|].
  destruct (Z.eq_dec z (- 2 ^ 53)) as [->|Hbot]; [reflexivity|].
  rewrite ofZ_normal by lia. reflexivity.
Qed.

(** ** Fuel of the parser *)

Lemma parse_value_S f s :
  parse_value (S f) s =
  match skip_ws s with
  | EmptyString => None
  | String c r =>
      if code c =? 34 then
        match parse_string r with
        | Some (str, tl) => Some (JStr str, tl)
        | None => None
        end
      else if code c =? 91 then
        match starts_with "]" (skip_ws r) with
        | Some tl => Some (JArr [], tl)
        | None =>
            match parse_elements f r with
            | Some (l, tl) => Some (JArr l, tl)
            | None => None
            end
        end
      else if code c =? 123 then
        match starts_with "}" (skip_ws r) with
        | Some tl => Some (JObj [], tl)
        | None =>
            match parse_members f r with
            | Some (l, tl) => Some (JObj l, tl)
            | None => None
            end
        end
      else if code c =? 110 then
        match expect "null" (String c r) with
        | Some tl => Some (JNull, tl)
        | None => None
        end
      else if code c =? 116 then
        match expect "true" (String c r) with
        | Some tl => Some (JBool true, tl)
        | None => None
        end
      else if code c =? 102 then
        match expect "false" (String c r) with
        | Some tl => Some (JBool false, tl)
        | None => None
        end
      else
        match parse_number (String c r) with
        | Some (x, tl) => Some (JNum x, tl)
        | None => None
        end
  end.
Proof. reflexivity. Qed.

Lemma parse_elements_S f s :
  parse_elements (S f) s =
  match parse_value f s with
  | None => None
  | Some (v, tl) =>
      match starts_with "," (skip_ws tl) with
      | Some tl' =>
          match parse_elements f tl' with
          | Some (l, tl'') => Some (v :: l, tl'')
          | None => None
          end
      | None =>
          match starts_with "]" (skip_ws tl) with
          | Some tl' => Some ([v], tl')
          | None => None
          end
      end
  end.
Proof. reflexivity. Qed.

Lemma parse_members_S f s :
  parse_members (S f) s =
  match starts_with dq (skip_ws s) with
  | None => None
  | Some r =>
      match parse_string r with
      | None => None
      | Some (k, tl) =>
          match starts_with ":" (skip_ws tl) with
          | None => None
          | Some tl1 =>
              match parse_value f tl1 with
              | None => None
              | Some (v, tl2) =>
                  match starts_with "," (skip_ws tl2) with
                  | Some tl3 =>
                      match parse_members f tl3 with
                      | Some (l, tl4) => Some ((k, v) :: l, tl4)
                      | None => None
                      end
                  | None =>
                      match starts_with "}" (skip_ws tl2) with
                      | Some tl3 => Some ([(k, v)], tl3)
                      | None => None
                      end
                  end
              end
          end
      end
  end.
Proof. reflexivity. Qed.

(** More fuel keeps every result. *)
Lemma parse_fuel_monotone f : fuel_monotone f.
Proof.
  induction f as [|f (IHv & IHe & IHm)].
  - repeat split; intros s r H; discriminate H.
  - repeat split; intros s r H.
    + rewrite parse_value_S in H |- *.
      destruct (skip_ws s) as [|c r0]; [discriminate H|].
      destruct (code c =? 34); [exact H|].
      destruct (code c =? 91).
      { destruct (starts_with "]" (skip_ws r0)); [exact H|].
        destruct (parse_elements f r0) as [[l tl]|] eqn:E; [|discriminate H].
        rewrite (IHe _ _ E). exact H. }
      destruct (code c =? 123); [|exact H].
      destruct (starts_with "}" (skip_ws r0)); [exact H|].
      destruct (parse_members f r0) as [[l tl]|] eqn:E; [|discriminate H].
      rewrite (IHm _ _ E). exact H.
    + rewrite parse_elements_S in H |- *.
      destruct (parse_value f s) as [[v tl]|] eqn:E; [|discriminate H].
      rewrite (IHv _ _ E).
      destruct (starts_with "," (skip_ws tl)) as [tl'|]; [|exact H].
      destruct (parse_elements f tl') as [[l tl'']|] eqn:E'; [|discriminate H].
      rewrite (IHe _ _ E'). exact H.
    + rewrite parse_members_S in H |- *.
      destruct (starts_with dq (skip_ws s)) as [r0|]; [|discriminate H].
      destruct (parse_string r0) as [[k tl]|]; [|discriminate H].
      destruct (starts_with ":" (skip_ws tl)) as [tl1|]; [|discriminate H].
      destruct (parse_value f tl1) as [[v tl2]|] eqn:E; [|discriminate H].
      rewrite (IHv _ _ E).
      destruct (starts_with "," (skip_ws tl2)) as [tl3|]; [|exact H].
      destruct (parse_members f tl3) as [[l tl4]|] eqn:E'; [|discriminate H].
      rewrite (IHm _ _ E'). exact H.
Qed.

Lemma parse_value_more f f' s r :
  (f <= f')%nat -> parse_value f s = Some r -> parse_value f' s = Some r.
Proof.
  induction 1 as [|g _ IH]; [trivial|].
  intros H. apply (proj1 (parse_fuel_monotone g)). apply IH. exact H.
Qed.

Lemma parse_elements_more f f' s r :
  (f <= f')%nat -> parse_elements f s = Some r -> parse_elements f' s = Some r.
Proof.
  induction 1 as [|g _ IH]; [trivial|].
  intros H. apply (proj1 (proj2 (parse_fuel_monotone g))). apply IH. exact H.
Qed.

Lemma parse_members_more f f' s r :
  (f <= f')%nat -> parse_members f s = Some r -> parse_members f' s = Some r.
Proof.
  induction 1 as [|g _ IH]; [trivial|].
  intros H. apply (proj2 (proj2 (parse_fuel_monotone g))). apply IH. exact H.
Qed.

(** *** What a parser consumes *)

Lemma skip_ws_length s : (String.length (skip_ws s) <= String.length s)%nat.
Proof.
  induction s as [|c r IH]; cbn [skip_ws]; [lia|].
  destruct (is_ws c); cbn [String.length] in *; lia.
Qed.

Lemma starts_with_length ch s r :
  starts_with ch s = Some r -> String.length s = S (String.length r).
Proof.
  destruct s as [|c r0]; cbn [starts_with]; [discriminate|].
  destruct (Ascii.eqb c ch); [|discriminate]. intros [= ->]. reflexivity.
Qed.

Lemma parse_string_length s : forall str tl,
  parse_string s = Some (str, tl) -> (String.length tl < String.length s)%nat.
Proof.
  induction s as [s IH] using (well_founded_induction
    (Wf_nat.well_founded_ltof _ String.length)).
  unfold Wf_nat.ltof in IH.
  intros str tl H. destruct s as [|c r]; [discriminate H|].
  cbn [parse_string] in H. cbn [String.length].
  destruct (code c =? 34); [injection H as _ <-; lia|].
  destruct (code c =? 92).
  - destruct r as [|e r']; [discriminate H|].
    assert (Hsimple :
      match simple_escape e, parse_string r' with
      | Some ch, Some (str0, tl0) => Some (String ch str0, tl0)
      | _, _ => None
      end = Some (str, tl) -> (String.length tl < S (String.length (String e r')))%nat).
    { intros Hs. destruct (simple_escape e); [|discriminate Hs].
      destruct (parse_string r') as [[str0 tl0]|] eqn:E; [|discriminate Hs].
      injection Hs as _ <-. apply IH in E; cbn [String.length] in *; lia. }
    destruct e as [b0 b1 b2 b3 b4 b5 b6 b7].
    destruct b0, b1, b2, b3, b4, b5, b6, b7; try (apply Hsimple; exact H).
    destruct r' as [|h1 [|h2 [|h3 [|h4 r'']]]]; try (apply Hsimple; exact H).
    destruct (hex4 h1 h2 h3 h4); [|discriminate H].
    destruct (parse_string r'') as [[str0 tl0]|] eqn:E; [|discriminate H].
    injection H as _ <-. apply IH in E; cbn [String.length] in *; lia.
  - destruct (code c <? 32); [discriminate H|].
    destruct (parse_string r) as [[str0 tl0]|] eqn:E; [|discriminate H].
    injection H as _ <-. apply IH in E; cbn [String.length] in *; lia.
Qed.

Lemma substring_length s : forall n m, (String.length (substring n m s) <= m)%nat.
Proof.
  induction s as [|c r IH]; intros [|n] [|m]; cbn [substring String.length]; try lia.
  - specialize (IH 0%nat m). lia.
  - apply IH.
  - apply IH.
Qed.

Lemma expect_length lit c r tl :
  lit <> EmptyString -> expect lit (String c r) = Some tl ->
  (String.length tl < String.length (String c r))%nat.
Proof.
  intros Hlit H. unfold expect in H.
  destruct (prefix lit (String c r)); [|discriminate H].
  assert (E : tl = substring (String.length lit)
                     (String.length (String c r) - String.length lit) (String c r))
    by congruence.
  rewrite E. eapply Nat.le_lt_trans; [apply substring_length|].
  destruct lit as [|a l]; [congruence|]. cbn [String.length]. lia.
Qed.

Lemma lex_digits_length s : forall acc cnt v c r,
  lex_digits s acc cnt = (v, c, r) -> (String.length r <= String.length s)%nat.
Proof.
  induction s as [|a s IH]; intros acc cnt v c r H; cbn [lex_digits] in H.
  - injection H as _ _ <-. lia.
  - destruct (digit_of a).
    + apply IH in H. cbn [String.length]. lia.
    + injection H as _ _ <-. lia.
Qed.

Lemma lex_int_length s v r :
  lex_int s = Some (v, r) -> (String.length r < String.length s)%nat.
Proof.
  destruct s as [|a s]; cbn [lex_int]; [discriminate|].
  destruct (digit_of a) as [[|p|p]|]; try discriminate.
  - intros [= _ <-]. cbn [String.length]. lia.
  - destruct (lex_digits s (Z.pos p) 1) as [[v' c'] r'] eqn:E. intros [= _ <-].
    apply lex_digits_length in E. cbn [String.length]. lia.
  - destruct (lex_digits s (Z.neg p) 1) as [[v' c'] r'] eqn:E. intros [= _ <-].
    apply lex_digits_length in E. cbn [String.length]. lia.
Qed.

Lemma lex_frac_length m s v c r :
  lex_frac m s = Some (v, c, r) -> (String.length r <= String.length s)%nat.
Proof.
  assert (Hdot : forall s',
    (let '(v0, cnt, r') := lex_digits s' m 0 in
     if cnt =? 0 then None else Some (v0, cnt, r')) = Some (v, c, r) ->
    (String.length r <= String.length s')%nat).
  { intros s' H. destruct (lex_digits s' m 0) as [[v0 cnt] r'] eqn:E.
    destruct (cnt =? 0); [discriminate H|]. injection H as _ _ <-.
    apply lex_digits_length in E. exact E. }
  destruct s as [|a s']; cbn [lex_frac]; [intros [= _ _ <-]; lia|].
  destruct a as [b0 b1 b2 b3 b4 b5 b6 b7].
  destruct b0, b1, b2, b3, b4, b5, b6, b7;
    try (intros [= _ _ <-]; lia).
  intros H. apply Hdot in H. cbn [String.length]. lia.
Qed.

Lemma lex_exp_length s v r :
  lex_exp s = Some (v, r) -> (String.length r <= String.length s)%nat.
Proof.
  assert (Hd : forall (neg : bool) s',
    (let '(v0, cnt, r') := lex_digits s' 0 0 in
     if cnt =? 0 then None else Some (if neg then - v0 else v0, r')) = Some (v, r) ->
    (String.length r <= String.length s')%nat).
  { intros neg s' H. destruct (lex_digits s' 0 0) as [[v0 cnt] r'] eqn:E.
    destruct (cnt =? 0); [discriminate H|]. injection H as _ <-.
    apply lex_digits_length in E. exact E. }
  destruct s as [|a s']; cbn [lex_exp]; [intros [= _ <-]; lia|].
  destruct ((code a =? 101) || (code a =? 69)); [|intros [= _ <-]; lia].
  cbn [String.length].
  destruct s' as [|b s''];
    [intros H; apply (Hd false) in H; cbn [String.length] in H; lia|].
  destruct b as [b0 b1 b2 b3 b4 b5 b6 b7].
  destruct b0, b1, b2, b3, b4, b5, b6, b7;
    intros H; first [apply (Hd false) in H | apply (Hd true) in H];
    cbn [String.length] in *; lia.
Qed.

Lemma parse_number_length s x tl :
  parse_number s = Some (x, tl) -> (String.length tl < String.length s)%nat.
Proof.
  unfold parse_number. intros H.
  set (p := match s with
            | String c r => if code c =? 45 then (true, r) else (false, s)
            | EmptyString => (false, s)
            end) in H.
  assert (Hp : (String.length (snd p) <= String.length s)%nat).
  { subst p. destruct s as [|c r]; [cbn; lia|].
    destruct (code c =? 45); cbn [snd String.length]; lia. }
  destruct p as [neg s1]. cbn [snd] in Hp.
  destruct (lex_int s1) as [[i s2]|] eqn:Ei; [|discriminate H].
  destruct (lex_frac i s2) as [[[m nfrac] s3]|] eqn:Ef; [|discriminate H].
  destruct (lex_exp s3) as [[e s4]|] eqn:Ee; [|discriminate H].
  injection H as _ <-.
  apply lex_int_length in Ei. apply lex_frac_length in Ef. apply lex_exp_length in Ee.
  lia.
Qed.

(** *** Fuel in terms of the text consumed *)

Lemma fuel_succ (n : nat) : (1 <= n)%nat -> exists g, (2 * n = S g)%nat /\ (2 * n - 1 = g)%nat.
Proof. intros H. exists (2 * n - 1)%nat. lia. Qed.

Ltac with_fuel more g Hb :=
  match type of Hb with
  | _ ?f0 _ = _ =>
      let Hle := fresh "Hle" in
      assert (Hle : (f0 <= g)%nat) by lia;
      rewrite (more f0 g _ _ Hle Hb); clear Hle
  end.

Lemma parse_value_bounded f :
  fuel_bounded f ->
  forall s v tl, parse_value (S f) s = Some (v, tl) ->
    (String.length tl < String.length s)%nat
    /\ parse_value (2 * (String.length s - String.length tl)) s = Some (v, tl).
Proof.
  intros (_ & IHe & IHm) s v tl H.
  rewrite parse_value_S in H.
  pose proof (skip_ws_length s) as Hws.
  destruct (skip_ws s) as [|c r0] eqn:Es; [discriminate H|].
  cbn [String.length] in Hws.
  assert (Hleaf : (String.length tl < String.length s)%nat ->
            (forall g, parse_value (S g) s = Some (v, tl)) ->
            (String.length tl < String.length s)%nat
            /\ parse_value (2 * (String.length s - String.length tl)) s = Some (v, tl)).
  { intros Hlt Hall. split; [exact Hlt|].
    destruct (fuel_succ (String.length s - String.length tl) ltac:(lia)) as (g & Heq & _); rewrite Heq.
    apply Hall. }
  destruct (code c =? 34) eqn:E1.
  { destruct (parse_string r0) as [[str tl0]|] eqn:E; [|discriminate H].
    injection H as <- <-. apply parse_string_length in E as Hl.
    apply Hleaf; [lia|]. intros g. rewrite parse_value_S, Es, E1, E. reflexivity. }
  destruct (code c =? 91) eqn:E2.
  { destruct (starts_with "]" (skip_ws r0)) as [tl0|] eqn:E.
    - injection H as <- <-. apply starts_with_length in E as Hl.
      pose proof (skip_ws_length r0).
      apply Hleaf; [lia|]. intros g. rewrite parse_value_S, Es, E1, E2, E. reflexivity.
    - destruct (parse_elements f r0) as [[l tl0]|] eqn:Ee; [|discriminate H].
      injection H as <- <-. destruct (IHe _ _ _ Ee) as [Hl Hb].
      split; [lia|].
      destruct (fuel_succ (String.length s - String.length tl0) ltac:(lia)) as (g & Heq & Hg);
      rewrite Heq.
      rewrite parse_value_S, Es, E1, E2, E.
      with_fuel parse_elements_more g Hb. reflexivity. }
  destruct (code c =? 123) eqn:E3.
  { destruct (starts_with "}" (skip_ws r0)) as [tl0|] eqn:E.
    - injection H as <- <-. apply starts_with_length in E as Hl.
      pose proof (skip_ws_length r0).
      apply Hleaf; [lia|]. intros g. rewrite parse_value_S, Es, E1, E2, E3, E. reflexivity.
    - destruct (parse_members f r0) as [[l tl0]|] eqn:Ee; [|discriminate H].
      injection H as <- <-. destruct (IHm _ _ _ Ee) as [Hl Hb].
      split; [lia|].
      destruct (fuel_succ (String.length s - String.length tl0) ltac:(lia)) as (g & Heq & Hg);
      rewrite Heq.
      rewrite parse_value_S, Es, E1, E2, E3, E.
      with_fuel parse_members_more g Hb. reflexivity. }
  destruct (code c =? 110) eqn:E4.
  { destruct (expect "null" (String c r0)) as [tl0|] eqn:E; [|discriminate H].
    injection H as <- <-. apply expect_length in E as Hl; try discriminate.
    cbn [String.length] in Hl.
    apply Hleaf; [lia|]. intros g. rewrite parse_value_S, Es, E1, E2, E3, E4, E. reflexivity. }
  destruct (code c =? 116) eqn:E5.
  { destruct (expect "true" (String c r0)) as [tl0|] eqn:E; [|discriminate H].
    injection H as <- <-. apply expect_length in E as Hl; try discriminate.
    cbn [String.length] in Hl.
    apply Hleaf; [lia|]. intros g.
    rewrite parse_value_S, Es, E1, E2, E3, E4, E5, E. reflexivity. }
  destruct (code c =? 102) eqn:E6.
  { destruct (expect "false" (String c r0)) as [tl0|] eqn:E; [|discriminate H].
    injection H as <- <-. apply expect_length in E as Hl; try discriminate.
    cbn [String.length] in Hl.
    apply Hleaf; [lia|]. intros g.
    rewrite parse_value_S, Es, E1, E2, E3, E4, E5, E6, E. reflexivity. }
  destruct (parse_number (String c r0)) as [[x tl0]|] eqn:E; [|discriminate H].
  injection H as <- <-. apply parse_number_length in E as Hl.
  cbn [String.length] in Hl.
  apply Hleaf; [lia|]. intros g.
  rewrite parse_value_S, Es, E1, E2, E3, E4, E5, E6, E. reflexivity.
Qed.

Lemma parse_elements_bounded f :
  fuel_bounded f ->
  forall s l tl, parse_elements (S f) s = Some (l, tl) ->
    (String.length tl < String.length s)%nat
    /\ parse_elements (2 * (String.length s - String.length tl)) s = Some (l, tl).
Proof.
  intros (IHv & IHe & _) s l tl H.
  rewrite parse_elements_S in H.
  destruct (parse_value f s) as [[v tl0]|] eqn:Ev; [|discriminate H].
  destruct (IHv _ _ _ Ev) as [Hl0 Hb0].
  pose proof (skip_ws_length tl0) as Hws.
  destruct (starts_with "," (skip_ws tl0)) as [tl'|] eqn:Ec.
  - destruct (parse_elements f tl') as [[l' tl'']|] eqn:Ee; [|discriminate H].
    injection H as <- <-. destruct (IHe _ _ _ Ee) as [Hl1 Hb1].
    apply starts_with_length in Ec as Hc.
    split; [lia|].
    destruct (fuel_succ (String.length s - String.length tl'') ltac:(lia)) as (g & Heq & Hg);
      rewrite Heq.
    rewrite parse_elements_S.
    with_fuel parse_value_more g Hb0. rewrite Ec.
    with_fuel parse_elements_more g Hb1. reflexivity.
  - destruct (starts_with "]" (skip_ws tl0)) as [tl'|] eqn:Eb; [|discriminate H].
    injection H as <- <-. apply starts_with_length in Eb as Hc.
    split; [lia|].
    destruct (fuel_succ (String.length s - String.length tl') ltac:(lia)) as (g & Heq & Hg);
      rewrite Heq.
    rewrite parse_elements_S.
    with_fuel parse_value_more g Hb0. rewrite Ec, Eb. reflexivity.
Qed.

Lemma parse_members_bounded f :
  fuel_bounded f ->
  forall s l tl, parse_members (S f) s = Some (l, tl) ->
    (String.length tl < String.length s)%nat
    /\ parse_members (2 * (String.length s - String.length tl)) s = Some (l, tl).
Proof.
  intros (IHv & _ & IHm) s l tl H.
  rewrite parse_members_S in H.
  pose proof (skip_ws_length s) as Hws0.
  destruct (starts_with dq (skip_ws s)) as [r0|] eqn:Eq; [|discriminate H].
  apply starts_with_length in Eq as Hq.
  destruct (parse_string r0) as [[k tl0]|] eqn:Ek; [|discriminate H].
  apply parse_string_length in Ek as Hk.
  pose proof (skip_ws_length tl0) as Hws1.
  destruct (starts_with ":" (skip_ws tl0)) as [tl1|] eqn:Ec; [|discriminate H].
  apply starts_with_length in Ec as Hc.
  destruct (parse_value f tl1) as [[v tl2]|] eqn:Ev; [|discriminate H].
  destruct (IHv _ _ _ Ev) as [Hl0 Hb0].
  pose proof (skip_ws_length tl2) as Hws2.
  destruct (starts_with "," (skip_ws tl2)) as [tl3|] eqn:Em.
  - destruct (parse_members f tl3) as [[l' tl4]|] eqn:Ee; [|discriminate H].
    injection H as <- <-. destruct (IHm _ _ _ Ee) as [Hl1 Hb1].
    apply starts_with_length in Em as Hm.
    split; [lia|].
    destruct (fuel_succ (String.length s - String.length tl4) ltac:(lia)) as (g & Heq & Hg);
      rewrite Heq.
    rewrite parse_members_S, Eq, Ek, Ec.
    with_fuel parse_value_more g Hb0. rewrite Em.
    with_fuel parse_members_more g Hb1. reflexivity.
  - destruct (starts_with "}" (skip_ws tl2)) as [tl3|] eqn:Eb; [|discriminate H].
    injection H as <- <-. apply starts_with_length in Eb as Hb.
    split; [lia|].
    destruct (fuel_succ (String.length s - String.length tl3) ltac:(lia)) as (g & Heq & Hg);
      rewrite Heq.
    rewrite parse_members_S, Eq, Ek, Ec.
    with_fuel parse_value_more g Hb0. rewrite Em, Eb. reflexivity.
Qed.

Lemma parse_fuel_bounded f : fuel_bounded f.
Proof.
  induction f as [|f IH].
  - repeat split; discriminate.
  - split; [|split].
    + apply parse_value_bounded; exact IH.
    + apply parse_elements_bounded; exact IH.
    + apply parse_members_bounded; exact IH.
Qed.

(** The fuel [JSON_parse] gives is enough: whatever parses with some
    fuel parses with twice the length of the text, to the same result. *)
Theorem parse_value_fuel f s v tl :
  parse_value f s = Some (v, tl) ->
  parse_value (2 * String.length s + 2) s = Some (v, tl).
Proof.
  intros H. destruct (proj1 (parse_fuel_bounded f) s v tl H) as [Hl Hb].
  apply (parse_value_more (2 * (String.length s - String.length tl))); [lia | exact Hb].
Qed.

(** A complete parse found with any fuel is the result of [JSON_parse]. *)
Corollary JSON_parse_fuel f s v tl :
  parse_value f s = Some (v, tl) -> skip_ws tl = EmptyString -> JSON_parse s = Some v.
Proof.
  intros H Htl. unfold JSON_parse. rewrite (parse_value_fuel f s v tl H), Htl. reflexivity.
Qed.

(** ** Reading back what the store writes *)

Lemma uint_value_pos d : forall p, uint_value d (Z.pos p) = Z.pos (Pos.of_uint_acc d p).
Proof.
  induction d; intros p; cbn [uint_value Pos.of_uint_acc]; try reflexivity;
    rewrite <- IHd; f_equal; lia.
Qed.

Lemma lex_digits_step c r acc cnt d :
  digit_of c = Some d ->
  lex_digits (String c r) acc cnt = lex_digits r (10 * acc + d) (cnt + 1).
Proof. intros H. cbn [lex_digits]. rewrite H. reflexivity. Qed.

Lemma lex_digits_stop s acc cnt :
  no_digit_ahead s -> lex_digits s acc cnt = (acc, cnt, s).
Proof.
  destruct s as [|c r]; cbn [lex_digits no_digit_ahead]; [reflexivity|].
  intros ->. reflexivity.
Qed.

Ltac lex_one_digit IH k :=
  rewrite (lex_digits_step _ _ _ _ k) by reflexivity;
  rewrite IH by assumption;
  rewrite Nat2Z.inj_succ, ?Z.add_0_r;
  f_equal; f_equal; lia.

(** The digit lexer reads printed digits back. *)
Lemma lex_digits_uint d : forall acc cnt tl,
  no_digit_ahead tl ->
  lex_digits (NilEmpty.string_of_uint d ++ tl) acc cnt
  = (uint_value d acc, cnt + Z.of_nat (Decimal.nb_digits d), tl).
Proof.
  induction d; intros acc cnt tl Htl;
    cbn [NilEmpty.string_of_uint String.append uint_value Decimal.nb_digits].
  - rewrite lex_digits_stop by assumption. f_equal. f_equal. lia.
  - lex_one_digit IHd 0.
  - lex_one_digit IHd 1.
  - lex_one_digit IHd 2.
  - lex_one_digit IHd 3.
  - lex_one_digit IHd 4.
  - lex_one_digit IHd 5.
  - lex_one_digit IHd 6.
  - lex_one_digit IHd 7.
  - lex_one_digit IHd 8.
  - lex_one_digit IHd 9.
Qed.

Lemma nzhead_not_D0 d : forall d', Decimal.nzhead d <> Decimal.D0 d'.
Proof.
  induction d; intros d'; cbn [Decimal.nzhead]; try discriminate. apply IHd.
Qed.

(** The digits of a positive number do not start with [0]. *)
Lemma to_uint_head p d : Pos.to_uint p <> Decimal.D0 d.
Proof.
  intros E.
  pose proof (DecimalPos.Unsigned.to_of (Pos.to_uint p)) as H.
  rewrite DecimalPos.Unsigned.of_to in H. cbn [N.to_uint] in H.
  rewrite E in H. unfold Decimal.unorm in H. cbn [Decimal.nzhead] in H.
  destruct (Decimal.nzhead d) eqn:En;
    try (symmetry in H; revert H; rewrite <- En; apply nzhead_not_D0).
  injection H as ->. apply (DecimalPos.Unsigned.to_uint_nonzero p). exact E.
Qed.

Ltac lex_first_digit p E :=
  cbn [NilEmpty.string_of_uint String.append lex_int];
  match goal with
  | |- context [digit_of ?c] =>
      let v := eval vm_compute in (digit_of c) in change (digit_of c) with v
  end;
  cbv beta iota;
  rewrite lex_digits_uint by assumption;
  rewrite uint_value_pos;
  pose proof (DecimalPos.Unsigned.of_to p) as Hp; rewrite E in Hp;
  cbn [Pos.of_uint] in Hp; injection Hp as ->; reflexivity.

Lemma lex_int_decimal z tl :
  0 <= z -> no_digit_ahead tl -> lex_int (decimal z ++ tl) = Some (z, tl).
Proof.
  intros Hz Htl. destruct z as [|p|p]; try lia; [reflexivity|].
  unfold decimal. cbn [Z.to_N N.to_uint].
  destruct (Pos.to_uint p) eqn:E.
  - exfalso. apply (DecimalPos.Unsigned.to_uint_nonnil p). exact E.
  - exfalso. apply (to_uint_head p _ E).
  - lex_first_digit p E.
  - lex_first_digit p E.
  - lex_first_digit p E.
  - lex_first_digit p E.
  - lex_first_digit p E.
  - lex_first_digit p E.
  - lex_first_digit p E.
  - lex_first_digit p E.
  - lex_first_digit p E.
Qed.

(** The decimal digits of a number start with a digit. *)
Lemma decimal_head z :
  0 <= z -> exists c r, decimal z = String c r /\ 48 <= code c <= 57.
Proof.
  intros Hz. destruct z as [|p|p]; try lia.
  - exists "0"%char, EmptyString. split; [reflexivity | vm_compute; split; discriminate].
  - unfold decimal. cbn [Z.to_N N.to_uint].
    destruct (Pos.to_uint p) eqn:E;
      [exfalso; apply (DecimalPos.Unsigned.to_uint_nonnil p); exact E | ..];
      cbn [NilEmpty.string_of_uint]; eexists; eexists; (split; [reflexivity|]);
      vm_compute; split; discriminate.
Qed.

Lemma parse_number_decimal z tl :
  0 <= z -> no_digit_ahead tl ->
  lex_frac z tl = Some (z, 0, tl) -> lex_exp tl = Some (0, tl) ->
  parse_number (decimal z ++ tl) = Some (dec_to_number false z 0, tl).
Proof.
  intros Hz Htl Hf He.
  destruct (decimal_head z Hz) as (c & r & Ed & Hc).
  unfold parse_number.
  pose proof (lex_int_decimal z tl Hz Htl) as Hi.
  rewrite Ed in *. cbn [String.append] in *.
  destruct (Z.eqb_spec (code c) 45); [lia|].
  rewrite Hi, Hf, He. reflexivity.
Qed.

Lemma parse_number_negative w tl :
  0 <= w -> no_digit_ahead tl ->
  lex_frac w tl = Some (w, 0, tl) -> lex_exp tl = Some (0, tl) ->
  parse_number (("-" ++ decimal w) ++ tl) = Some (dec_to_number true w 0, tl).
Proof.
  intros Hw Htl Hf He. unfold parse_number. cbn [String.append].
  change (code "-" =? 45) with true. cbv iota.
  rewrite (lex_int_decimal w tl Hw Htl), Hf, He. reflexivity.
Qed.

(** The text of an integer is read as the number that is the integer. *)
Lemma parse_number_integer z tl :
  safe z -> no_digit_ahead tl ->
  (forall m, lex_frac m tl = Some (m, 0, tl)) -> lex_exp tl = Some (0, tl) ->
  parse_number (integer_text z ++ tl) = Some (ofZ z, tl).
Proof.
  intros [Hlo Hhi] Htl Hf He. unfold integer_text.
  destruct (Z.ltb_spec z 0).
  - rewrite parse_number_negative by (try apply Hf; try assumption; lia).
    rewrite (dec_to_number_int true) by lia. rewrite Z.opp_involutive. reflexivity.
  - rewrite parse_number_decimal by (try apply Hf; try assumption; lia).
    destruct (Z.eq_dec z 0) as [->|Hnz]; [reflexivity|].
    rewrite (dec_to_number_int false) by lia. reflexivity.
Qed.

Lemma integer_text_head z :
  exists c r, integer_text z = String c r /\ (code c = 45 \/ 48 <= code c <= 57).
Proof.
  unfold integer_text. destruct (Z.ltb_spec z 0).
  - exists "-"%char, (decimal (- z)). split; [reflexivity | left; reflexivity].
  - destruct (decimal_head z) as (c & r & E & Hc); [assumption|].
    exists c, r. split; [exact E | right; exact Hc].
Qed.

Ltac decide_eqb :=
  repeat match goal with
         | |- context [Z.eqb ?a ?b] => destruct (Z.eqb_spec a b); [lia|]
         end.

Lemma parse_value_number f c r x tl :
  code c = 45 \/ 48 <= code c <= 57 ->
  parse_number (String c r) = Some (x, tl) ->
  parse_value (S f) (String c r) = Some (JNum x, tl).
Proof.
  intros Hc Hn. cbn [parse_value skip_ws].
  assert (Hws : is_ws c = false).
  { unfold is_ws. decide_eqb. reflexivity. }
  rewrite Hws. decide_eqb.
  rewrite Hn. reflexivity.
Qed.

Lemma parse_value_ws f c s :
  is_ws c = true -> parse_value f (String c s) = parse_value f s.
Proof.
  intros H. destruct f; [reflexivity|]. cbn [parse_value skip_ws]. rewrite H. reflexivity.
Qed.

Arguments decimal : simpl never.
Arguments integer_text : simpl never.

(** The data file the store writes for an integer count parses to the
    object with that count. *)
Lemma JSON_parse_count_file z :
  safe z -> JSON_parse (count_file z) = Some (count_obj (ofZ z)).
Proof.
  intros Hz. unfold JSON_parse.
  assert (Hfuel : exists k, (2 * String.length (count_file z) + 2 = S (S (S k)))%nat).
  { exists (2 * String.length (count_file z) - 1)%nat.
    assert (1 <= String.length (count_file z))%nat
      by (unfold count_file; cbn [String.append String.length]; lia).
    lia. }
  destruct Hfuel as [k ->].
  destruct (integer_text_head z) as (c & r & Ed & Hc).
  pose proof (parse_number_integer z (nl ++ "}") Hz eq_refl
                (fun m => eq_refl) eq_refl) as Hn.
  rewrite Ed in Hn. cbn [String.append] in Hn.
  pose proof (parse_value_number k c _ _ _ Hc Hn) as Hv.
  unfold count_file. rewrite Ed.
  cbn - [parse_value]. cbn [parse_value]. cbn - [parse_value parse_members].
  cbn [parse_members]. cbn - [parse_value].
  rewrite parse_value_ws by reflexivity.
  change (String lf "}") with (nl ++ "}"). rewrite Hv. reflexivity.
Qed.

Lemma JSON_stringify_count_file z :
  safe z -> JSON_stringify (count_obj (ofZ z)) 2 = count_file z.
Proof.
  intros Hz. unfold JSON_stringify, count_obj, count_file.
  cbn [serialize map fst snd spaces String.eqb Ascii.eqb Bool.eqb].
  rewrite is_finite_int, Number_toString_int by assumption.
  reflexivity.
Qed.

Lemma JSON_stringify_count_body z :
  safe z -> JSON_stringify (count_obj (ofZ z)) 0 = count_body z.
Proof.
  intros Hz. unfold JSON_stringify, count_obj, count_body.
  cbn [serialize map fst snd spaces String.eqb Ascii.eqb Bool.eqb].
  rewrite is_finite_int, Number_toString_int by assumption.
  reflexivity.
Qed.

(** ** Rounding in general *)

Lemma new_location_loc_of d r : 0 < d -> new_location d r = loc_of d r.
Proof.
  intros Hd. unfold new_location, new_location_even, new_location_odd, loc_of.
  destruct (Z.even d) eqn:E; [reflexivity|].
  destruct (r =? 0); [reflexivity|]. f_equal.
  assert (Ho : Z.odd d = true) by (rewrite <- Z.negb_even, E; reflexivity).
  apply Z.odd_spec in Ho. destruct Ho as [h Hh].
  destruct (Z.compare_spec (2 * r + 1) d), (Z.compare_spec (2 * r) d); try reflexivity; lia.
Qed.

(** One shift: the quotient by [d] becomes the quotient by [2 * d]. *)
Lemma shr_1_quotient a d :
  0 <= a -> 0 < d ->
  shr_1 (shr_record_of_loc (a / d) (loc_of d (a mod d)))
  = shr_record_of_loc (a / (2 * d)) (loc_of (2 * d) (a mod (2 * d))).
Proof.
  intros Ha Hd.
  pose proof (Z.div_mod a d ltac:(lia)) as E.
  pose proof (Z.mod_pos_bound a d Hd) as Hr.
  pose proof (Z.div_pos a d Ha Hd) as Hq.
  set (q := a / d) in *. set (r := a mod d) in *.
  pose proof (Z.div_mod q 2 ltac:(lia)) as E2.
  pose proof (Z.mod_pos_bound q 2 ltac:(lia)) as Hb.
  assert (Hdiv : a / (2 * d) = q / 2).
  { symmetry. apply (Z.div_unique a (2 * d) (q / 2) (d * (q mod 2) + r)); nia. }
  assert (Hmod : a mod (2 * d) = d * (q mod 2) + r).
  { symmetry. apply (Z.mod_unique a (2 * d) (q / 2) (d * (q mod 2) + r)); nia. }
  rewrite Hdiv, Hmod.
  assert (Hshift : forall rb sb,
            shr_1 {| shr_m := q; shr_r := rb; shr_s := sb |}
            = {| shr_m := q / 2; shr_r := (q mod 2 =? 1); shr_s := rb || sb |}).
  { intros rb sb. destruct q as [|[p|p|]|p]; try lia; cbn [shr_1].
    - reflexivity.
    - rewrite Pos2Z.inj_xI. replace ((2 * Z.pos p + 1) / 2) with (Z.pos p)
        by (apply (Z.div_unique _ 2 _ 1); lia).
      replace ((2 * Z.pos p + 1) mod 2) with 1
        by (apply (Z.mod_unique _ 2 (Z.pos p) 1); lia).
      reflexivity.
    - rewrite Pos2Z.inj_xO. replace ((2 * Z.pos p) / 2) with (Z.pos p)
        by (apply (Z.div_unique _ 2 _ 0); lia).
      replace ((2 * Z.pos p) mod 2) with 0
        by (apply (Z.mod_unique _ 2 (Z.pos p) 0); lia).
      reflexivity.
    - reflexivity. }
  assert (Hcase : q mod 2 = 0 \/ q mod 2 = 1) by lia.
  unfold loc_of.
  destruct (Z.eqb_spec r 0) as [Hr0|Hr0].
  - cbn [shr_record_of_loc]. rewrite Hshift. destruct Hcase as [Hc|Hc]; rewrite Hc.
    + replace (d * 0 + r) with 0 by lia. reflexivity.
    + destruct (Z.eqb_spec (d * 1 + r) 0); [lia|].
      replace (2 * (d * 1 + r) ?= 2 * d) with Eq by (symmetry; apply Z.compare_eq_iff; lia).
      reflexivity.
  - assert (Hany : forall c, shr_1 (shr_record_of_loc q (loc_Inexact c))
                          = {| shr_m := q / 2; shr_r := (q mod 2 =? 1); shr_s := true |}).
    { intros c. destruct c; cbn [shr_record_of_loc]; rewrite Hshift; reflexivity. }
    rewrite Hany. destruct Hcase as [Hc|Hc]; rewrite Hc.
    + destruct (Z.eqb_spec (d * 0 + r) 0); [lia|].
      replace (2 * (d * 0 + r) ?= 2 * d) with Lt by (symmetry; apply Z.compare_lt_iff; lia).
      reflexivity.
    + destruct (Z.eqb_spec (d * 1 + r) 0); [lia|].
      replace (2 * (d * 1 + r) ?= 2 * d) with Gt by (symmetry; apply Z.compare_gt_iff; lia).
      reflexivity.
Qed.

Lemma iter_shr_quotient a p : forall d,
  0 <= a -> 0 < d ->
  iter_pos shr_1 p (shr_record_of_loc (a / d) (loc_of d (a mod d)))
  = shr_record_of_loc (a / (d * 2 ^ Z.pos p)) (loc_of (d * 2 ^ Z.pos p) (a mod (d * 2 ^ Z.pos p))).
Proof.
  induction p as [p IH|p IH|]; intros d Ha Hd; cbn [iter_pos].
  - rewrite shr_1_quotient, IH, IH by (try apply Z.mul_pos_pos; try apply Z.pow_pos_nonneg; lia).
    replace (2 * d * 2 ^ Z.pos p * 2 ^ Z.pos p) with (d * 2 ^ Z.pos p~1); [reflexivity|].
    replace (Z.pos p~1) with (1 + Z.pos p + Z.pos p) by lia.
    rewrite !Z.pow_add_r by lia. change (2 ^ 1) with 2. ring.
  - rewrite IH, IH by (try apply Z.mul_pos_pos; try apply Z.pow_pos_nonneg; lia).
    replace (d * 2 ^ Z.pos p * 2 ^ Z.pos p) with (d * 2 ^ Z.pos p~0); [reflexivity|].
    replace (Z.pos p~0) with (Z.pos p + Z.pos p) by lia.
    rewrite !Z.pow_add_r by lia. ring.
  - rewrite shr_1_quotient by lia. change (2 ^ 1) with 2.
    replace (d * 2) with (2 * d) by lia. reflexivity.
Qed.

Lemma shr_quotient a d e n :
  0 <= a -> 0 < d -> 0 < n ->
  shr (shr_record_of_loc (a / d) (loc_of d (a mod d))) e n
  = (shr_record_of_loc (a / (d * 2 ^ n)) (loc_of (d * 2 ^ n) (a mod (d * 2 ^ n))), e + n).
Proof.
  intros Ha Hd Hn. destruct n as [|p|p]; try lia.
  unfold shr. rewrite iter_shr_quotient by assumption. reflexivity.
Qed.

Lemma Zdigits2_bounds z k :
  0 < k -> 2 ^ (k - 1) <= z -> z < 2 ^ k -> Zdigits2 z = k.
Proof.
  intros Hk Hlo Hhi.
  assert (Hz : 0 < z) by (pose proof (Z.pow_pos_nonneg 2 (k - 1)); lia).
  destruct z as [|p|p]; try lia.
  unfold Zdigits2. rewrite Zdigits2_log2.
  assert (E : Z.log2 (Z.pos p) = k - 1).
  { apply Z.log2_unique; [lia|].
    split; [lia | replace (Z.succ (k - 1)) with k by lia; lia]. }
  lia.
Qed.

Lemma Zdigits2_nonneg z : 0 <= Zdigits2 z.
Proof. destruct z; cbn; lia. Qed.

Lemma Zdigits2_range z : 0 < z -> 2 ^ (Zdigits2 z - 1) <= z < 2 ^ Zdigits2 z.
Proof.
  intros Hz. destruct z as [|p|p]; try lia.
  unfold Zdigits2. rewrite Zdigits2_log2.
  replace (Z.log2 (Z.pos p) + 1 - 1) with (Z.log2 (Z.pos p)) by lia.
  pose proof (Z.log2_spec (Z.pos p) ltac:(lia)) as H.
  replace (Z.succ (Z.log2 (Z.pos p))) with (Z.log2 (Z.pos p) + 1) in H by lia.
  exact H.
Qed.

Lemma loc_of_record m l : loc_of_shr_record (shr_record_of_loc m l) = l.
Proof. destruct l as [|[]]; reflexivity. Qed.

Lemma shr_m_record m l : shr_m (shr_record_of_loc m l) = m.
Proof. destruct l as [|[]]; reflexivity. Qed.

Lemma round_nearest_even_range m l :
  round_nearest_even m l = m \/ round_nearest_even m l = m + 1.
Proof.
  destruct l as [|[]]; cbn [round_nearest_even]; auto.
  destruct (Z.even m); auto.
Qed.

(** Rounding a quotient whose mantissa has 53 bits after [n] shifts. *)
Lemma round_aux_normal (s : bool) a d e0 n :
  0 < d -> 0 < n ->
  2 ^ 52 * (d * 2 ^ n) <= a -> a < 2 ^ 53 * (d * 2 ^ n) -> -1074 <= e0 + n ->
  binary_round_aux prec emax s (a / d) e0 (loc_of d (a mod d))
  = let m2 := round_nearest_even (a / (d * 2 ^ n))
                (loc_of (d * 2 ^ n) (a mod (d * 2 ^ n))) in
    if m2 <? 2 ^ 53 then
      if e0 + n <=? 971 then S754_finite s (Z.to_pos m2) (e0 + n) else S754_infinity s
    else
      if e0 + n + 1 <=? 971 then S754_finite s 4503599627370496 (e0 + n + 1)
      else S754_infinity s.
Proof.
  intros Hd Hn Hlo Hhi He.
  assert (Hp : 0 < 2 ^ n) by (apply Z.pow_pos_nonneg; lia).
  assert (Ha : 0 <= a) by nia.
  assert (Hdig : Zdigits2 (a / d) = 53 + n).
  { apply Zdigits2_bounds; [lia | |].
    - replace (53 + n - 1) with (52 + n) by lia. rewrite Z.pow_add_r by lia.
      apply Z.div_le_lower_bound; [lia|]. nia.
    - rewrite Z.pow_add_r by lia. apply Z.div_lt_upper_bound; [lia|]. nia. }
  unfold binary_round_aux, shr_fexp. rewrite Hdig.
  replace (fexp prec emax (53 + n + e0) - e0) with n
    by (unfold fexp, SpecFloat.emin, prec, emax; lia).
  rewrite shr_quotient by lia.
  rewrite shr_m_record, loc_of_record.
  set (q := d * 2 ^ n) in *.
  assert (Hq : 0 < q) by (unfold q; nia).
  assert (Hm1 : 2 ^ 52 <= a / q < 2 ^ 53).
  { split; [apply Z.div_le_lower_bound; lia | apply Z.div_lt_upper_bound; lia]. }
  cbv zeta.
  set (m2 := round_nearest_even (a / q) (loc_of q (a mod q))).
  assert (Hm2 : 2 ^ 52 <= m2 <= 2 ^ 53).
  { destruct (round_nearest_even_range (a / q) (loc_of q (a mod q))) as [E|E];
      fold m2 in E; lia. }
  destruct (Z.ltb_spec m2 (2 ^ 53)) as [Hlt|Hge].
  - rewrite (Zdigits2_bounds m2 53) by lia.
    replace (fexp prec emax (53 + (e0 + n)) - (e0 + n)) with 0
      by (unfold fexp, SpecFloat.emin, prec, emax; lia).
    cbn [shr]. rewrite shr_m_record.
    destruct m2 as [|p|p] eqn:E; try lia. reflexivity.
  - assert (E : m2 = 2 ^ 53) by lia. rewrite E.
    change (Zdigits2 (2 ^ 53)) with 54.
    replace (fexp prec emax (54 + (e0 + n)) - (e0 + n)) with 1
      by (unfold fexp, SpecFloat.emin, prec, emax; lia).
    cbn [shr iter_pos]. reflexivity.
Qed.

(** Every result of rounding is a number of the format. *)
Lemma round_aux_valid (s : bool) a d e0 :
  0 <= a -> 0 < d -> e0 <= -1127 ->
  valid_binary prec emax
    (binary_round_aux prec emax s (a / d) e0 (loc_of d (a mod d))) = true.
Proof.
  intros Ha Hd He0.
  pose proof (Z.div_pos a d Ha Hd) as Hmx.
  pose proof (Zdigits2_nonneg (a / d)) as Hdg.
  pose proof (Z.div_mod a d ltac:(lia)) as Hdm.
  pose proof (Z.mod_pos_bound a d Hd) as Hr.
  destruct (Z_le_gt_dec (-1074) (Zdigits2 (a / d) + e0 - 53)) as [Hn|Hs].
  - (* a mantissa of 53 bits *)
    set (n := Zdigits2 (a / d) - 53).
    assert (Hnpos : 0 < n) by (unfold n; lia).
    assert (Hpos : 0 < a / d).
    { destruct (Z.eq_dec (a / d) 0) as [E|E]; [rewrite E in Hn; cbn in Hn; lia | lia]. }
    pose proof (Zdigits2_range (a / d) Hpos) as Hrange.
    assert (Hp : 0 < 2 ^ n) by (apply Z.pow_pos_nonneg; lia).
    assert (H1 : 2 ^ (Zdigits2 (a / d) - 1) = 2 ^ 52 * 2 ^ n).
    { rewrite <- Z.pow_add_r by lia. f_equal. unfold n. lia. }
    assert (H2 : 2 ^ Zdigits2 (a / d) = 2 ^ 53 * 2 ^ n).
    { rewrite <- Z.pow_add_r by lia. f_equal. unfold n. lia. }
    rewrite (round_aux_normal s a d e0 n) by (try nia; unfold n; lia).
    cbv zeta.
    set (q := d * 2 ^ n).
    assert (Hq : 0 < q) by (unfold q; nia).
    assert (Hm1 : 2 ^ 52 <= a / q < 2 ^ 53).
    { split; [apply Z.div_le_lower_bound; unfold q; nia
             | apply Z.div_lt_upper_bound; unfold q; nia]. }
    set (m2 := round_nearest_even (a / q) (loc_of q (a mod q))).
    assert (Hm2 : 2 ^ 52 <= m2 <= 2 ^ 53).
    { destruct (round_nearest_even_range (a / q) (loc_of q (a mod q))) as [E|E];
        fold m2 in E; lia. }
    destruct (Z.ltb_spec m2 (2 ^ 53)).
    + destruct (Z.leb_spec (e0 + n) 971); [|reflexivity].
      cbn [valid_binary]. unfold bounded, canonical_mantissa.
      change (Z.pos (digits2_pos (Z.to_pos m2))) with (Zdigits2 (Z.pos (Z.to_pos m2))).
      rewrite Z2Pos.id by lia. rewrite (Zdigits2_bounds m2 53) by lia.
      apply andb_true_iff. split; [apply Z.eqb_eq | apply Z.leb_le];
        unfold fexp, SpecFloat.emin, prec, emax; unfold n in *; lia.
    + destruct (Z.leb_spec (e0 + n + 1) 971); [|reflexivity].
      cbn [valid_binary]. unfold bounded, canonical_mantissa.
      change (Z.pos (digits2_pos 4503599627370496)) with 53.
      apply andb_true_iff. split; [apply Z.eqb_eq | apply Z.leb_le];
        unfold fexp, SpecFloat.emin, prec, emax; unfold n in *; lia.
  - (* below the normal range *)
    set (n := -1074 - e0).
    assert (Hnpos : 0 < n) by (unfold n; lia).
    assert (Hp : 0 < 2 ^ n) by (apply Z.pow_pos_nonneg; lia).
    unfold binary_round_aux, shr_fexp.
    replace (fexp prec emax (Zdigits2 (a / d) + e0) - e0) with n
      by (unfold fexp, SpecFloat.emin, prec, emax, n; lia).
    rewrite shr_quotient by lia.
    rewrite shr_m_record, loc_of_record.
    set (q := d * 2 ^ n).
    assert (Hq : 0 < q) by (unfold q; nia).
    assert (Hm1 : 0 <= a / q < 2 ^ 52).
    { split; [apply Z.div_pos; lia|].
      apply Z.div_lt_upper_bound; [lia|].
      destruct (Z.eq_dec (a / d) 0) as [E|E].
      - assert (a < d) by nia. unfold q. nia.
      - pose proof (Zdigits2_range (a / d) ltac:(lia)) as [_ Hup].
        assert (Hle : 2 ^ Zdigits2 (a / d) <= 2 ^ (52 + n))
          by (apply Z.pow_le_mono_r; unfold n; lia).
        rewrite Z.pow_add_r in Hle by lia. unfold q. nia. }
    set (m2 := round_nearest_even (a / q) (loc_of q (a mod q))).
    assert (Hm2 : 0 <= m2 <= 2 ^ 52).
    { destruct (round_nearest_even_range (a / q) (loc_of q (a mod q))) as [E|E];
        fold m2 in E; lia. }
    assert (Hd2 : Zdigits2 m2 <= 53).
    { destruct (Z.eq_dec m2 0) as [E|E]; [rewrite E; cbn; lia|].
      pose proof (Zdigits2_range m2 ltac:(lia)) as [Hlo _].
      destruct (Z_le_gt_dec (Zdigits2 m2) 53); [assumption|].
      assert (2 ^ 53 <= 2 ^ (Zdigits2 m2 - 1)) by (apply Z.pow_le_mono_r; lia). lia. }
    pose proof (Zdigits2_nonneg m2) as Hd2'.
    replace (e0 + n) with (-1074) by (unfold n; lia).
    replace (fexp prec emax (Zdigits2 m2 + -1074) - -1074) with 0
      by (unfold fexp, SpecFloat.emin, prec, emax; lia).
    cbn [shr]. rewrite shr_m_record.
    destruct m2 as [|p|p] eqn:E; try lia; [reflexivity|].
    cbn [valid_binary]. unfold bounded, canonical_mantissa.
    cbn [Zdigits2] in Hd2, Hd2'.
    apply andb_true_iff. split; [apply Z.eqb_eq | apply Z.leb_le];
      unfold fexp, SpecFloat.emin, prec, emax; lia.
Qed.

Lemma round_fraction_loc neg num den :
  0 < den ->
  round_fraction neg num den
  = binary_round_aux prec emax neg (num * 2 ^ 1200 / den) (-1200)
      (loc_of den ((num * 2 ^ 1200) mod den)).
Proof.
  intros Hd. unfold round_fraction. cbv zeta.
  rewrite new_location_loc_of by assumption. reflexivity.
Qed.

Lemma round_fraction_valid neg num den :
  0 <= num -> 0 < den -> valid_binary prec emax (round_fraction neg num den) = true.
Proof.
  intros Hn Hd. rewrite round_fraction_loc by assumption.
  apply round_aux_valid; [|assumption|lia].
  apply Z.mul_nonneg_nonneg; [assumption | apply Z.pow_nonneg; lia].
Qed.

Lemma dec_to_number_valid neg m e10 :
  0 <= m -> valid_binary prec emax (dec_to_number neg m e10) = true.
Proof.
  intros Hm. unfold dec_to_number. destruct (m =? 0); [reflexivity|].
  apply round_fraction_valid.
  - apply Z.mul_nonneg_nonneg; [assumption | apply Z.pow_nonneg; lia].
  - apply Z.pow_pos_nonneg; lia.
Qed.

(** ** Numbers that are integers from [2 ^ 53] on *)

Lemma round_aux_normal_int (s : bool) a e0 n :
  0 < n -> 2 ^ 52 * 2 ^ n <= a -> a < 2 ^ 53 * 2 ^ n -> -1074 <= e0 + n ->
  binary_round_aux prec emax s a e0 loc_Exact
  = let m2 := round_nearest_even (a / 2 ^ n) (loc_of (2 ^ n) (a mod 2 ^ n)) in
    if m2 <? 2 ^ 53 then
      if e0 + n <=? 971 then S754_finite s (Z.to_pos m2) (e0 + n) else S754_infinity s
    else
      if e0 + n + 1 <=? 971 then S754_finite s 4503599627370496 (e0 + n + 1)
      else S754_infinity s.
Proof.
  intros Hn Hlo Hhi He.
  pose proof (round_aux_normal s a 1 e0 n ltac:(lia) Hn ltac:(lia) ltac:(lia) He) as H.
  rewrite Z.div_1_r, Z.mod_1_r, Z.mul_1_l in H. exact H.
Qed.

(** An integer [a * 2 ^ e0] nearer to [m * 2 ^ e] than to its neighbours
    rounds to it. *)
Lemma round_near (s : bool) a e0 m e :
  big m e -> e0 < 0 ->
  (2 * Z.pos m - 1) * 2 ^ (e - e0) < 2 * a ->
  2 * a < (2 * Z.pos m + 1) * 2 ^ (e - e0) ->
  (Z.pos m = 2 ^ 52 -> (4 * Z.pos m - 1) * 2 ^ (e - e0) < 4 * a) ->
  binary_round_aux prec emax s a e0 loc_Exact = S754_finite s m e.
Proof.
  intros [Hm He] He0 Hlo Hhi Hedge.
  assert (Hq : 0 < 2 ^ (e - e0)) by (apply Z.pow_pos_nonneg; lia).
  destruct (Z_le_gt_dec (Z.pos m * 2 ^ (e - e0)) a) as [Hge|Hlt].
  - (* at or above the number *)
    rewrite (round_aux_normal_int s a e0 (e - e0)) by nia.
    cbv zeta.
    set (q := 2 ^ (e - e0)) in *.
    assert (Hdiv : a / q = Z.pos m)
      by (symmetry; apply (Z.div_unique a q _ (a - Z.pos m * q)); nia).
    assert (Hmod : a mod q = a - Z.pos m * q)
      by (symmetry; apply (Z.mod_unique a q (Z.pos m)); nia).
    rewrite Hdiv, Hmod. unfold loc_of.
    assert (Hr : round_nearest_even (Z.pos m)
                   (if a - Z.pos m * q =? 0 then loc_Exact
                    else loc_Inexact (2 * (a - Z.pos m * q) ?= q)) = Z.pos m).
    { destruct (Z.eqb_spec (a - Z.pos m * q) 0); [reflexivity|].
      replace (2 * (a - Z.pos m * q) ?= q) with Lt
        by (symmetry; apply Z.compare_lt_iff; lia).
      reflexivity. }
    rewrite Hr.
    replace (Z.pos m <? 2 ^ 53) with true by (symmetry; apply Z.ltb_lt; lia).
    replace (e0 + (e - e0)) with e by lia.
    replace (e <=? 971) with true by (symmetry; apply Z.leb_le; lia).
    reflexivity.
  - destruct (Z.eq_dec (Z.pos m) (2 ^ 52)) as [Hedge'|Hin].
    + (* just below a power of two *)
      specialize (Hedge Hedge').
      assert (Hsplit : 2 ^ (e - e0) = 2 * 2 ^ (e - 1 - e0)).
      { replace (e - e0) with (1 + (e - 1 - e0)) by lia.
        rewrite Z.pow_add_r by lia. reflexivity. }
      set (q := 2 ^ (e - 1 - e0)) in *.
      assert (Hq' : 0 < q) by (unfold q; apply Z.pow_pos_nonneg; lia).
      rewrite (round_aux_normal_int s a e0 (e - 1 - e0)) by (fold q; nia).
      cbv zeta. fold q.
      assert (Hdiv : a / q = 2 ^ 53 - 1)
        by (symmetry; apply (Z.div_unique a q _ (a - (2 ^ 53 - 1) * q)); nia).
      assert (Hmod : a mod q = a - (2 ^ 53 - 1) * q)
        by (symmetry; apply (Z.mod_unique a q (2 ^ 53 - 1)); nia).
      rewrite Hdiv, Hmod. unfold loc_of.
      destruct (Z.eqb_spec (a - (2 ^ 53 - 1) * q) 0); [nia|].
      replace (2 * (a - (2 ^ 53 - 1) * q) ?= q) with Gt
        by (symmetry; apply Z.compare_gt_iff; nia).
      cbn [round_nearest_even].
      replace (2 ^ 53 - 1 + 1 <? 2 ^ 53) with false by reflexivity.
      replace (e0 + (e - 1 - e0) + 1) with e by lia.
      replace (e <=? 971) with true by (symmetry; apply Z.leb_le; lia).
      f_equal. lia.
    + (* below the number, within its binade *)
      rewrite (round_aux_normal_int s a e0 (e - e0)) by nia.
      cbv zeta.
      set (q := 2 ^ (e - e0)) in *.
      assert (Hdiv : a / q = Z.pos m - 1)
        by (symmetry; apply (Z.div_unique a q _ (a - (Z.pos m - 1) * q)); nia).
      assert (Hmod : a mod q = a - (Z.pos m - 1) * q)
        by (symmetry; apply (Z.mod_unique a q (Z.pos m - 1)); nia).
      rewrite Hdiv, Hmod. unfold loc_of.
      destruct (Z.eqb_spec (a - (Z.pos m - 1) * q) 0); [nia|].
      replace (2 * (a - (Z.pos m - 1) * q) ?= q) with Gt
        by (symmetry; apply Z.compare_gt_iff; nia).
      cbn [round_nearest_even].
      replace (Z.pos m - 1 + 1) with (Z.pos m) by lia.
      replace (Z.pos m <? 2 ^ 53) with true by (symmetry; apply Z.ltb_lt; lia).
      replace (e0 + (e - e0)) with e by lia.
      replace (e <=? 971) with true by (symmetry; apply Z.leb_le; lia).
      reflexivity.
Qed.

(** The same for the integer [w] itself, as a literal denotes it. *)
Lemma round_fraction_near w m e :
  big m e ->
  (2 * Z.pos m - 1) * 2 ^ e < 2 * w ->
  2 * w < (2 * Z.pos m + 1) * 2 ^ e ->
  (Z.pos m = 2 ^ 52 -> (4 * Z.pos m - 1) * 2 ^ e < 4 * w) ->
  round_fraction false w 1 = S754_finite false m e.
Proof.
  intros Hb Hlo Hhi Hedge. pose proof Hb as [Hm He].
  unfold round_fraction. cbv zeta.
  rewrite Z.div_1_r, Z.mod_1_r. change (new_location 1 0) with loc_Exact.
  assert (Hp : 2 ^ (e - -1200) = 2 ^ e * 2 ^ 1200).
  { rewrite <- Z.pow_add_r by lia. f_equal; lia. }
  assert (H0 : 0 < 2 ^ 1200) by (apply Z.pow_pos_nonneg; lia).
  apply round_near; [assumption | lia | | |]; rewrite Hp.
  - nia.
  - nia.
  - intros E. specialize (Hedge E). nia.
Qed.

(** Adding 1 to an integer from [2 ^ 53] on gives such an integer. *)
Lemma js_add_one_big m e :
  big m e ->
  exists m' e', js_add (S754_finite false m e) (ofZ 1) = S754_finite false m' e'
                /\ big m' e'.
Proof.
  intros Hb. pose proof Hb as [Hm He].
  change (ofZ 1) with (S754_finite false 4503599627370496 (-52)).
  unfold js_add, SFadd. cbn [cond_Zopp].
  replace (Z.min e (-52)) with (-52) by lia.
  destruct (shl_align_down m e (-52)) as [Ha _]; [lia|].
  rewrite Ha. rewrite (shl_align_up 4503599627370496 (-52) (-52)) by lia.
  cbn [fst].
  assert (Hq : 0 < 2 ^ (e - -52)) by (apply Z.pow_pos_nonneg; lia).
  assert (Hq2 : 2 ^ 53 <= 2 ^ (e - -52)) by (apply Z.pow_le_mono_r; lia).
  set (q := 2 ^ (e - -52)) in *.
  destruct (Z.pos m * q + 4503599627370496) as [|sp|sp] eqn:Es; try lia.
  unfold binary_normalize, binary_round.
  assert (Hdig : Z.pos (digits2_pos sp) = 53 + (e - -52)).
  { change (Z.pos (digits2_pos sp)) with (Zdigits2 (Z.pos sp)).
    apply Zdigits2_bounds; [lia | |].
    - replace (53 + (e - -52) - 1) with (52 + (e - -52)) by lia.
      rewrite Z.pow_add_r by lia. fold q. nia.
    - rewrite Z.pow_add_r by lia. fold q. nia. }
  rewrite Hdig.
  replace (fexp prec emax (53 + (e - -52) + -52)) with e
    by (unfold fexp, SpecFloat.emin, prec, emax; lia).
  rewrite shl_align_up by lia. cbv beta iota.
  destruct (Z.eq_dec e 1) as [->|Hne].
  - (* halfway between two numbers *)
    change (2 ^ (1 - -52)) with (2 ^ 53) in *. subst q.
    rewrite (round_aux_normal_int false (Z.pos sp) (-52) 53) by lia.
    cbv zeta.
    assert (Hdiv : Z.pos sp / 2 ^ 53 = Z.pos m)
      by (symmetry; apply (Z.div_unique _ _ _ (2 ^ 52)); lia).
    assert (Hmod : Z.pos sp mod 2 ^ 53 = 2 ^ 52)
      by (symmetry; apply (Z.mod_unique _ _ (Z.pos m)); lia).
    rewrite Hdiv, Hmod.
    change (loc_of (2 ^ 53) (2 ^ 52)) with (loc_Inexact Eq).
    cbn [round_nearest_even].
    destruct (Z.even (Z.pos m)).
    + replace (Z.pos m <? 2 ^ 53) with true by (symmetry; apply Z.ltb_lt; lia).
      exists m, 1. split; [reflexivity | split; lia].
    + destruct (Z.ltb_spec (Z.pos m + 1) (2 ^ 53)).
      * exists (Z.to_pos (Z.pos m + 1)), 1. split; [reflexivity|].
        split; [rewrite Z2Pos.id by lia; lia | lia].
      * exists 4503599627370496%positive, 2. split; [reflexivity|].
        split; [split; [reflexivity | reflexivity] | lia].
  - exists m, e. split; [|assumption].
    assert (Hq3 : 2 ^ 54 <= q) by (apply Z.pow_le_mono_r; lia).
    apply round_near; [assumption | lia | fold q; lia | fold q; lia |].
    intros _. fold q. lia.
Qed.

(** The numbers of the format that are non-negative integers: a zero, an
    integer below [2 ^ 53], or a 53-bit mantissa with a positive
    exponent. *)
Lemma nonneg_integer_cases x z :
  valid_binary prec emax x = true -> int_value x = Some z -> 0 <= z ->
  (exists s, x = S754_zero s)
  \/ (0 < z < 2 ^ 53 /\ x = ofZ z)
  \/ (exists m e, x = S754_finite false m e /\ big m e).
Proof.
  intros Hv Hi Hz. destruct x as [s|s| |s m e]; try discriminate.
  - left. exists s. reflexivity.
  - right. cbn [valid_binary] in Hv. unfold bounded, canonical_mantissa in Hv.
    apply andb_true_iff in Hv. destruct Hv as [Hc He].
    apply Z.eqb_eq in Hc. apply Z.leb_le in He.
    change (Z.pos (digits2_pos m)) with (Zdigits2 (Z.pos m)) in Hc.
    pose proof (Zdigits2_range (Z.pos m) ltac:(lia)) as Hr.
    pose proof (Zdigits2_nonneg (Z.pos m)) as Hd0.
    set (dg := Zdigits2 (Z.pos m)) in *.
    assert (Hdg : 1 <= dg).
    { destruct (Z_le_gt_dec 1 dg); [assumption|].
      replace dg with 0 in Hr by lia. cbn in Hr. lia. }
    unfold fexp, SpecFloat.emin, prec, emax in Hc, He.
    unfold int_value in Hi.
    destruct (Z.leb_spec 0 e) as [He0|He0].
    + assert (Hnormal : dg = 53) by lia.
      rewrite Hnormal in Hr. change (53 - 1) with 52 in Hr.
      assert (Hp : 0 < 2 ^ e) by (apply Z.pow_pos_nonneg; lia).
      cbv beta iota in Hi.
      assert (Ez : z = if s then - (Z.pos m * 2 ^ e) else Z.pos m * 2 ^ e) by congruence.
      clear Hi. destruct s; [exfalso; nia|]. subst z.
      destruct (Z.eq_dec e 0) as [->|Hne].
      * left. rewrite Z.pow_0_r, Z.mul_1_r. split; [lia|].
        rewrite ofZ_normal by lia. unfold normal, norm_m, norm_e.
        replace (Z.pos m <? 0) with false by reflexivity.
        rewrite Z.abs_eq by lia.
        assert (El : Z.log2 (Z.pos m) = 52).
        { apply Z.log2_unique; [lia|]. change (Z.succ 52) with 53. lia. }
        rewrite El. change (52 - 52) with 0. rewrite Z.pow_0_r, Z.mul_1_r.
        reflexivity.
      * right. exists m, e. split; [reflexivity|]. split; lia.
    + destruct (Z.eqb_spec (Z.pos m mod 2 ^ (- e)) 0) as [Hm0|Hm0]; [|discriminate].
      assert (Hp : 0 < 2 ^ (- e)) by (apply Z.pow_pos_nonneg; lia).
      pose proof (Z.div_mod (Z.pos m) (2 ^ (- e)) ltac:(lia)) as Hdm.
      rewrite Hm0, Z.add_0_r in Hdm.
      set (a := Z.pos m / 2 ^ (- e)) in *.
      assert (Ha : 0 < a) by nia.
      cbv beta iota in Hi. fold a in Hi.
      assert (Ez : z = if s then - a else a) by congruence.
      clear Hi. destruct s; [exfalso; lia|]. subst z.
      assert (Hnormal : dg = 53).
      { destruct (Z.eq_dec dg 53); [assumption|exfalso].
        assert (e = -1074) by lia. subst e.
        assert (Z.pos m < 2 ^ 53).
        { destruct Hr as [_ Hr]. eapply Z.lt_le_trans; [exact Hr|].
          apply Z.pow_le_mono_r; lia. }
        assert (2 ^ 53 <= 2 ^ (- -1074)) by (apply Z.pow_le_mono_r; lia).
        nia. }
      rewrite Hnormal in Hr. change (53 - 1) with 52 in Hr.
      assert (Hle : - e <= 52).
      { destruct (Z_le_gt_dec (- e) 52); [assumption|exfalso].
        assert (2 ^ 53 <= 2 ^ (- e)) by (apply Z.pow_le_mono_r; lia). nia. }
      assert (H52 : 2 ^ 52 = 2 ^ (52 + e) * 2 ^ (- e))
        by (rewrite <- Z.pow_add_r by lia; f_equal; lia).
      assert (H53 : 2 ^ 53 = 2 ^ (53 + e) * 2 ^ (- e))
        by (rewrite <- Z.pow_add_r by lia; f_equal; lia).
      assert (Hp2 : 0 < 2 ^ (52 + e)) by (apply Z.pow_pos_nonneg; lia).
      assert (Hp3 : 2 ^ (53 + e) <= 2 ^ 53) by (apply Z.pow_le_mono_r; lia).
      assert (Hlo : 2 ^ (52 + e) <= a) by nia.
      assert (Hhi : a < 2 ^ (53 + e)) by nia.
      left. split; [lia|].
      rewrite ofZ_normal by lia. unfold normal, norm_m, norm_e.
      replace (a <? 0) with false by (symmetry; apply Z.ltb_ge; lia).
      rewrite Z.abs_eq by lia.
      assert (El : Z.log2 a = 52 + e).
      { apply Z.log2_unique; [lia|].
        replace (Z.succ (52 + e)) with (53 + e) by lia. lia. }
      rewrite El. replace (52 - (52 + e)) with (- e) by lia.
      replace (52 + e - 52) with e by lia.
      f_equal. apply Pos2Z.inj. rewrite Z2Pos.id by nia. lia.
Qed.

(** Adding 1 to a number that is a non-negative integer gives such a
    number. *)
Lemma js_add_one_nonneg x z :
  valid_binary prec emax x = true -> int_value x = Some z -> 0 <= z ->
  (exists z', js_add x (ofZ 1) = ofZ z' /\ 0 < z' <= 2 ^ 53)
  \/ (exists m e, js_add x (ofZ 1) = S754_finite false m e /\ big m e).
Proof.
  intros Hv Hi Hz.
  destruct (nonneg_integer_cases x z Hv Hi Hz)
    as [[s ->] | [[Hr ->] | (m & e & -> & Hb)]].
  - left. exists 1. split; [destruct s; reflexivity | lia].
  - left. exists (z + 1). split; [apply js_add_one_next; lia | lia].
  - right. apply js_add_one_big. assumption.
Qed.

(** ** The text of a number from [2 ^ 53] on *)

Lemma append_assoc (a b c : string) : (a ++ b) ++ c = a ++ (b ++ c).
Proof. induction a as [|x a IH]; cbn [String.append]; [reflexivity | rewrite IH; reflexivity]. Qed.

Lemma length_append a b :
  String.length (a ++ b) = (String.length a + String.length b)%nat.
Proof. induction a as [|c a IH]; cbn [String.append String.length]; [reflexivity | rewrite IH; reflexivity]. Qed.

Lemma append_nil_r (a : string) : a ++ EmptyString = a.
Proof. induction a as [|x a IH]; cbn [String.append]; [reflexivity | rewrite IH; reflexivity]. Qed.

(** *** Decimal digits *)

Lemma string_of_revapp d : forall acc,
  NilEmpty.string_of_uint (Decimal.revapp d acc)
  = NilEmpty.string_of_uint (Decimal.rev d) ++ NilEmpty.string_of_uint acc.
Proof.
  unfold Decimal.rev.
  induction d; intros acc; cbn [Decimal.revapp]; [reflexivity | ..];
    rewrite IHd; symmetry; rewrite IHd; rewrite append_assoc; reflexivity.
Qed.

(** Ten times a number is written with one more [0]. *)
Lemma decimal_tenfold z : 0 < z -> decimal (10 * z) = decimal z ++ "0".
Proof.
  intros Hz. destruct z as [|p|p]; try lia.
  unfold decimal. change (Z.to_N (10 * Z.pos p)) with (10 * N.pos p)%N.
  change (Z.to_N (Z.pos p)) with (N.pos p).
  pose proof (DecimalPos.Unsigned.to_ldec_tenfold p) as H.
  destruct (10 * N.pos p)%N as [|q] eqn:E; [discriminate|].
  cbn [DecimalPos.Unsigned.to_lu] in H. cbn [N.to_uint].
  unfold Pos.to_uint, Decimal.rev. rewrite H. cbn [Decimal.revapp].
  rewrite string_of_revapp. reflexivity.
Qed.

Lemma decimal_pow10 z (t : nat) :
  0 < z -> decimal (z * 10 ^ Z.of_nat t) = decimal z ++ zeros t.
Proof.
  intros Hz. induction t as [|t IH].
  - cbn [zeros Z.of_nat]. rewrite Z.pow_0_r, Z.mul_1_r, append_nil_r. reflexivity.
  - rewrite Nat2Z.inj_succ, Z.pow_succ_r by lia.
    replace (z * (10 * 10 ^ Z.of_nat t)) with (10 * (z * 10 ^ Z.of_nat t)) by lia.
    assert (Hp : 0 < 10 ^ Z.of_nat t) by (apply Z.pow_pos_nonneg; lia).
    rewrite decimal_tenfold by nia. rewrite IH, append_assoc. f_equal.
    clear. induction t as [|t IH]; [reflexivity|].
    cbn [zeros String.append]. f_equal. exact IH.
Qed.

Lemma length_zeros t : String.length (zeros t) = t.
Proof. induction t as [|t IH]; cbn [zeros String.length]; [reflexivity | rewrite IH; reflexivity]. Qed.

(** *** Stripping zeros *)

Lemma strip_zeros_spec fuel : forall s,
  0 < s ->
  exists t : nat, s = strip_zeros fuel s * 10 ^ Z.of_nat t /\ 0 < strip_zeros fuel s.
Proof.
  induction fuel as [|f IH]; intros s Hs; cbn [strip_zeros].
  - exists 0%nat. cbn [Z.of_nat]. rewrite Z.pow_0_r. lia.
  - destruct (Z.eqb_spec (s mod 10) 0) as [Hm|Hm]; cbn [andb].
    + destruct (Z.ltb_spec 0 s); [|lia].
      pose proof (Z.div_mod s 10 ltac:(lia)) as Hd. rewrite Hm, Z.add_0_r in Hd.
      destruct (IH (s / 10) ltac:(lia)) as (t & Ht & Hpos).
      exists (S t). split; [|assumption].
      rewrite Nat2Z.inj_succ, Z.pow_succ_r by lia. lia.
    + exists 0%nat. cbn [Z.of_nat]. rewrite Z.pow_0_r. lia.
Qed.

(** *** The decimal exponent *)

Lemma find_n_spec fuel : forall num den n N,
  n <= N -> N - n < Z.of_nat fuel -> lt_pow10 num den N = true ->
  n <= find_n fuel num den n <= N
  /\ lt_pow10 num den (find_n fuel num den n) = true
  /\ (n < find_n fuel num den n ->
      lt_pow10 num den (find_n fuel num den n - 1) = false).
Proof.
  induction fuel as [|f IH]; intros num den n N Hle Hfuel HN; [cbn in Hfuel; lia|].
  cbn [find_n]. destruct (lt_pow10 num den n) eqn:E.
  - split; [lia|]. split; [assumption | lia].
  - assert (n <> N) by (intros ->; congruence).
    destruct (IH num den (n + 1) N ltac:(lia) ltac:(lia) HN) as (H1 & H2 & H3).
    split; [lia|]. split; [assumption|]. intros _.
    destruct (Z.eq_dec (find_n f num den (n + 1)) (n + 1)) as [Eq|Ne].
    + rewrite Eq. replace (n + 1 - 1) with n by lia. exact E.
    + apply H3. lia.
Qed.

Lemma number_eqb_refl_finite m e : number_eqb (S754_finite false m e) (S754_finite false m e) = true.
Proof. cbn [number_eqb Bool.eqb]. rewrite Pos.eqb_refl, Z.eqb_refl. reflexivity. Qed.

Lemma number_eqb_eq x y : number_eqb x y = true -> x = y.
Proof.
  destruct x as [a|a| |a m e], y as [b|b| |b m' e']; cbn [number_eqb]; try discriminate.
  - intros H. apply Bool.eqb_prop in H. congruence.
  - intros H. apply Bool.eqb_prop in H. congruence.
  - intros H. apply andb_true_iff in H. destruct H as [H He].
    apply andb_true_iff in H. destruct H as [Hs Hm].
    apply Bool.eqb_prop in Hs. apply Pos.eqb_eq in Hm. apply Z.eqb_eq in He.
    congruence.
Qed.

(** *** The search for the digits *)

(** A candidate is one of the two neighbours and denotes the number. *)
Lemma candidate_sound x num den n k c :
  candidate x num den n k = Some c ->
  dec_to_number false c (n - k) = x.
Proof.
  unfold candidate. cbv zeta.
  destruct (number_eqb (dec_to_number false
              (num * 10 ^ Z.max (- (n - k)) 0 / (den * 10 ^ Z.max (n - k) 0)) (n - k)) x) eqn:E1;
    destruct (number_eqb (dec_to_number false
              (num * 10 ^ Z.max (- (n - k)) 0 / (den * 10 ^ Z.max (n - k) 0) + 1) (n - k)) x) eqn:E2;
    try discriminate.
  - apply number_eqb_eq in E1. apply number_eqb_eq in E2.
    destruct (2 * _ ?= _); [destruct (Z.even _)|..]; intros H; injection H as <-; assumption.
  - apply number_eqb_eq in E1. intros H; injection H as <-; assumption.
  - apply number_eqb_eq in E2. intros H; injection H as <-; assumption.
Qed.

Lemma candidate_complete m e num den n k :
  (dec_to_number false (num * 10 ^ Z.max (- (n - k)) 0 / (den * 10 ^ Z.max (n - k) 0)) (n - k)
   = S754_finite false m e
   \/ dec_to_number false (num * 10 ^ Z.max (- (n - k)) 0 / (den * 10 ^ Z.max (n - k) 0) + 1) (n - k)
      = S754_finite false m e) ->
  candidate (S754_finite false m e) num den n k <> None.
Proof.
  intros H. unfold candidate. cbv zeta.
  destruct H as [H|H]; rewrite H, number_eqb_refl_finite.
  - destruct (number_eqb _ _); [|discriminate].
    destruct (2 * _ ?= _); discriminate.
  - destruct (number_eqb _ _); [|discriminate].
    destruct (2 * _ ?= _); discriminate.
Qed.

(** The search stops at the first length that has a candidate. *)
Lemma shortest_finds fuel : forall x num den n k k',
  k <= k' -> k' - k < Z.of_nat fuel -> candidate x num den n k' <> None ->
  exists s k1, shortest fuel x num den n k = (s, k1)
               /\ k <= k1 <= k' /\ candidate x num den n k1 = Some s.
Proof.
  induction fuel as [|f IH]; intros x num den n k k' Hle Hfuel Hc; [cbn in Hfuel; lia|].
  cbn [shortest]. destruct (candidate x num den n k) as [s|] eqn:E.
  - exists s, k. split; [reflexivity|]. split; [lia | assumption].
  - assert (k <> k') by (intros ->; congruence).
    destruct (IH x num den n (k + 1) k' ltac:(lia) ltac:(lia) Hc) as (s & k1 & H1 & H2 & H3).
    exists s, k1. split; [assumption|]. split; [lia | assumption].
Qed.

Lemma dec_to_number_integer c j :
  0 < c -> 0 <= j -> dec_to_number false c j = round_fraction false (c * 10 ^ j) 1.
Proof.
  intros Hc Hj. unfold dec_to_number.
  destruct (Z.eqb_spec c 0); [lia|].
  rewrite Z.max_l by lia. rewrite Z.max_r by lia. reflexivity.
Qed.

Lemma candidate_nonneg x num den n k c :
  0 <= num -> 0 < den -> candidate x num den n k = Some c -> 0 <= c.
Proof.
  intros Hn Hd. unfold candidate. cbv zeta.
  assert (Ha : 0 <= num * 10 ^ Z.max (- (n - k)) 0)
    by (apply Z.mul_nonneg_nonneg; [assumption | apply Z.pow_nonneg; lia]).
  assert (Hb : 0 < den * 10 ^ Z.max (n - k) 0)
    by (apply Z.mul_pos_pos; [assumption | apply Z.pow_pos_nonneg; lia]).
  pose proof (Z.div_pos _ _ Ha Hb) as Hlo.
  destruct (number_eqb _ _); destruct (number_eqb _ _); try discriminate;
    [destruct (2 * _ ?= _); [destruct (Z.even _)|..]|..];
    intros H; injection H as <-; lia.
Qed.

Lemma big_value m e : big m e -> 2 ^ 53 <= Z.pos m * 2 ^ e < 2 ^ 1024.
Proof.
  intros [Hm He].
  assert (H1 : 2 ^ 1 <= 2 ^ e) by (apply Z.pow_le_mono_r; lia).
  assert (H2 : 2 ^ e <= 2 ^ 971) by (apply Z.pow_le_mono_r; lia).
  change (2 ^ 1) with 2 in H1.
  change (2 ^ 1024) with (2 ^ 53 * 2 ^ 971).
  set (u := 2 ^ e) in *. set (v := 2 ^ 971) in *.
  assert (0 < v) by (unfold v; apply Z.pow_pos_nonneg; lia).
  split; nia.
Qed.

(** The digits found for an integer from [2 ^ 53] on: at most as many as
    the integer has, and they denote the number. *)
Lemma shortest_big m e :
  big m e ->
  exists n s k,
    find_n 700 (Z.pos m * 2 ^ e) 1 (-330) = n
    /\ shortest 17 (S754_finite false m e) (Z.pos m * 2 ^ e) 1 n 1 = (s, k)
    /\ 1 <= k <= n /\ 0 < s
    /\ round_fraction false (s * 10 ^ (n - k)) 1 = S754_finite false m e.
Proof.
  intros Hb. pose proof (big_value m e Hb) as [HXlo HXhi]. pose proof Hb as [Hm He].
  set (X := Z.pos m * 2 ^ e) in *.
  assert (H1024 : 2 ^ 1024 < 10 ^ 309) by (apply Z.ltb_lt; vm_compute; reflexivity).
  assert (H15 : 10 ^ 15 < 2 ^ 53) by (apply Z.ltb_lt; vm_compute; reflexivity).
  assert (H16 : 2 ^ 53 < 10 ^ 16) by (apply Z.ltb_lt; vm_compute; reflexivity).
  destruct (find_n_spec 700 X 1 (-330) 309) as (Hn1 & Hn2 & Hn3).
  { lia. }
  { cbn. lia. }
  { unfold lt_pow10. apply Z.ltb_lt.
    rewrite (Z.max_r _ 0), (Z.max_l 309 0) by lia. change (10 ^ 0) with 1. lia. }
  set (n := find_n 700 X 1 (-330)) in *.
  (* the exponent is that of the integer *)
  assert (Hn16 : 16 <= n).
  { destruct (Z_le_gt_dec 16 n); [assumption|exfalso].
    unfold lt_pow10 in Hn2. apply Z.ltb_lt in Hn2.
    assert (Hp1 : 1 <= 10 ^ Z.max (- n) 0).
    { pose proof (Z.pow_pos_nonneg 10 (Z.max (- n) 0)). lia. }
    assert (Hp2 : 10 ^ Z.max n 0 <= 10 ^ 15) by (apply Z.pow_le_mono_r; lia).
    nia. }
  assert (HXn : X < 10 ^ n).
  { unfold lt_pow10 in Hn2. apply Z.ltb_lt in Hn2.
    rewrite (Z.max_r (- n) 0), (Z.max_l n 0) in Hn2 by lia.
    change (10 ^ 0) with 1 in Hn2. lia. }
  assert (HnX : 10 ^ (n - 1) <= X).
  { specialize (Hn3 ltac:(lia)). unfold lt_pow10 in Hn3. apply Z.ltb_ge in Hn3.
    rewrite (Z.max_r (- (n - 1)) 0), (Z.max_l (n - 1) 0) in Hn3 by lia.
    change (10 ^ 0) with 1 in Hn3. lia. }
  (* a candidate exists with [min n 17] digits *)
  assert (Hex : candidate (S754_finite false m e) X 1 n (Z.min n 17) <> None).
  { apply candidate_complete.
    destruct (Z_le_gt_dec n 17) as [Hs|Hl].
    - left. rewrite Z.min_l by lia. replace (n - n) with 0 by lia.
      change (10 ^ Z.max (- 0) 0) with 1. change (10 ^ Z.max 0 0) with 1.
      rewrite !Z.mul_1_r, Z.div_1_r.
      rewrite dec_to_number_integer by lia. rewrite Z.pow_0_r, Z.mul_1_r.
      apply round_fraction_near; [assumption | unfold X | unfold X |].
      + pose proof (Z.pow_pos_nonneg 2 e). nia.
      + pose proof (Z.pow_pos_nonneg 2 e). nia.
      + intros _. unfold X. pose proof (Z.pow_pos_nonneg 2 e). nia.
    - rewrite Z.min_r by lia.
      rewrite (Z.max_r (- (n - 17)) 0), (Z.max_l (n - 17) 0) by lia.
      change (10 ^ 0) with 1. rewrite Z.mul_1_r, Z.mul_1_l.
      set (P := 10 ^ (n - 17)).
      assert (HP : 0 < P) by (unfold P; apply Z.pow_pos_nonneg; lia).
      assert (HPX : 10 ^ 16 * P <= X).
      { unfold P. rewrite <- Z.pow_add_r by lia.
        replace (16 + (n - 17)) with (n - 1) by lia. assumption. }
      pose proof (Z.div_mod X P ltac:(lia)) as Hdm.
      pose proof (Z.mod_pos_bound X P HP) as Hr.
      set (lo := X / P) in *. set (r := X mod P) in *.
      assert (Hlo : 10 ^ 16 <= lo) by nia.
      assert (Hpe : 0 < 2 ^ e) by (apply Z.pow_pos_nonneg; lia).
      assert (HP2 : P < 2 ^ e) by (unfold X in HPX; nia).
      destruct (Z_le_gt_dec (2 * r) P) as [Hhalf|Hhalf].
      + left. rewrite dec_to_number_integer by lia.
        apply round_fraction_near; [assumption | unfold X in *; nia | unfold X in *; nia|].
        intros Hedge. unfold X in *. rewrite Hedge in *. nia.
      + right. rewrite dec_to_number_integer by lia.
        apply round_fraction_near; [assumption | unfold X in *; nia | unfold X in *; nia|].
        intros Hedge. unfold X in *. rewrite Hedge in *. nia. }
  destruct (shortest_finds 17 (S754_finite false m e) X 1 n 1 (Z.min n 17))
    as (s & k & Hs & Hk & Hc); [lia | cbn; lia | exact Hex|].
  exists n, s, k. split; [reflexivity|]. split; [exact Hs|].
  pose proof (candidate_sound _ _ _ _ _ _ Hc) as Hsound.
  assert (Hs0 : 0 <= s)
    by (apply (candidate_nonneg (S754_finite false m e) X 1 n k s); [lia | lia | exact Hc]).
  assert (Hspos : 0 < s).
  { destruct (Z.eq_dec s 0) as [->|]; [discriminate Hsound | lia]. }
  split; [lia|]. split; [assumption|].
  rewrite <- Hsound. symmetry. apply dec_to_number_integer; lia.
Qed.

Lemma length_string_of_uint u :
  String.length (NilEmpty.string_of_uint u) = Decimal.nb_digits u.
Proof.
  induction u; cbn [NilEmpty.string_of_uint String.length Decimal.nb_digits];
    congruence.
Qed.

Ltac split_first_digit p E v :=
  eexists; exists v; eexists; split; [reflexivity|]; split; [reflexivity|];
  split; [lia|];
  rewrite uint_value_pos;
  pose proof (DecimalPos.Unsigned.of_to p) as Hp; rewrite E in Hp;
  cbn [Pos.of_uint] in Hp; injection Hp as ->; reflexivity.

(** The digits of a positive integer: a first digit that is not [0] and
    the digits after it. *)
Lemma decimal_split z :
  0 < z ->
  exists c d u, decimal z = String c (NilEmpty.string_of_uint u)
                /\ digit_of c = Some d /\ 0 < d /\ uint_value u d = z.
Proof.
  intros Hz. destruct z as [|p|p]; try lia.
  unfold decimal. cbn [Z.to_N N.to_uint].
  destruct (Pos.to_uint p) eqn:E; cbn [NilEmpty.string_of_uint].
  - exfalso. apply (DecimalPos.Unsigned.to_uint_nonnil p). exact E.
  - exfalso. apply (to_uint_head p _ E).
  - split_first_digit p E 1.
  - split_first_digit p E 2.
  - split_first_digit p E 3.
  - split_first_digit p E 4.
  - split_first_digit p E 5.
  - split_first_digit p E 6.
  - split_first_digit p E 7.
  - split_first_digit p E 8.
  - split_first_digit p E 9.
Qed.

Lemma uint_value_to_uint z : 0 <= z -> uint_value (N.to_uint (Z.to_N z)) 0 = z.
Proof.
  intros Hz. destruct z as [|p|p]; try lia; [reflexivity|].
  cbn [Z.to_N N.to_uint].
  pose proof (DecimalPos.Unsigned.of_to p) as Hp.
  destruct (Pos.to_uint p) eqn:E; cbn [uint_value].
  - exfalso. apply (DecimalPos.Unsigned.to_uint_nonnil p). exact E.
  - exfalso. apply (to_uint_head p _ E).
  - change (10 * 0 + 1) with 1. rewrite uint_value_pos. cbn [Pos.of_uint] in Hp. congruence.
  - change (10 * 0 + 2) with 2. rewrite uint_value_pos. cbn [Pos.of_uint] in Hp. congruence.
  - change (10 * 0 + 3) with 3. rewrite uint_value_pos. cbn [Pos.of_uint] in Hp. congruence.
  - change (10 * 0 + 4) with 4. rewrite uint_value_pos. cbn [Pos.of_uint] in Hp. congruence.
  - change (10 * 0 + 5) with 5. rewrite uint_value_pos. cbn [Pos.of_uint] in Hp. congruence.
  - change (10 * 0 + 6) with 6. rewrite uint_value_pos. cbn [Pos.of_uint] in Hp. congruence.
  - change (10 * 0 + 7) with 7. rewrite uint_value_pos. cbn [Pos.of_uint] in Hp. congruence.
  - change (10 * 0 + 8) with 8. rewrite uint_value_pos. cbn [Pos.of_uint] in Hp. congruence.
  - change (10 * 0 + 9) with 9. rewrite uint_value_pos. cbn [Pos.of_uint] in Hp. congruence.
Qed.

Lemma nb_digits_to_uint z : 0 <= z -> (0 < Decimal.nb_digits (N.to_uint (Z.to_N z)))%nat.
Proof.
  intros Hz. destruct z as [|p|p]; try lia; [cbn; lia|].
  cbn [Z.to_N N.to_uint].
  destruct (Pos.to_uint p) eqn:E; cbn [Decimal.nb_digits]; try lia.
  exfalso. apply (DecimalPos.Unsigned.to_uint_nonnil p). exact E.
Qed.

(** An exponent part is read back. *)
Lemma lex_exp_decimal z tl :
  0 <= z -> no_digit_ahead tl ->
  lex_exp (String "e" (String "+" (decimal z ++ tl))) = Some (z, tl).
Proof.
  intros Hz Htl. unfold lex_exp.
  change (code "e" =? 101) with true. cbn [orb].
  unfold decimal. rewrite lex_digits_uint by assumption.
  rewrite uint_value_to_uint by assumption.
  pose proof (nb_digits_to_uint z Hz) as Hn.
  destruct (Z.eqb_spec (0 + Z.of_nat (Decimal.nb_digits (N.to_uint (Z.to_N z)))) 0);
    [lia | reflexivity].
Qed.

Lemma substring_none s : substring 0 0 s = EmptyString.
Proof. destruct s; reflexivity. Qed.

Lemma substring_all s : substring 0 (String.length s) s = s.
Proof.
  induction s as [|c s IH]; cbn [String.length substring]; [reflexivity|].
  rewrite IH. reflexivity.
Qed.

Lemma parse_number_parts c r i s2 m nf s3 ex s4 :
  code c <> 45 ->
  lex_int (String c r) = Some (i, s2) ->
  lex_frac i s2 = Some (m, nf, s3) ->
  lex_exp s3 = Some (ex, s4) ->
  parse_number (String c r) = Some (dec_to_number false m (ex - nf), s4).
Proof.
  intros Hc Hi Hf He. unfold parse_number.
  destruct (Z.eqb_spec (code c) 45); [contradiction|].
  rewrite Hi, Hf, He. reflexivity.
Qed.

(** The digits [ds] of [s] laid out for a number [s * 10 ^ j] are read
    back as that integer. *)
Lemma parse_number_format s j tl :
  0 < s -> 0 <= j ->
  no_digit_ahead tl -> (forall m, lex_frac m tl = Some (m, 0, tl)) ->
  lex_exp tl = Some (0, tl) ->
  parse_number
    (format_digits (decimal s) (Z.of_nat (String.length (decimal s)) + j) ++ tl)
  = Some (round_fraction false (s * 10 ^ j) 1, tl)
  /\ exists c r,
       format_digits (decimal s) (Z.of_nat (String.length (decimal s)) + j) = String c r
       /\ 48 <= code c <= 57.
Proof.
  intros Hs Hj Htl Hfrac Hexp.
  set (k := Z.of_nat (String.length (decimal s))).
  assert (Hk : 0 <= k) by (unfold k; lia).
  unfold format_digits. cbv zeta. fold k.
  replace (k <=? k + j) with true by (symmetry; apply Z.leb_le; lia).
  cbn [andb].
  destruct (Z.leb_spec (k + j) 21) as [Hsmall|Hlarge].
  - (* all digits, then zeros *)
    replace (k + j - k) with j by lia.
    assert (Ez : decimal s ++ zeros (Z.to_nat j) = decimal (s * 10 ^ j))
      by (rewrite <- (Z2Nat.id j) at 2 by lia; rewrite decimal_pow10 by lia; reflexivity).
    rewrite Ez.
    assert (Hpos : 0 < s * 10 ^ j)
      by (apply Z.mul_pos_pos; [lia | apply Z.pow_pos_nonneg; lia]).
    split.
    + rewrite parse_number_decimal by (try apply Hfrac; try assumption; lia).
      rewrite dec_to_number_integer by lia.
      rewrite Z.pow_0_r, Z.mul_1_r. reflexivity.
    + apply decimal_head. lia.
  - (* one digit, the others as a fraction, and an exponent *)
    replace ((0 <? k + j) && false) with false by (destruct (0 <? k + j); reflexivity).
    replace ((-6 <? k + j) && (k + j <=? 0)) with false
      by (symmetry; apply andb_false_iff; right; apply Z.leb_gt; lia).
    replace (k + j - 1 <? 0) with false by (symmetry; apply Z.ltb_ge; lia).
    rewrite Z.abs_eq by lia.
    destruct (decimal_split s Hs) as (c & d & u & Ed & Hc & Hd & Hv).
    assert (Hcode : 48 <= code c <= 57).
    { unfold digit_of in Hc. cbv zeta in Hc.
      destruct ((48 <=? code c) && (code c <=? 57)) eqn:E; [|discriminate].
      apply andb_true_iff in E. destruct E as [E1 E2].
      apply Z.leb_le in E1. apply Z.leb_le in E2. lia. }
    assert (Ek : k = 1 + Z.of_nat (Decimal.nb_digits u)).
    { unfold k. rewrite Ed. cbn [String.length].
      rewrite length_string_of_uint. lia. }
    assert (Hint : forall r, no_digit_ahead r -> lex_int (String c r) = Some (d, r)).
    { intros r Hr. cbn [lex_int]. rewrite Hc.
      destruct d as [|q|q]; try lia.
      rewrite lex_digits_stop by assumption. reflexivity. }
    assert (Hminus : (code c =? 45) = false) by (apply Z.eqb_neq; lia).
    rewrite Ed.
    destruct (Z.eqb_spec k 1) as [Hone|Hmore].
    + (* a single digit *)
      assert (Eu : u = Decimal.Nil) by (apply nb_digits_0; lia).
      subst u. cbn [NilEmpty.string_of_uint String.append uint_value] in *.
      split; [|eexists; eexists; split; [reflexivity | exact Hcode]].
      transitivity (Some (dec_to_number false d (k + j - 1 - 0), tl));
        [|rewrite dec_to_number_integer by lia; rewrite Hv;
          replace (k + j - 1 - 0) with j by lia; reflexivity].
      cbn [String.append]. rewrite ?append_assoc. cbn [String.append].
      eapply parse_number_parts.
      * lia.
      * apply Hint. reflexivity.
      * reflexivity.
      * apply lex_exp_decimal; [lia | assumption].
    + (* several digits *)
      unfold str_take, str_drop. change (Z.to_nat 1) with 1%nat.
      cbn [substring String.length]. rewrite substring_none.
      replace (S (String.length (NilEmpty.string_of_uint u)) - 1)%nat
        with (String.length (NilEmpty.string_of_uint u)) by lia.
      rewrite substring_all.
      split; [|eexists; eexists; split; [reflexivity | exact Hcode]].
      transitivity (Some (dec_to_number false s
                            (k + j - 1 - (0 + Z.of_nat (Decimal.nb_digits u))), tl));
        [|rewrite dec_to_number_integer by lia;
          replace (k + j - 1 - (0 + Z.of_nat (Decimal.nb_digits u))) with j by lia;
          reflexivity].
      cbn [String.append]. rewrite ?append_assoc. cbn [String.append].
      eapply parse_number_parts.
      * lia.
      * apply Hint. reflexivity.
      * cbn [lex_frac].
        rewrite lex_digits_uint by reflexivity. rewrite Hv.
        destruct (Z.eqb_spec (0 + Z.of_nat (Decimal.nb_digits u)) 0); [lia|].
        reflexivity.
      * apply lex_exp_decimal; [lia | assumption].
Qed.

(** The text of an integer from [2 ^ 53] on starts with a digit and is
    read back as the same number. *)
Lemma Number_toString_big m e tl :
  big m e ->
  no_digit_ahead tl -> (forall i, lex_frac i tl = Some (i, 0, tl)) ->
  lex_exp tl = Some (0, tl) ->
  parse_number (Number_toString (S754_finite false m e) ++ tl)
  = Some (S754_finite false m e, tl)
  /\ exists c r, Number_toString (S754_finite false m e) = String c r
                 /\ (code c = 45 \/ 48 <= code c <= 57).
Proof.
  intros Hb Htl Hfrac Hexp.
  pose proof (big_value m e Hb) as [HXlo HXhi]. pose proof Hb as [Hm He].
  destruct (Z.eq_dec (Z.pos m * 2 ^ e) (2 ^ 53)) as [Etop|Hne].
  - (* [2 ^ 53] itself is printed digit by digit *)
    assert (H2 : 2 ^ 1 <= 2 ^ e) by (apply Z.pow_le_mono_r; lia).
    change (2 ^ 1) with 2 in H2.
    assert (Em : Z.pos m = 2 ^ 52) by nia.
    assert (Ee : e = 1).
    { destruct (Z.eq_dec e 1); [assumption|exfalso].
      assert (2 ^ 2 <= 2 ^ e) by (apply Z.pow_le_mono_r; lia).
      change (2 ^ 2) with 4 in *. nia. }
    subst e. assert (m = 4503599627370496%positive) by (apply Pos2Z.inj; exact Em).
    subst m. change (S754_finite false 4503599627370496 1) with (ofZ (2 ^ 53)).
    rewrite Number_toString_int by (split; lia).
    split; [apply parse_number_integer; try assumption; split; lia|].
    apply integer_text_head.
  - unfold Number_toString. cbn [String.append].
    assert (Hsafe : safe_integer m e = None).
    { unfold safe_integer, int_value.
      replace (0 <=? e) with true by (symmetry; apply Z.leb_le; lia).
      replace (Z.pos m * 2 ^ e <=? 2 ^ 53) with false
        by (symmetry; apply Z.leb_gt; lia).
      reflexivity. }
    rewrite Hsafe. unfold shortest_repr.
    rewrite (Z.max_l e 0), (Z.max_r (- e) 0) by lia.
    rewrite Z.pow_0_r.
    destruct (shortest_big m e Hb) as (n & s & k & Hn & Hsh & Hk & Hs & Hr).
    cbv zeta. rewrite Hn, Hsh.
    destruct (strip_zeros_spec 400 s Hs) as (t & Ht & Hs0).
    set (s0 := strip_zeros 400 s) in *. clearbody s0.
    assert (Hlen : Z.of_nat (String.length (decimal s))
                   = Z.of_nat (String.length (decimal s0)) + Z.of_nat t).
    { rewrite Ht. rewrite decimal_pow10 by assumption.
      rewrite length_append, length_zeros. lia. }
    assert (Eval : s0 * 10 ^ (Z.of_nat t + (n - k)) = s * 10 ^ (n - k)).
    { rewrite Z.pow_add_r by lia. rewrite Z.mul_assoc, <- Ht. reflexivity. }
    rewrite Hlen.
    replace (n + (Z.of_nat (String.length (decimal s0)) + Z.of_nat t - k))
      with (Z.of_nat (String.length (decimal s0)) + (Z.of_nat t + (n - k))) by lia.
    destruct (parse_number_format s0 (Z.of_nat t + (n - k)) tl)
      as [Hp (c & r & Hc & Hd)]; try assumption; try lia.
    split.
    + rewrite Hp, Eval, Hr. reflexivity.
    + exists c, r. split; [exact Hc | right; exact Hd].
Qed.

(** The data file written for a number that is finite, in terms of the
    text of the number. *)
Lemma JSON_stringify_count_text x :
  is_finite x = true ->
  JSON_stringify (count_obj x) 2
  = "{" ++ nl ++ "  " ++ quoted "count" ++ ": " ++ Number_toString x ++ nl ++ "}".
Proof.
  intros Hf. unfold JSON_stringify, count_obj.
  cbn [serialize map fst snd spaces String.eqb Ascii.eqb Bool.eqb].
  rewrite Hf. reflexivity.
Qed.

(** Such a data file parses to the object with the number the text of
    the count is read as. *)
Lemma JSON_parse_count_text t x :
  (exists c r, t = String c r /\ (code c = 45 \/ 48 <= code c <= 57)) ->
  parse_number (t ++ nl ++ "}") = Some (x, nl ++ "}") ->
  JSON_parse ("{" ++ nl ++ "  " ++ quoted "count" ++ ": " ++ t ++ nl ++ "}")
  = Some (count_obj x).
Proof.
  intros (c & r & Ed & Hc) Hn. unfold JSON_parse.
  set (file := "{" ++ nl ++ "  " ++ quoted "count" ++ ": " ++ t ++ nl ++ "}").
  assert (Hfuel : exists k, (2 * String.length file + 2 = S (S (S k)))%nat).
  { exists (2 * String.length file - 1)%nat.
    assert (1 <= String.length file)%nat
      by (unfold file; cbn [String.append String.length]; lia).
    lia. }
  destruct Hfuel as [k ->].
  rewrite Ed in Hn. cbn [String.append] in Hn.
  pose proof (parse_value_number k c _ _ _ Hc Hn) as Hv.
  unfold file. rewrite Ed.
  cbn - [parse_value]. cbn [parse_value]. cbn - [parse_value parse_members].
  cbn [parse_members]. cbn - [parse_value].
  rewrite parse_value_ws by reflexivity.
  change (String lf "}") with (nl ++ "}"). rewrite Hv. reflexivity.
Qed.

(** The data file written for an integer from [2 ^ 53] on holds that
    number. *)
Lemma count_file_big m e :
  big m e ->
  JSON_parse (JSON_stringify (count_obj (S754_finite false m e)) 2)
  = Some (count_obj (S754_finite false m e)).
Proof.
  intros Hb. rewrite JSON_stringify_count_text by reflexivity.
  destruct (Number_toString_big m e (nl ++ "}") Hb eq_refl (fun i => eq_refl) eq_refl)
    as [Hp Hh].
  apply JSON_parse_count_text; assumption.
Qed.

(** *** Every number read is a number of the format *)

Lemma digit_of_nonneg c d : digit_of c = Some d -> 0 <= d.
Proof.
  unfold digit_of. cbv zeta.
  destruct ((48 <=? code c) && (code c <=? 57)) eqn:E; [|discriminate].
  apply andb_true_iff in E. destruct E as [E _]. apply Z.leb_le in E.
  intros H. injection H as <-. lia.
Qed.

Lemma lex_digits_nonneg s : forall acc cnt v c r,
  0 <= acc -> lex_digits s acc cnt = (v, c, r) -> 0 <= v.
Proof.
  induction s as [|a s IH]; intros acc cnt v c r Hacc; cbn [lex_digits].
  - intros H. injection H as <- _ _. assumption.
  - destruct (digit_of a) as [d|] eqn:E.
    + apply IH. pose proof (digit_of_nonneg a d E). lia.
    + intros H. injection H as <- _ _. assumption.
Qed.

Lemma lex_int_nonneg s v r : lex_int s = Some (v, r) -> 0 <= v.
Proof.
  destruct s as [|c s]; cbn [lex_int]; [discriminate|].
  destruct (digit_of c) as [d|] eqn:E; [|discriminate].
  pose proof (digit_of_nonneg c d E) as Hd.
  destruct d as [|p|p]; try lia.
  - intros H. injection H as <- _. lia.
  - destruct (lex_digits s (Z.pos p) 1) as [[v' c'] r'] eqn:El.
    intros H. injection H as <- _. apply (lex_digits_nonneg _ _ _ _ _ _ Hd El).
Qed.

Lemma lex_frac_nonneg m s v c r : 0 <= m -> lex_frac m s = Some (v, c, r) -> 0 <= v.
Proof.
  intros Hm. unfold lex_frac.
  assert (Hsame : Some (m, 0, s) = Some (v, c, r) -> 0 <= v)
    by (intros H; injection H as <- _ _; assumption).
  destruct s as [|a s]; [exact Hsame|].
  destruct (Ascii.eqb_spec a ".") as [->|Hne].
  - destruct (lex_digits s m 0) as [[v' c'] r'] eqn:El.
    destruct (c' =? 0); [discriminate|].
    intros H. injection H as <- _ _. apply (lex_digits_nonneg _ _ _ _ _ _ Hm El).
  - destruct a as [[] [] [] [] [] [] [] []]; try exact Hsame. contradiction.
Qed.

Lemma parse_number_valid s x tl :
  parse_number s = Some (x, tl) -> valid_binary prec emax x = true.
Proof.
  unfold parse_number.
  destruct (match s with
            | EmptyString => (false, s)
            | String c r => if code c =? 45 then (true, r) else (false, s)
            end) as [neg s1].
  destruct (lex_int s1) as [[i s2]|] eqn:Ei; [|discriminate].
  destruct (lex_frac i s2) as [[[m nf] s3]|] eqn:Ef; [|discriminate].
  destruct (lex_exp s3) as [[e s4]|]; [|discriminate].
  intros H. injection H as <- _. apply dec_to_number_valid.
  apply (lex_frac_nonneg i s2 m nf s3); [|exact Ef].
  apply (lex_int_nonneg s1 i s2 Ei).
Qed.

Lemma parse_value_number_valid f s x tl :
  parse_value f s = Some (JNum x, tl) -> valid_binary prec emax x = true.
Proof.
  destruct f as [|f]; [discriminate|]. rewrite parse_value_S.
  destruct (skip_ws s) as [|c r]; [discriminate|].
  destruct (code c =? 34).
  { destruct (parse_string r) as [[? ?]|]; discriminate. }
  destruct (code c =? 91).
  { destruct (starts_with "]" (skip_ws r)); [discriminate|].
    destruct (parse_elements f r) as [[? ?]|]; discriminate. }
  destruct (code c =? 123).
  { destruct (starts_with "}" (skip_ws r)); [discriminate|].
    destruct (parse_members f r) as [[? ?]|]; discriminate. }
  destruct (code c =? 110).
  { destruct (expect "null" (String c r)); discriminate. }
  destruct (code c =? 116).
  { destruct (expect "true" (String c r)); discriminate. }
  destruct (code c =? 102).
  { destruct (expect "false" (String c r)); discriminate. }
  destruct (parse_number (String c r)) as [[y tl']|] eqn:E; [|discriminate].
  intros H. injection H as <- _. apply (parse_number_valid _ _ _ E).
Qed.

Lemma parse_members_valid f : forall s l tl,
  parse_members f s = Some (l, tl) ->
  forall k x, In (k, JNum x) l -> valid_binary prec emax x = true.
Proof.
  induction f as [|f IH]; intros s l tl; [discriminate|].
  rewrite parse_members_S.
  destruct (starts_with dq (skip_ws s)) as [r|]; [|discriminate].
  destruct (parse_string r) as [[k0 tl0]|]; [|discriminate].
  destruct (starts_with ":" (skip_ws tl0)) as [tl1|]; [|discriminate].
  destruct (parse_value f tl1) as [[v tl2]|] eqn:Ev; [|discriminate].
  destruct (starts_with "," (skip_ws tl2)) as [tl3|].
  - destruct (parse_members f tl3) as [[l' tl4]|] eqn:Em; [|discriminate].
    intros H. injection H as <- _. intros k x [Hin|Hin].
    + injection Hin as _ ->. apply (parse_value_number_valid _ _ _ _ Ev).
    + apply (IH _ _ _ Em k x Hin).
  - destruct (starts_with "}" (skip_ws tl2)); [|discriminate].
    intros H. injection H as <- _. intros k x [Hin|[]].
    injection Hin as _ ->. apply (parse_value_number_valid _ _ _ _ Ev).
Qed.

Lemma own_property_in k l v : own_property k l = Some v -> exists k', In (k', v) l.
Proof.
  induction l as [|[k1 v1] l IH]; cbn [own_property]; [discriminate|].
  destruct (own_property k l) as [v'|].
  - intros H. injection H as ->. destruct (IH eq_refl) as [k' Hin].
    exists k'. right. exact Hin.
  - destruct (String.eqb k1 k); [|discriminate].
    intros H. injection H as ->. exists k1. left. reflexivity.
Qed.

(** The count a data file holds is a number of the format. *)
Lemma holds_count_valid f x : holds_count f x -> valid_binary prec emax x = true.
Proof.
  intros (raw & l & _ & Hp & Ho). unfold JSON_parse in Hp.
  destruct (parse_value (2 * String.length raw + 2) raw) as [[v tl]|] eqn:Ev;
    [|discriminate].
  assert (Hv : v = JObj l) by (destruct (skip_ws tl); [congruence | discriminate]).
  subst v. clear Hp.
  destruct (own_property_in _ _ _ Ho) as [k Hin].
  destruct (2 * String.length raw + 2)%nat as [|fu]; [discriminate|].
  rewrite parse_value_S in Ev.
  destruct (skip_ws raw) as [|c r]; [discriminate|].
  destruct (code c =? 34).
  { destruct (parse_string r) as [[? ?]|]; discriminate. }
  destruct (code c =? 91).
  { destruct (starts_with "]" (skip_ws r)); [discriminate|].
    destruct (parse_elements fu r) as [[? ?]|]; discriminate. }
  destruct (code c =? 123).
  { destruct (starts_with "}" (skip_ws r)).
    - injection Ev as <- _. destruct Hin.
    - destruct (parse_members fu r) as [[l' tl']|] eqn:Em; [|discriminate].
      injection Ev as <- _. apply (parse_members_valid _ _ _ _ Em k x Hin). }
  destruct (code c =? 110).
  { destruct (expect "null" (String c r)); discriminate. }
  destruct (code c =? 116).
  { destruct (expect "true" (String c r)); discriminate. }
  destruct (code c =? 102).
  { destruct (expect "false" (String c r)); discriminate. }
  destruct (parse_number (String c r)) as [[y tl']|]; discriminate.
Qed.

(** ** The counter store *)

Lemma readCount_quiet e f : read_fails e = false -> readCount e f = readCount quiet f.
Proof. intros H. unfold readCount, readFile. rewrite H. reflexivity. Qed.

Lemma readCount_read_fails e f : read_fails e = true -> readCount e f = ofZ 0.
Proof. intros H. unfold readCount, readFile. rewrite H. reflexivity. Qed.

Lemma JSON_parse_empty : JSON_parse EmptyString = None.
Proof. reflexivity. Qed.

(** A file that holds a count is read as that count. *)
Lemma readCount_holds e f x :
  holds_count f x -> read_fails e = false -> readCount e f = x.
Proof.
  intros (raw & l & -> & Hp & Ho) He.
  unfold readCount, readFile. rewrite He.
  destruct (String.eqb_spec raw EmptyString) as [->|_].
  - rewrite JSON_parse_empty in Hp. discriminate.
  - rewrite Hp. cbn [prop_count]. rewrite Ho. reflexivity.
Qed.

Lemma count_file_holds z : safe z -> holds_count (Some (count_file z)) (ofZ z).
Proof.
  intros Hz. exists (count_file z), [("count", JNum (ofZ z))].
  split; [reflexivity|]. split; [|reflexivity].
  apply JSON_parse_count_file. assumption.
Qed.

Lemma bounded_file_invariant f : bounded_invariant f -> file_invariant f.
Proof.
  intros (z & H & Hz & Hle). exists (ofZ z), z.
  split; [assumption|]. split; [apply int_value_ofZ; split; lia | assumption].
Qed.

Lemma readCount_count_file e z :
  safe z -> read_fails e = false -> readCount e (Some (count_file z)) = ofZ z.
Proof.
  intros Hz He. apply readCount_holds; [apply count_file_holds|]; assumption.
Qed.

Lemma writeCount_ok e n f :
  write e = WriteOk ->
  writeCount e n f = (Returned tt, Some (JSON_stringify (count_obj n) 2)).
Proof. intros H. unfold writeCount, writeFile. rewrite H. reflexivity. Qed.

Lemma writeCount_fails e n f :
  write e <> WriteOk -> exists f', writeCount e n f = (Thrown, f').
Proof.
  intros H. unfold writeCount, writeFile.
  destruct (write e); [congruence | eexists; reflexivity | eexists; reflexivity].
Qed.

(** ** The routes *)

Lemma path_is_true p lit : path_is p lit = true <-> p = Some lit.
Proof.
  unfold path_is. destruct p as [s|].
  - rewrite String.eqb_eq. split; congruence.
  - split; discriminate.
Qed.

(** What the handler does with a request for the increment route. *)
Lemma server_increment e req f :
  is_increment req ->
  server e req f =
    let n := js_add (readCount e f) (ofZ 1) in
    match writeCount e n f with
    | (Returned _, f') =>
        (end_ (JSON_stringify (count_obj n) 0)
           (writeHead 200 json_type (cors new_response)), f')
    | (Thrown, f') =>
        (end_ (JSON_stringify (error_obj "Server error") 0)
           (writeHead 500 json_type (cors new_response)), f')
    end.
Proof.
  intros [Hp Hm]. unfold server, routes. rewrite Hp, Hm.
  cbn [path_is String.eqb Ascii.eqb Bool.eqb andb].
  cbv zeta. destruct (writeCount e _ f) as [[u|] f']; reflexivity.
Qed.

Lemma server_get_count e req f :
  is_get_count req ->
  server e req f =
    (end_ (JSON_stringify (count_obj (readCount e f)) 0)
       (writeHead 200 json_type (cors new_response)), f).
Proof.
  intros [Hp Hm]. unfold server, routes. rewrite Hp, Hm. reflexivity.
Qed.

(** Increment without write failure on any number read. *)
Lemma increment_general e req f :
  is_increment req -> write e = WriteOk ->
  server e req f =
    (end_ (JSON_stringify (count_obj (js_add (readCount e f) (ofZ 1))) 0)
       (writeHead 200 json_type (cors new_response)),
     Some (JSON_stringify (count_obj (js_add (readCount e f) (ofZ 1))) 2)).
Proof.
  intros Hreq Hw. rewrite server_increment by assumption.
  cbv zeta. rewrite writeCount_ok by assumption. reflexivity.
Qed.

(** The same for a value read that is an integer the successor of which
    is a number. *)
Lemma increment_exact e req f z :
  is_increment req -> write e = WriteOk ->
  readCount e f = ofZ z -> - 2 ^ 53 <= z -> z < 2 ^ 53 ->
  js_add (readCount e f) (ofZ 1) = ofZ (z + 1)
  /\ body (fst (server e req f)) = count_body (z + 1)
  /\ snd (server e req f) = Some (count_file (z + 1))
  /\ persisted_count (snd (server e req f)) = ofZ (z + 1).
Proof.
  intros Hreq Hw Hr Hz Hlt.
  assert (Hs : safe (z + 1)) by (split; lia).
  rewrite increment_general by assumption.
  rewrite Hr, js_add_one_next by assumption.
  cbn [fst snd]. rewrite JSON_stringify_count_body, JSON_stringify_count_file by assumption.
  repeat split.
  unfold persisted_count. apply readCount_count_file; [assumption | reflexivity].
Qed.

(** C1 (as amended): when its write does not fail, an increment request
    reads the counter value [N], persists the number [N + 1] of the
    program's arithmetic (the data file becomes the indented object with
    that count) and is answered with status 200 and the object with that
    count as body.  When [N] is an integer with [-2^53 <= N < 2^53] that
    number is [N + 1] exactly: the body is [{"count":N+1}] and the data
    file is read back as [N + 1]. *)
Theorem increment_persists_successor e req f :
  is_increment req -> write e = WriteOk ->
  statusCode (fst (server e req f)) = 200
  /\ body (fst (server e req f))
     = JSON_stringify (count_obj (js_add (readCount e f) (ofZ 1))) 0
  /\ snd (server e req f)
     = Some (JSON_stringify (count_obj (js_add (readCount e f) (ofZ 1))) 2)
  /\ (forall z, readCount e f = ofZ z -> - 2 ^ 53 <= z -> z < 2 ^ 53 ->
        js_add (readCount e f) (ofZ 1) = ofZ (z + 1)
        /\ body (fst (server e req f)) = count_body (z + 1)
        /\ snd (server e req f) = Some (count_file (z + 1))
        /\ persisted_count (snd (server e req f)) = ofZ (z + 1)).
Proof.
  intros Hreq Hw. split; [|split; [|split]].
  - rewrite increment_general by assumption. reflexivity.
  - rewrite increment_general by assumption. reflexivity.
  - rewrite increment_general by assumption. reflexivity.
  - intros z Hr Hz Hlt. apply increment_exact; assumption.
Qed.

(** C2 (as amended): [N] increment requests handled one after the other,
    none with a failing read or write, from a persisted count that is an
    integer [c] with [-2^53 <= c] and [c + N <= 2^53], leave the persisted
    count [c + N]. *)
Theorem increments_add (l : list (io * request)) : forall f z,
  Forall clean l ->
  persisted_count f = ofZ z -> - 2 ^ 53 <= z -> z + Z.of_nat (length l) <= 2 ^ 53 ->
  persisted_count (serve l f) = ofZ (z + Z.of_nat (length l))
  /\ int_value (persisted_count (serve l f)) = Some (z + Z.of_nat (length l)).
Proof.
  induction l as [|[e req] l IH]; intros f z Hall Hc Hz Hle.
  - cbn [serve length Z.of_nat]. rewrite Z.add_0_r, Hc.
    split; [reflexivity | apply int_value_ofZ; cbn in Hle; split; lia].
  - inversion Hall as [|? ? [Hreq [Hrd Hw]] Hrest]; subst.
    cbn [fst snd] in Hreq, Hrd, Hw.
    cbn [length] in *. rewrite Nat2Z.inj_succ in *.
    assert (Hread : readCount e f = ofZ z)
      by (rewrite readCount_quiet by assumption; exact Hc).
    destruct (increment_exact e req f z Hreq Hw Hread Hz ltac:(lia))
      as (_ & _ & _ & Hnext).
    cbn [serve].
    destruct (IH (snd (server e req f)) (z + 1) Hrest Hnext ltac:(lia) ltac:(lia))
      as [H1 H2].
    replace (z + Z.succ (Z.of_nat (length l))) with (z + 1 + Z.of_nat (length l)) by lia.
    split; assumption.
Qed.

Lemma count_body_zero : JSON_stringify (count_obj (ofZ 0)) 0 = count_body 0.
Proof. reflexivity. Qed.

Lemma readCount_unusable e f : unusable f -> readCount e f = ofZ 0.
Proof.
  intros H. unfold readCount, readFile.
  destruct (read_fails e); [reflexivity|].
  destruct H as [->|(raw & -> & H)]; [reflexivity|].
  destruct (String.eqb_spec raw EmptyString) as [->|_]; [reflexivity|].
  destruct H as [->|(v & -> & Hv)]; [reflexivity|].
  destruct (prop_count v) as [[[ | | x | | | ]|]|] eqn:E; try reflexivity.
  exfalso. apply (Hv x). exact E.
Qed.

(** C3: the read returns 0 when the data file is missing, is not valid
    JSON, or parses to a value without a numeric [count]; in each of these
    states [GET /api/count] is answered with status 200 and body
    [{"count":0}]. *)
Theorem read_tolerates_unusable_file e req f :
  unusable f ->
  readCount e f = ofZ 0
  /\ (is_get_count req ->
      statusCode (fst (server e req f)) = 200
      /\ body (fst (server e req f)) = count_body 0).
Proof.
  intros H. pose proof (readCount_unusable e f H) as Hr.
  split; [assumption|]. intros Hreq.
  rewrite server_get_count by assumption. rewrite Hr. split; reflexivity.
Qed.

(** ** The invariant of the data file *)

(** Only the increment route touches the data file. *)
Lemma server_frame e req f : is_increment req \/ snd (server e req f) = f.
Proof.
  unfold server, routes.
  destruct (String.eqb (method req) "OPTIONS"); [right; reflexivity|].
  destruct (path_is (pathname_of (url req)) "/" && String.eqb (method req) "GET");
    [right; reflexivity|].
  destruct (path_is (pathname_of (url req)) "/api/count"
            && String.eqb (method req) "GET"); [right; reflexivity|].
  destruct (path_is (pathname_of (url req)) "/api/increment"
            && String.eqb (method req) "POST") eqn:E; [left|right; reflexivity].
  apply andb_true_iff in E. destruct E as [Hp Hm].
  split; [apply path_is_true; assumption | apply String.eqb_eq; assumption].
Qed.

Lemma count_file_bounded z :
  0 <= z -> z <= 2 ^ 53 -> bounded_invariant (Some (count_file z)).
Proof.
  intros Hz Hle. exists z. split; [apply count_file_holds; split; lia | lia].
Qed.

Lemma big_file_invariant m e :
  big m e ->
  file_invariant (Some (JSON_stringify (count_obj (S754_finite false m e)) 2)).
Proof.
  intros Hb. exists (S754_finite false m e), (Z.pos m * 2 ^ e).
  split; [|split].
  - exists (JSON_stringify (count_obj (S754_finite false m e)) 2),
      [("count", JNum (S754_finite false m e))].
    split; [reflexivity|]. split; [apply count_file_big; assumption | reflexivity].
  - destruct Hb as [_ He]. unfold int_value.
    replace (0 <=? e) with true by (symmetry; apply Z.leb_le; lia).
    reflexivity.
  - pose proof (big_value m e Hb). lia.
Qed.

(** A request leaves a data file that holds a non-negative integer count
    a data file of that kind, when its write is not cut short. *)
Lemma step_keeps_invariant e req f :
  file_invariant f -> atomic e -> file_invariant (snd (server e req f)).
Proof.
  intros Hinv Hat.
  destruct (server_frame e req f) as [Hreq | ->]; [|assumption].
  rewrite server_increment by assumption. cbv zeta.
  unfold writeCount, writeFile.
  destruct (write e) eqn:Hw; cbn [snd]; [ | assumption | exfalso; exact (Hat n Hw)].
  assert (Hn : (exists z', js_add (readCount e f) (ofZ 1) = ofZ z' /\ 0 < z' <= 2 ^ 53)
               \/ (exists m e', js_add (readCount e f) (ofZ 1) = S754_finite false m e'
                                /\ big m e')).
  { destruct (read_fails e) eqn:Hr.
    - left. exists 1. rewrite readCount_read_fails by assumption.
      split; [reflexivity | lia].
    - destruct Hinv as (x & z & Hh & Hi & Hz).
      rewrite (readCount_holds e f x Hh Hr).
      apply (js_add_one_nonneg x z); [|assumption|assumption].
      apply (holds_count_valid f). assumption. }
  destruct Hn as [(z' & -> & Hz') | (m & e' & -> & Hb)].
  - rewrite JSON_stringify_count_file by (split; lia).
    apply bounded_file_invariant, count_file_bounded; lia.
  - apply big_file_invariant. assumption.
Qed.

Lemma start_establishes e f0 f :
  fresh_or_sound f0 -> ensureDataFile e f0 = (Returned tt, f) -> file_invariant f.
Proof.
  intros [-> | Hb] Hs.
  - unfold ensureDataFile, access, writeFile in Hs.
    rewrite (JSON_stringify_count_file 0) in Hs by (split; lia).
    destruct (write e); inversion Hs.
    apply bounded_file_invariant, count_file_bounded; lia.
  - destruct Hb as (x & z & (raw & l & -> & Hp) & Hz). cbn in Hs. inversion Hs; subst.
    exists x, z. split; [exists raw, l; split; [reflexivity | assumption] | assumption].
Qed.

Lemma overwrite_empty data : overwrite data EmptyString = data.
Proof.
  unfold overwrite. cbn [String.length Nat.sub].
  replace (substring (String.length data) 0 EmptyString) with EmptyString
    by (destruct (String.length data); reflexivity).
  apply append_nil_r.
Qed.

(** An increment request that takes all its steps before another
    arrives does to the data file what the handler does as a whole. *)
Lemma whole_request_is_step e req f :
  is_increment req ->
  run (whole_request e) (at_rest f) = at_rest (snd (server e req f)).
Proof.
  intros Hreq. rewrite server_increment by assumption. cbv zeta.
  unfold whole_request, at_rest, writeCount, writeFile.
  cbn [run step in_progress data_file app nth_error advance firstn skipn].
  destruct (write e) eqn:Hw;
    cbn [run step in_progress data_file app nth_error advance firstn skipn snd];
    rewrite ?Hw; cbv zeta; rewrite ?overwrite_empty; reflexivity.
Qed.

(** C4 (as amended): when the service starts with no data file, or with
    one that holds a valid JSON object whose [count] is a number that is a
    non-negative integer, when no write is cut short, and when the
    requests are handled one at a time (each one taking all its steps
    before the next arrives, which is one step of [server]), then after
    the startup and after every request the data file holds a valid JSON
    object whose [count] is a number that is a non-negative integer, and
    every further request (read or increment) leaves a data file of that
    kind. *)
Theorem invariant_of_reachable_states f :
  reachable fresh_or_sound atomic f ->
  file_invariant f
  /\ (forall e req, atomic e -> file_invariant (snd (server e req f)))
  /\ (forall e req, is_increment req ->
        run (whole_request e) (at_rest f) = at_rest (snd (server e req f))).
Proof.
  intros H.
  assert (Hb : file_invariant f).
  { induction H as [e f0 f Hi _ Hs | e req f _ IH Hok].
    - exact (start_establishes e f0 f Hi Hs).
    - apply step_keeps_invariant; assumption. }
  split; [assumption|]. split.
  - intros e req Hat. apply step_keeps_invariant; assumption.
  - intros e req Hreq. apply whole_request_is_step. assumption.
Qed.

(** ** Startup *)

(** C5: starting with no data file creates it (a startup whose write
    does not fail succeeds, and a startup that succeeds leaves the file
    holding the object with count 0), and [GET /api/count] is then answered
    with status 200 and body [{"count":0}]. *)
Theorem fresh_start_creates_file e :
  (write e = WriteOk ->
   ensureDataFile e None = (Returned tt, Some (count_file 0)))
  /\ (forall f', ensureDataFile e None = (Returned tt, f') ->
       f' = Some (count_file 0)
       /\ (forall e' req, is_get_count req ->
             statusCode (fst (server e' req f')) = 200
             /\ body (fst (server e' req f')) = count_body 0
             /\ snd (server e' req f') = f')).
Proof.
  split.
  - intros Hw. unfold ensureDataFile, access, writeFile.
    rewrite (JSON_stringify_count_file 0), Hw by (split; lia). reflexivity.
  - intros f' Hs. unfold ensureDataFile, access, writeFile in Hs.
    rewrite (JSON_stringify_count_file 0) in Hs by (split; lia).
    destruct (write e); inversion Hs. split; [reflexivity|].
    intros e' req Hreq. rewrite server_get_count by assumption. cbn [fst snd].
    assert (Hr : readCount e' (Some (count_file 0)) = ofZ 0).
    { destruct (read_fails e') eqn:E.
      - apply readCount_read_fails; assumption.
      - apply readCount_count_file; [split; lia | assumption]. }
    rewrite Hr. repeat split.
Qed.

(** ** Routing and errors *)

(** What the handler does with a request that is not [OPTIONS] and is
    none of the three routes. *)
Lemma server_not_found e req f :
  method req <> "OPTIONS" ->
  ~ (pathname_of (url req) = Some "/" /\ method req = "GET") ->
  ~ is_get_count req ->
  ~ is_increment req ->
  server e req f
  = (end_ (error_body "Not found") (writeHead 404 json_type (cors new_response)), f).
Proof.
  intros Ho Hroot Hget Hinc. unfold server, routes.
  destruct (String.eqb_spec (method req) "OPTIONS") as [E|_]; [contradiction|].
  destruct (path_is (pathname_of (url req)) "/" && String.eqb (method req) "GET") eqn:E1.
  { exfalso. apply Hroot. apply andb_true_iff in E1. destruct E1.
    split; [apply path_is_true | apply String.eqb_eq]; assumption. }
  destruct (path_is (pathname_of (url req)) "/api/count"
            && String.eqb (method req) "GET") eqn:E2.
  { exfalso. apply Hget. apply andb_true_iff in E2. destruct E2.
    split; [apply path_is_true | apply String.eqb_eq]; assumption. }
  destruct (path_is (pathname_of (url req)) "/api/increment"
            && String.eqb (method req) "POST") eqn:E3.
  { exfalso. apply Hinc. apply andb_true_iff in E3. destruct E3.
    split; [apply path_is_true | apply String.eqb_eq]; assumption. }
  reflexivity.
Qed.

(** C6 (as amended): a request for whose target [url.parse] returns,
    that is not [OPTIONS] and is none of [GET /], [GET /api/count] and
    [POST /api/increment], is answered with status 404 and the JSON
    content type; the body is [{"error":"Not found"}], except that no
    body is sent in answer to [HEAD].  The data file is not touched. *)
Theorem unknown_route_not_found e req f :
  url_throws (url req) = false ->
  method req <> "OPTIONS" ->
  ~ (pathname_of (url req) = Some "/" /\ method req = "GET") ->
  ~ is_get_count req ->
  ~ is_increment req ->
  exists res,
    exchange e req f = (Answered res, f)
    /\ statusCode res = 404
    /\ getHeader "Content-Type" (headers res) = Some "application/json"
    /\ (method req <> "HEAD" -> body res = error_body "Not found")
    /\ (method req = "HEAD" -> body res = EmptyString).
Proof.
  intros Hu Ho Hroot Hget Hinc. unfold exchange.
  rewrite Hu, server_not_found by assumption. cbn [fst snd].
  eexists. split; [reflexivity|].
  unfold on_the_wire.
  destruct (String.eqb_spec (method req) "HEAD") as [E|E].
  - repeat split. intros H. contradiction.
  - repeat split. intros H. contradiction.
Qed.

(** C7: when the write of an increment request fails the response has
    status 500 and body [{"error":"Server error"}]; a failing read is
    read as count 0 and is never answered with that error: a response with
    status 500 comes from a failed write of an increment request only. *)
Theorem write_failure_is_server_error e req f :
  (is_increment req -> write e <> WriteOk ->
     statusCode (fst (server e req f)) = 500
     /\ body (fst (server e req f)) = error_body "Server error")
  /\ (readFile e f = Thrown -> readCount e f = ofZ 0)
  /\ (statusCode (fst (server e req f)) = 500 ->
      is_increment req /\ write e <> WriteOk).
Proof.
  split; [|split].
  - intros Hreq Hw. rewrite server_increment by assumption. cbv zeta.
    destruct (writeCount_fails e (js_add (readCount e f) (ofZ 1)) f Hw) as [f' ->].
    split; reflexivity.
  - intros Hr. unfold readCount. rewrite Hr. reflexivity.
  - intros H500.
    assert (Hinc : is_increment req).
    { revert H500. unfold server, routes.
      destruct (String.eqb (method req) "OPTIONS"); [discriminate|].
      destruct (path_is (pathname_of (url req)) "/" && String.eqb (method req) "GET");
        [discriminate|].
      destruct (path_is (pathname_of (url req)) "/api/count"
                && String.eqb (method req) "GET"); [discriminate|].
      destruct (path_is (pathname_of (url req)) "/api/increment"
                && String.eqb (method req) "POST") eqn:E; [|discriminate].
      intros _. apply andb_true_iff in E. destruct E.
      split; [apply path_is_true | apply String.eqb_eq]; assumption. }
    split; [assumption|]. intros Hw.
    rewrite increment_general in H500 by assumption. discriminate.
Qed.

(** C8: every response of the handler, whatever the route and the
    outcome, carries the three cross-origin headers. *)
Theorem cors_headers_on_every_response e req f :
  getHeader "Access-Control-Allow-Origin" (headers (fst (server e req f))) = Some "*"
  /\ getHeader "Access-Control-Allow-Methods" (headers (fst (server e req f)))
     = Some "GET,POST,OPTIONS"
  /\ getHeader "Access-Control-Allow-Headers" (headers (fst (server e req f)))
     = Some "Content-Type".
Proof.
  unfold server, routes.
  destruct (String.eqb (method req) "OPTIONS"); [repeat split|].
  destruct (path_is (pathname_of (url req)) "/" && String.eqb (method req) "GET");
    [repeat split|].
  destruct (path_is (pathname_of (url req)) "/api/count"
            && String.eqb (method req) "GET"); [repeat split|].
  destruct (path_is (pathname_of (url req)) "/api/increment"
            && String.eqb (method req) "POST"); [|repeat split].
  destruct (writeCount e _ f) as [[u|] f']; repeat split.
Qed.

(** X18: an [OPTIONS] request for whose target [url.parse] returns is
    answered, on any path, with status 204, an empty body and no content
    type, and the data file is not touched. *)
Theorem options_answered_no_content e req f :
  method req = "OPTIONS" -> url_throws (url req) = false ->
  exists res,
    exchange e req f = (Answered res, f)
    /\ statusCode res = 204
    /\ body res = EmptyString
    /\ getHeader "Content-Type" (headers res) = None.
Proof.
  intros Hm Hu. unfold exchange, server, on_the_wire. rewrite Hu, Hm. cbn [fst snd].
  eexists. split; [reflexivity|]. repeat split.
Qed.

(** C10: [GET /api/count] leaves the data file as it is. *)
Theorem get_count_leaves_file e req f :
  is_get_count req -> snd (server e req f) = f.
Proof.
  intros Hreq. rewrite server_get_count by assumption. reflexivity.
Qed.

(** ** The routes no claim covers *)

(** X1: [GET /] is answered with status 200, the page as body and the
    HTML content type, whatever the data file holds and whatever fails;
    the data file is not touched. *)
Theorem root_serves_page e req f :
  pathname_of (url req) = Some "/" -> method req = "GET" ->
  statusCode (fst (server e req f)) = 200
  /\ body (fst (server e req f)) = HTML
  /\ getHeader "Content-Type" (headers (fst (server e req f)))
     = Some "text/html; charset=utf-8"
  /\ snd (server e req f) = f.
Proof.
  intros Hp Hm. unfold server, routes. rewrite Hp, Hm. repeat split.
Qed.

(** X2: when the data file holds a JSON object whose (last) [count] is a
    number and the read does not fail, [GET /api/count] is answered with
    status 200, the JSON content type and the object with that count as
    body, whatever else the file holds and however it is laid out. *)
Theorem get_count_returns_count e req f x :
  is_get_count req -> holds_count f x -> read_fails e = false ->
  statusCode (fst (server e req f)) = 200
  /\ body (fst (server e req f)) = JSON_stringify (count_obj x) 0
  /\ getHeader "Content-Type" (headers (fst (server e req f)))
     = Some "application/json"
  /\ (forall z, safe z -> x = ofZ z -> body (fst (server e req f)) = count_body z).
Proof.
  intros Hreq Hh He. rewrite server_get_count by assumption.
  rewrite (readCount_holds e f x Hh He). cbn [fst].
  split; [reflexivity|]. split; [reflexivity|]. split; [reflexivity|].
  intros z Hz ->. apply JSON_stringify_count_body. assumption.
Qed.

(** X3: requests other than [POST /api/increment] never change the data
    file, one by one and in any sequence. *)
Theorem only_increment_writes (l : list (io * request)) f :
  Forall other_request l -> serve l f = f.
Proof.
  induction 1 as [|[e req] l Hx _ IH]; cbn [serve]; [reflexivity|].
  destruct (server_frame e req f) as [Hinc | ->]; [|exact IH].
  exfalso. exact (Hx Hinc).
Qed.



(** ** Startup *)

Lemma persisted_count_zero_file : persisted_count (Some (count_file 0)) = ofZ 0.
Proof. apply readCount_count_file; [split; lia | reflexivity]. Qed.

(** X5: a startup that succeeds leaves a data file, does not change the
    count a read returns (an existing file, corrupt or not, is kept as it
    is), and starting again changes nothing and cannot fail. *)
Theorem startup_preserves_count e f f1 :
  ensureDataFile e f = (Returned tt, f1) ->
  f1 <> None
  /\ (f <> None -> f1 = f)
  /\ (forall e', readCount e' f1 = readCount e' f)
  /\ (forall e', ensureDataFile e' f1 = (Returned tt, f1)).
Proof.
  intros H. destruct f as [raw|].
  - cbn in H. injection H as <-.
    split; [discriminate|]. split; [reflexivity|]. split; reflexivity.
  - unfold ensureDataFile, access, writeFile in H.
    rewrite (JSON_stringify_count_file 0) in H by (split; lia).
    destruct (write e); inversion H.
    split; [discriminate|]. split; [congruence|]. split; [|reflexivity].
    intros e'. destruct (read_fails e') eqn:E.
    + rewrite !readCount_read_fails by assumption. reflexivity.
    + rewrite readCount_count_file by (try split; try assumption; lia).
      unfold readCount, readFile. rewrite E. reflexivity.
Qed.

(** X6: the server comes to listen exactly when [listen] itself does not
    fail and the data file exists or the write of the initial file does
    not fail. *)
Theorem listens_iff e port_ok f :
  listens e port_ok f = true
  <-> (port_ok = true /\ (f <> None \/ write e = WriteOk)).
Proof.
  unfold listens, ensureDataFile, access, writeFile. destruct f as [raw|].
  - cbn. split; [intros ->; split; [reflexivity | left; discriminate] | intros [-> _]; reflexivity].
  - destruct (write e); cbn; split.
    + intros ->. split; [reflexivity | right; reflexivity].
    + intros [-> _]. reflexivity.
    + discriminate.
    + intros [_ [H | H]]; [contradiction | discriminate].
    + discriminate.
    + intros [_ [H | H]]; [contradiction | discriminate].
Qed.

(** ** The counter store *)

Lemma JSON_parse_count_body z :
  safe z -> JSON_parse (count_body z) = Some (count_obj (ofZ z)).
Proof.
  intros Hz. unfold JSON_parse.
  assert (Hfuel : exists k, (2 * String.length (count_body z) + 2 = S (S (S k)))%nat).
  { exists (2 * String.length (count_body z) - 1)%nat.
    assert (1 <= String.length (count_body z))%nat
      by (unfold count_body; cbn [String.append String.length]; lia).
    lia. }
  destruct Hfuel as [k ->].
  destruct (integer_text_head z) as (c & r & Ed & Hc).
  pose proof (parse_number_integer z "}" Hz eq_refl (fun m => eq_refl) eq_refl) as Hn.
  rewrite Ed in Hn. cbn [String.append] in Hn.
  pose proof (parse_value_number k c _ _ _ Hc Hn) as Hv.
  unfold count_body. rewrite Ed.
  cbn - [parse_value]. cbn [parse_value]. cbn - [parse_value parse_members].
  cbn [parse_members]. cbn - [parse_value].
  rewrite Hv. reflexivity.
Qed.

(** X7: for an integer count between [-2^53] and [2^53] both texts the
    program writes, the response body and the indented data file, parse
    back to the object with that count. *)
Theorem stringify_parse_count z :
  safe z ->
  JSON_parse (JSON_stringify (count_obj (ofZ z)) 0) = Some (count_obj (ofZ z))
  /\ JSON_parse (JSON_stringify (count_obj (ofZ z)) 2) = Some (count_obj (ofZ z)).
Proof.
  intros Hz. rewrite JSON_stringify_count_body, JSON_stringify_count_file by assumption.
  split; [apply JSON_parse_count_body | apply JSON_parse_count_file]; assumption.
Qed.

(** X8: a count written without failure is the count read afterwards,
    whatever the data file held before (integer counts between [-2^53]
    and [2^53], read without failure). *)
Theorem write_then_read e e' f z :
  safe z -> write e = WriteOk -> read_fails e' = false ->
  fst (writeCount e (ofZ z) f) = Returned tt
  /\ readCount e' (snd (writeCount e (ofZ z) f)) = ofZ z.
Proof.
  intros Hz Hw Hr. rewrite writeCount_ok by assumption. cbn [fst snd].
  split; [reflexivity|].
  rewrite JSON_stringify_count_file by assumption.
  apply readCount_count_file; assumption.
Qed.

Lemma js_add_not_finite x : is_finite x = false -> js_add x (ofZ 1) = x.
Proof. destruct x as [s|s| |s m e]; try discriminate; reflexivity. Qed.

Lemma stringify_not_finite x :
  is_finite x = false ->
  JSON_stringify (count_obj x) 0 = null_body
  /\ JSON_stringify (count_obj x) 2 = null_file.
Proof. destruct x as [s|s| |s m e]; try discriminate; split; reflexivity. Qed.

(** X9: when the count read is not finite (the data file holds a number
    beyond the range of numbers), an increment without write failure
    answers [{"count":null}], writes [null] as the count, and the next
    read returns 0. *)
Theorem increment_of_infinite_count e req f :
  is_increment req -> write e = WriteOk -> is_finite (readCount e f) = false ->
  statusCode (fst (server e req f)) = 200
  /\ body (fst (server e req f)) = null_body
  /\ snd (server e req f) = Some null_file
  /\ (forall e', readCount e' (snd (server e req f)) = ofZ 0).
Proof.
  intros Hreq Hw Hf. rewrite increment_general by assumption.
  rewrite js_add_not_finite by assumption.
  destruct (stringify_not_finite _ Hf) as [-> ->]. cbn [fst snd].
  repeat split. intros e'. unfold readCount, readFile.
  destruct (read_fails e'); reflexivity.
Qed.

(** X10: an increment on a data file that is missing or unusable, or
    whose read fails, counts from 0 when its write does not fail: the
    answer is [{"count":1}] and the data file becomes the object with
    count 1. *)
Theorem increment_repairs_file e req f :
  is_increment req -> write e = WriteOk ->
  unusable f \/ read_fails e = true ->
  statusCode (fst (server e req f)) = 200
  /\ body (fst (server e req f)) = count_body 1
  /\ snd (server e req f) = Some (count_file 1)
  /\ file_invariant (snd (server e req f)).
Proof.
  intros Hreq Hw Hbad.
  assert (Hr : readCount e f = ofZ 0).
  { destruct Hbad; [apply readCount_unusable | apply readCount_read_fails]; assumption. }
  destruct (increment_exact e req f 0 Hreq Hw Hr ltac:(lia) ltac:(lia))
    as (_ & Hb & Hf & _).
  split; [rewrite increment_general by assumption; reflexivity|].
  split; [exact Hb|]. split; [exact Hf|].
  rewrite Hf. apply bounded_file_invariant. apply count_file_bounded; lia.
Qed.

(** X11: after an increment without write failure on an integer count [N]
    with [-2^53 <= N < 2^53], [GET /api/count] (with no read failure) is
    answered with the body the increment was answered with. *)
Theorem get_after_increment e e' req req' f z :
  is_increment req -> is_get_count req' ->
  write e = WriteOk -> read_fails e' = false ->
  readCount e f = ofZ z -> - 2 ^ 53 <= z -> z < 2 ^ 53 ->
  body (fst (server e' req' (snd (server e req f))))
  = body (fst (server e req f))
  /\ snd (server e' req' (snd (server e req f))) = snd (server e req f).
Proof.
  intros Hinc Hget Hw He' Hr Hlo Hhi.
  destruct (increment_exact e req f z Hinc Hw Hr Hlo Hhi) as (_ & Hb & Hf & _).
  rewrite Hb, Hf. rewrite server_get_count by assumption. cbn [fst snd].
  rewrite readCount_count_file by (try split; try assumption; lia).
  split; [apply JSON_stringify_count_body; split; lia | reflexivity].
Qed.

Lemma increment_at_top e req f :
  is_increment req -> write e = WriteOk -> readCount e f = ofZ (2 ^ 53) ->
  persisted_count (snd (server e req f)) = ofZ (2 ^ 53).
Proof.
  intros Hreq Hw Hr. rewrite increment_general by assumption.
  rewrite Hr, js_add_one_stuck. cbn [snd].
  rewrite JSON_stringify_count_file by (split; lia).
  unfold persisted_count. apply readCount_count_file; [split; lia | reflexivity].
Qed.

(** X12: increments without failure count up to [2^53] and stay there:
    from an integer count [c] with [-2^53 <= c <= 2^53], [N] increments
    leave the smaller of [c + N] and [2^53]. *)
Theorem increments_saturate (l : list (io * request)) : forall f z,
  Forall clean l -> persisted_count f = ofZ z -> safe z ->
  persisted_count (serve l f) = ofZ (Z.min (z + Z.of_nat (length l)) (2 ^ 53)).
Proof.
  induction l as [|[e req] l IH]; intros f z Hall Hc [Hlo Hhi].
  - cbn [serve length Z.of_nat]. rewrite Z.add_0_r, Z.min_l by lia. exact Hc.
  - inversion Hall as [|? ? [Hreq [Hrd Hw]] Hrest]; subst.
    cbn [fst snd] in Hreq, Hrd, Hw.
    assert (Hread : readCount e f = ofZ z)
      by (rewrite readCount_quiet by assumption; exact Hc).
    cbn [serve length]. rewrite Nat2Z.inj_succ.
    destruct (Z.eq_dec z (2 ^ 53)) as [-> | Hne].
    + rewrite (IH _ (2 ^ 53) Hrest (increment_at_top e req f Hreq Hw Hread))
        by (split; lia).
      f_equal. lia.
    + destruct (increment_exact e req f z Hreq Hw Hread Hlo ltac:(lia))
        as (_ & _ & _ & Hnext).
      rewrite (IH _ (z + 1) Hrest Hnext) by (split; lia).
      f_equal. lia.
Qed.

(** ** The script of the page *)

Lemma json_count_body res z :
  safe z -> body res = count_body z ->
  json_count (Returned res) = Returned (JNum (ofZ z)).
Proof.
  intros Hz Hb. unfold json_count. rewrite Hb, JSON_parse_count_body by assumption.
  reflexivity.
Qed.

Lemma set_count_integer z p :
  safe z -> count_text (set_count (JNum (ofZ z)) p) = integer_text z.
Proof. intros Hz. cbn [set_count count_text ToString]. apply Number_toString_int. exact Hz. Qed.

(** X13: a click whose request and response are delivered, on a server
    whose write does not fail and that reads an integer count [N] with
    [-2^53 <= N < 2^53], shows [N + 1] and [Saved.], leaves the button
    enabled, and the data file holds [N + 1]. *)
Theorem click_shows_successor e f p z :
  is_increment POST_increment -> write e = WriteOk ->
  readCount e f = ofZ z -> - 2 ^ 53 <= z -> z < 2 ^ 53 ->
  click Delivered e f p
  = ({| count_text := integer_text (z + 1);
        status_text := "Saved.";
        tap_disabled := false |}, Some (count_file (z + 1))).
Proof.
  intros Hreq Hw Hr Hlo Hhi.
  assert (Hs : safe (z + 1)) by (split; lia).
  destruct (increment_exact e POST_increment f z Hreq Hw Hr Hlo Hhi)
    as (_ & Hb & Hf & _).
  unfold click, inc, fetch. cbn [fst snd].
  rewrite (json_count_body _ (z + 1) Hs Hb), Hf. cbn [fst snd].
  unfold set_disabled, setStatus. cbn [count_text status_text tap_disabled].
  rewrite set_count_integer by assumption. reflexivity.
Qed.

(** X14: whatever the network and the server do, a click ends with the
    button enabled and the status [Saved.] or [Save failed.], and in the
    second case the count shown is the one shown before.  The data file
    is left as the server left it, or as it was when the request was
    lost. *)
Theorem click_always_settles net e f p :
  tap_disabled (fst (click net e f p)) = false
  /\ (status_text (fst (click net e f p)) = "Saved."
      \/ (status_text (fst (click net e f p)) = "Save failed."
          /\ count_text (fst (click net e f p)) = count_text p))
  /\ snd (click net e f p)
     = match net with
       | RequestLost => f
       | Delivered | ResponseLost => snd (server e POST_increment f)
       end.
Proof.
  unfold click, inc, fetch. destruct net; cbn [fst snd].
  - destruct (json_count (Returned (fst (server e POST_increment f)))) as [n|];
      cbn [fst snd].
    + split; [reflexivity|]. split; [left; reflexivity | reflexivity].
    + split; [reflexivity|]. split; [right; split; reflexivity | reflexivity].
  - split; [reflexivity|]. split; [right; split; reflexivity | reflexivity].
  - split; [reflexivity|]. split; [right; split; reflexivity | reflexivity].
Qed.

(** X15: when the write of the increment fails and the response (status
    500) is delivered, the click shows the count 0 and the status
    [Saved.]: the script takes the missing [count] of the error body
    as 0. *)
Theorem click_shows_zero_on_server_error e f p :
  is_increment POST_increment -> write e <> WriteOk ->
  statusCode (fst (server e POST_increment f)) = 500
  /\ fst (click Delivered e f p)
     = {| count_text := "0"; status_text := "Saved."; tap_disabled := false |}.
Proof.
  intros Hreq Hw. unfold click, inc, fetch. cbn [fst snd].
  rewrite server_increment by assumption. cbv zeta.
  destruct (writeCount_fails e (js_add (readCount e f) (ofZ 1)) f Hw) as [f' ->].
  split; reflexivity.
Qed.

(** X16: [init] never changes the data file.  When request and response
    are delivered, the read does not fail and the data file holds an
    integer count [N] between [-2^53] and [2^53], it shows [N] and
    [Ready.]; when the request or the response is lost it shows [?] and
    [Failed to load count.]. *)
Theorem init_shows_count net e f p :
  is_get_count GET_count ->
  snd (init net e f p) = f
  /\ (net <> Delivered ->
      fst (init net e f p)
      = {| count_text := "?"; status_text := "Failed to load count.";
           tap_disabled := tap_disabled p |})
  /\ (forall z, net = Delivered -> read_fails e = false ->
        holds_count f (ofZ z) -> safe z ->
        fst (init net e f p)
        = {| count_text := integer_text z; status_text := "Ready.";
             tap_disabled := tap_disabled p |}).
Proof.
  intros Hreq.
  assert (Hf : snd (server e GET_count f) = f)
    by (rewrite server_get_count by assumption; reflexivity).
  split; [|split].
  - unfold init, fetchCount, fetch. destruct net; cbn [fst snd];
      try (rewrite ?Hf; reflexivity).
    destruct (json_count (Returned (fst (server e GET_count f)))); cbn [snd]; exact Hf.
  - intros Hn. unfold init, fetchCount, fetch.
    destruct net; [contradiction | reflexivity | reflexivity].
  - intros z -> He Hh Hz. unfold init, fetchCount, fetch. cbn [fst snd].
    assert (Hb : body (fst (server e GET_count f)) = count_body z).
    { rewrite server_get_count by assumption. cbn [fst].
      rewrite (readCount_holds e f _ Hh He).
      apply JSON_stringify_count_body. exact Hz. }
    rewrite (json_count_body _ z Hz Hb).
    unfold setStatus. cbn [count_text status_text tap_disabled].
    rewrite set_count_integer by assumption. reflexivity.
Qed.

(** ** A data file cut short *)

Lemma plain_digits d : plain (NilEmpty.string_of_uint d).
Proof.
  induction d; cbn [NilEmpty.string_of_uint plain]; try exact I;
    (split; [left; vm_compute; split; discriminate | exact IHd]).
Qed.

Lemma plain_integer_text z : plain (integer_text z).
Proof.
  unfold integer_text, decimal. destruct (z <? 0).
  - cbn [String.append plain]. split; [right; reflexivity | apply plain_digits].
  - apply plain_digits.
Qed.

Lemma plain_substring s : forall k, plain s -> plain (substring 0 k s).
Proof.
  induction s as [|c r IH]; intros [|k] H; cbn [substring plain]; try exact I.
  destruct H as [Hc Hr]. split; [exact Hc | apply IH; exact Hr].
Qed.

Lemma substring_append a : forall k b,
  substring 0 k (a ++ b)
  = if (k <=? String.length a)%nat then substring 0 k a
    else a ++ substring 0 (k - String.length a) b.
Proof.
  induction a as [|c a IH]; intros k b; cbn [String.append String.length].
  - destruct k; cbn [Nat.leb substring]; [destruct b; reflexivity|].
    rewrite Nat.sub_0_r. reflexivity.
  - destruct k as [|k]; cbn [substring Nat.leb Nat.sub]; [reflexivity|].
    rewrite IH. destruct (k <=? String.length a)%nat; reflexivity.
Qed.

Lemma plain_not_ws c : plain_char c -> is_ws c = false.
Proof. intros Hc. unfold is_ws. unfold plain_char in Hc. decide_eqb. reflexivity. Qed.

Lemma plain_lex_digits s : forall acc cnt v c r,
  plain s -> lex_digits s acc cnt = (v, c, r) -> plain r.
Proof.
  induction s as [|a s IH]; intros acc cnt v c r Hs H; cbn [lex_digits] in H.
  - injection H as _ _ <-. exact I.
  - destruct (digit_of a).
    + destruct Hs as [_ Hs]. exact (IH _ _ _ _ _ Hs H).
    + injection H as _ _ <-. exact Hs.
Qed.

Lemma plain_lex_int s v r : plain s -> lex_int s = Some (v, r) -> plain r.
Proof.
  destruct s as [|a s]; cbn [lex_int]; [discriminate|]. intros [_ Hs].
  destruct (digit_of a) as [[|p|p]|]; try discriminate.
  - intros [= _ <-]. exact Hs.
  - destruct (lex_digits s (Z.pos p) 1) as [[v' c'] r'] eqn:E. intros [= _ <-].
    exact (plain_lex_digits _ _ _ _ _ _ Hs E).
  - destruct (lex_digits s (Z.neg p) 1) as [[v' c'] r'] eqn:E. intros [= _ <-].
    exact (plain_lex_digits _ _ _ _ _ _ Hs E).
Qed.

Lemma plain_lex_frac m s : plain s -> lex_frac m s = Some (m, 0, s).
Proof.
  destruct s as [|a s]; [reflexivity|]. intros [Ha _].
  destruct a as [b0 b1 b2 b3 b4 b5 b6 b7].
  destruct b0, b1, b2, b3, b4, b5, b6, b7; try reflexivity.
  exfalso. destruct Ha as [[H1 H2] | H]; vm_compute in *; congruence.
Qed.

Lemma plain_lex_exp s : plain s -> lex_exp s = Some (0, s).
Proof.
  destruct s as [|a s]; [reflexivity|]. intros [Ha _]. cbn [lex_exp].
  unfold plain_char in Ha. decide_eqb. reflexivity.
Qed.

Lemma plain_parse_number s x tl : plain s -> parse_number s = Some (x, tl) -> plain tl.
Proof.
  intros Hs H. unfold parse_number in H.
  set (p := match s with
            | String c r => if code c =? 45 then (true, r) else (false, s)
            | EmptyString => (false, s)
            end) in H.
  assert (Hp : plain (snd p)).
  { subst p. destruct s as [|c r]; [exact I|].
    destruct (code c =? 45); cbn [snd]; [exact (proj2 Hs) | exact Hs]. }
  destruct p as [neg s1]. cbn [snd] in Hp.
  destruct (lex_int s1) as [[i s2]|] eqn:Ei; [|discriminate H].
  apply plain_lex_int in Ei; [|exact Hp].
  rewrite (plain_lex_frac i s2 Ei), (plain_lex_exp s2 Ei) in H.
  injection H as _ <-. exact Ei.
Qed.

Lemma plain_parse_value f s v tl : plain s -> parse_value f s = Some (v, tl) -> plain tl.
Proof.
  intros Hs H. destruct f; [discriminate H|]. rewrite parse_value_S in H.
  destruct s as [|c r]; [discriminate H|]. destruct Hs as [Hc Hr].
  cbn [skip_ws] in H. rewrite (plain_not_ws c Hc) in H.
  unfold plain_char in Hc.
  destruct (Z.eqb_spec (code c) 34); [lia|].
  destruct (Z.eqb_spec (code c) 91); [lia|].
  destruct (Z.eqb_spec (code c) 123); [lia|].
  destruct (Z.eqb_spec (code c) 110); [lia|].
  destruct (Z.eqb_spec (code c) 116); [lia|].
  destruct (Z.eqb_spec (code c) 102); [lia|].
  destruct (parse_number (String c r)) as [[x tl0]|] eqn:E; [|discriminate H].
  injection H as _ <-. apply (plain_parse_number (String c r) x); [split|]; assumption.
Qed.

Lemma plain_no_separator tl :
  plain tl ->
  starts_with "," (skip_ws tl) = None /\ starts_with "}" (skip_ws tl) = None.
Proof.
  destruct tl as [|c r]; [split; reflexivity|]. intros [Hc _].
  cbn [skip_ws]. rewrite (plain_not_ws c Hc). cbn [starts_with].
  split.
  - destruct (Ascii.eqb_spec c ","); [|reflexivity].
    subst c. destruct Hc as [[H1 H2] | H]; vm_compute in *; congruence.
  - destruct (Ascii.eqb_spec c "}"); [|reflexivity].
    subst c. destruct Hc as [[H1 H2] | H]; vm_compute in *; congruence.
Qed.

(** An object text that stops after the value of its member does not
    parse. *)
Lemma unfinished_object X :
  (forall f v tl, parse_value f X = Some (v, tl) ->
     starts_with "," (skip_ws tl) = None /\ starts_with "}" (skip_ws tl) = None) ->
  JSON_parse ("{" ++ nl ++ "  " ++ quoted "count" ++ ": " ++ X) = None.
Proof.
  intros H. unfold JSON_parse.
  set (s := "{" ++ nl ++ "  " ++ quoted "count" ++ ": " ++ X).
  assert (Hfuel : exists k, (2 * String.length s + 2 = S (S (S k)))%nat).
  { exists (2 * String.length s - 1)%nat.
    assert (1 <= String.length s)%nat
      by (unfold s; cbn [String.append String.length]; lia).
    lia. }
  destruct Hfuel as [k ->]. unfold s.
  cbn - [parse_value]. cbn [parse_value]. cbn - [parse_value parse_members].
  cbn [parse_members]. cbn - [parse_value].
  rewrite parse_value_ws by reflexivity.
  destruct (parse_value (S k) X) as [[v tl]|] eqn:E; [|reflexivity].
  destruct (H _ _ _ E) as [-> ->]. reflexivity.
Qed.

Lemma plain_unfinished X :
  plain X ->
  forall f v tl, parse_value f X = Some (v, tl) ->
    starts_with "," (skip_ws tl) = None /\ starts_with "}" (skip_ws tl) = None.
Proof.
  intros HX f v tl H. apply plain_no_separator. exact (plain_parse_value f X v tl HX H).
Qed.

Lemma number_line_unfinished z :
  safe z ->
  forall f v tl, parse_value f (integer_text z ++ nl) = Some (v, tl) ->
    starts_with "," (skip_ws tl) = None /\ starts_with "}" (skip_ws tl) = None.
Proof.
  intros Hz f v tl H. destruct f; [discriminate H|].
  destruct (integer_text_head z) as (c & r & Ed & Hc).
  pose proof (parse_number_integer z nl Hz eq_refl (fun m => eq_refl) eq_refl) as Hn.
  rewrite Ed in *. cbn [String.append] in *.
  rewrite (parse_value_number f c _ _ _ Hc Hn) in H.
  injection H as _ <-. split; reflexivity.
Qed.

Lemma JSON_parse_cut z n :
  safe z -> (n < String.length (count_file z))%nat ->
  JSON_parse (substring 0 n (count_file z)) = None.
Proof.
  intros Hz Hn.
  change (count_file z)
    with (("{" ++ nl ++ "  " ++ quoted "count" ++ ": ")
          ++ (integer_text z ++ (nl ++ "}"))) in *.
  rewrite substring_append.
  change (String.length ("{" ++ nl ++ "  " ++ quoted "count" ++ ": ")) with 13%nat.
  destruct (Nat.leb_spec n 13) as [Hle | Hgt].
  - do 14 (destruct n as [|n]; [reflexivity|]). lia.
  - rewrite substring_append.
    assert (Hlen : String.length
                     (("{" ++ nl ++ "  " ++ quoted "count" ++ ": ")
                      ++ (integer_text z ++ (nl ++ "}")))
                   = (13 + (String.length (integer_text z) + 2))%nat).
    { rewrite !length_append. reflexivity. }
    rewrite Hlen in Hn.
    change (("{" ++ nl ++ "  " ++ quoted "count" ++ ": ") ++ ?x)
      with ("{" ++ nl ++ "  " ++ quoted "count" ++ ": " ++ x).
    destruct (Nat.leb_spec (n - 13) (String.length (integer_text z))) as [Hk | Hk].
    + apply unfinished_object. apply plain_unfinished.
      apply plain_substring. apply plain_integer_text.
    + replace (n - 13 - String.length (integer_text z))%nat with 1%nat by lia.
      change (substring 0 1 (nl ++ "}")) with nl.
      apply unfinished_object. apply number_line_unfinished. exact Hz.
Qed.

(** X17: a data file cut short never reads as a wrong count: every
    proper prefix of the data file written for an integer count between
    [-2^53] and [2^53] is read as 0, and so is the data file after a write
    that failed midway. *)
Theorem truncated_file_reads_zero z n e :
  safe z -> (n < String.length (count_file z))%nat ->
  readCount e (Some (substring 0 n (count_file z))) = ofZ 0
  /\ (forall e' f, write e' = WriteCut n ->
       readCount e (snd (writeCount e' (ofZ z) f)) = ofZ 0).
Proof.
  intros Hz Hn.
  assert (H : readCount e (Some (substring 0 n (count_file z))) = ofZ 0).
  { apply readCount_unusable. right. eexists. split; [reflexivity|].
    left. apply JSON_parse_cut; assumption. }
  split; [exact H|]. intros e' f Hw.
  unfold writeCount, writeFile. rewrite Hw. cbn [snd].
  rewrite JSON_stringify_count_file by assumption. exact H.
Qed.

End Server.

(** ** The runtime model on known values *)

(** Fractions, numbers printed with an exponent and integers above
    [2 ^ 53], as JavaScript prints them. *)
Example Number_toString_fraction :
  Number_toString (dec_to_number false 1 (-1)) = "0.1"
  /\ Number_toString (dec_to_number true 15 (-1)) = "-1.5"
  /\ Number_toString (dec_to_number false 30000000000000004 (-17)) = "0.30000000000000004".
Proof. vm_compute. repeat split. Qed.

Example Number_toString_exponent :
  Number_toString (dec_to_number false 1 21) = "1e+21"
  /\ Number_toString (dec_to_number false 1 23) = "1e+23"
  /\ Number_toString (dec_to_number false 123 (-9)) = "1.23e-7"
  /\ Number_toString (dec_to_number false 5 (-324)) = "5e-324"
  /\ Number_toString (dec_to_number false 17976931348623157 292)
     = "1.7976931348623157e+308".
Proof. vm_compute. repeat split. Qed.

Example Number_toString_large_integer :
  Number_toString (ofZ (2 ^ 69)) = "590295810358705700000"
  /\ Number_toString (ofZ (2 ^ 53 + 2)) = "9007199254740994"
  /\ Number_toString (ofZ (2 ^ 53 + 1)) = "9007199254740992".
Proof. vm_compute. repeat split. Qed.

(** On integers up to [2^53] the search for the shortest digits gives the
    decimal digits that [Number_toString] prints directly. *)
Example shortest_repr_integer :
  shortest_repr (norm_m 7) (norm_e 7) = decimal 7
  /\ shortest_repr (norm_m 1200) (norm_e 1200) = decimal 1200
  /\ shortest_repr (norm_m (2 ^ 53 - 1)) (norm_e (2 ^ 53 - 1)) = decimal (2 ^ 53 - 1)
  /\ shortest_repr 4503599627370496 1 = decimal (2 ^ 53).
Proof. vm_compute. repeat split. Qed.

Example JSON_parse_values :
  JSON_parse "[1, 2.5e0, true, null, {}]"
  = Some (JArr [JNum (ofZ 1); JNum (dec_to_number false 25 (-1)); JBool true;
                JNull; JObj []])
  /\ JSON_parse "01" = None
  /\ JSON_parse "[1,]" = None
  /\ JSON_parse "{} x" = None
  /\ JSON_parse "1e999" = Some (JNum (S754_infinity false)).
Proof. vm_compute. repeat split. Qed.

(** An escaped member name is the name it spells; of two members with
    one name the last is the property. *)
Example JSON_parse_member_names :
  JSON_parse ("{" ++ quoted "\u0063ount" ++ ":1," ++ quoted "count" ++ ":2}")
  = Some (JObj [("count", JNum (ofZ 1)); ("count", JNum (ofZ 2))])
  /\ readCount quiet
       (Some ("{" ++ quoted "count" ++ ":1," ++ quoted "count" ++ ":2}"))
     = ofZ 2.
Proof. vm_compute. repeat split. Qed.

Example JSON_stringify_objects :
  JSON_stringify (error_obj "Not found") 0 = error_body "Not found"
  /\ JSON_stringify (count_obj (S754_infinity false)) 0
     = "{" ++ quoted "count" ++ ":null}"
  /\ JSON_stringify (JArr [JNum (ofZ 1); JObj [("a", JArr [])]]) 2
     = "[" ++ nl ++ "  1," ++ nl ++ "  {" ++ nl ++ "    " ++ quoted "a" ++ ": []"
       ++ nl ++ "  }" ++ nl ++ "]".
Proof. vm_compute. repeat split. Qed.

(** Increments of counts above [2 ^ 53], as the program writes them. *)
Example increment_of_large_counts :
  snd (server sample_page origin_pathname quiet POST_increment (Some large_file))
  = Some ("{" ++ nl ++ "  " ++ quoted "count" ++ ": 9007199254740996" ++ nl ++ "}")
  /\ snd (server sample_page origin_pathname quiet POST_increment
            (Some ("{" ++ quoted "count" ++ ":1e21}")))
     = Some ("{" ++ nl ++ "  " ++ quoted "count" ++ ": 1e+21" ++ nl ++ "}")
  /\ snd (server sample_page origin_pathname quiet POST_increment
            (Some ("{" ++ quoted "count" ++ ":1.7976931348623157e308}")))
     = Some ("{" ++ nl ++ "  " ++ quoted "count" ++ ": 1.7976931348623157e+308"
             ++ nl ++ "}").
Proof. vm_compute. repeat split. Qed.

(** ** The theorems at concrete requests *)

(** C1 at a data file holding 41. *)
Lemma increment_persists_successor_witness :
  body (fst (server sample_page origin_pathname quiet POST_increment
               (Some (count_file 41)))) = count_body 42
  /\ snd (server sample_page origin_pathname quiet POST_increment
            (Some (count_file 41))) = Some (count_file 42).
Proof.
  destruct (increment_persists_successor sample_page origin_pathname quiet
              POST_increment (Some (count_file 41)))
    as (_ & _ & _ & H).
  - split; reflexivity.
  - reflexivity.
  - destruct (H 41) as (_ & Hb & Hf & _).
    + vm_compute. reflexivity.
    + lia.
    + vm_compute. reflexivity.
    + split; assumption.
Defined.

(** C2 at three increments from a data file holding -2. *)
Lemma increments_add_witness :
  int_value (persisted_count
    (serve sample_page origin_pathname
       [(quiet, POST_increment); (quiet, POST_increment); (quiet, POST_increment)]
       (Some (count_file (-2))))) = Some 1.
Proof.
  apply (increments_add sample_page origin_pathname
           [(quiet, POST_increment); (quiet, POST_increment); (quiet, POST_increment)]
           (Some (count_file (-2))) (-2)).
  - repeat constructor.
  - vm_compute. reflexivity.
  - lia.
  - vm_compute. discriminate.
Defined.

(** C3 at a data file that is not JSON. *)
Lemma read_tolerates_unusable_file_witness :
  readCount quiet (Some "not json") = ofZ 0
  /\ body (fst (server sample_page origin_pathname quiet GET_count (Some "not json")))
     = count_body 0.
Proof.
  destruct (read_tolerates_unusable_file sample_page origin_pathname quiet GET_count
              (Some "not json")) as [Hr Hg].
  - right. exists "not json". split; [reflexivity|]. left. vm_compute. reflexivity.
  - split; [exact Hr|]. apply Hg. split; reflexivity.
Defined.

(** C4 at a start on a data file holding 9007199254740994 and an
    increment after it. *)
Lemma invariant_of_reachable_states_witness :
  file_invariant
    (snd (server sample_page origin_pathname quiet POST_increment (Some large_file))).
Proof.
  assert (Hstart : reachable sample_page origin_pathname fresh_or_sound atomic
                     (Some large_file)).
  { apply (reach_start _ _ _ _ quiet (Some large_file)).
    - right. exists (S754_finite false 4503599627370497 1), 9007199254740994.
      split; [|split; [reflexivity | lia]].
      exists large_file, [("count", JNum (S754_finite false 4503599627370497 1))].
      repeat split; vm_compute; reflexivity.
    - intros n. discriminate.
    - reflexivity. }
  destruct (invariant_of_reachable_states sample_page origin_pathname
              (Some large_file) Hstart) as (_ & H & _).
  apply H. intros n. discriminate.
Defined.

(** C5 at a startup without failure. *)
Lemma fresh_start_creates_file_witness :
  ensureDataFile quiet None = (Returned tt, Some (count_file 0))
  /\ body (fst (server sample_page origin_pathname quiet GET_count
                  (Some (count_file 0)))) = count_body 0.
Proof.
  destruct (fresh_start_creates_file sample_page origin_pathname quiet) as [Hs Hg].
  assert (H : ensureDataFile quiet None = (Returned tt, Some (count_file 0)))
    by (apply Hs; reflexivity).
  split; [exact H|].
  destruct (Hg _ H) as [_ Hget].
  destruct (Hget quiet GET_count) as (_ & Hb & _); [split; reflexivity | exact Hb].
Defined.

(** C6 at [GET /nope?x=1]. *)
Lemma unknown_route_not_found_witness :
  exists res,
    exchange sample_page origin_pathname rejects_bad_target quiet GET_unknown None
    = (Answered res, None)
    /\ statusCode res = 404 /\ body res = error_body "Not found".
Proof.
  destruct (unknown_route_not_found sample_page origin_pathname rejects_bad_target
              quiet GET_unknown None) as (res & He & Hs & _ & Hb & _).
  - reflexivity.
  - discriminate.
  - intros [H _]. discriminate H.
  - intros [H _]. discriminate H.
  - intros [H _]. discriminate H.
  - exists res. split; [exact He|]. split; [exact Hs|]. apply Hb. discriminate.
Defined.

(** C7 at an increment whose write fails and at a read that fails. *)
Lemma write_failure_is_server_error_witness :
  statusCode (fst (server sample_page origin_pathname io_open_fails POST_increment
                     (Some (count_file 5)))) = 500
  /\ readCount io_read_fails (Some (count_file 5)) = ofZ 0.
Proof.
  split.
  - destruct (write_failure_is_server_error sample_page origin_pathname io_open_fails
                POST_increment (Some (count_file 5))) as (H & _ & _).
    destruct H as [Hs _]; [split; reflexivity | discriminate | exact Hs].
  - destruct (write_failure_is_server_error sample_page origin_pathname io_read_fails
                POST_increment (Some (count_file 5))) as (_ & H & _).
    apply H. reflexivity.
Defined.

(** C10 at a data file that is not JSON. *)
Lemma get_count_leaves_file_witness :
  snd (server sample_page origin_pathname quiet GET_count (Some "not json"))
  = Some "not json".
Proof.
  apply (get_count_leaves_file sample_page origin_pathname quiet GET_count).
  split; reflexivity.
Defined.

(** ** The further theorems at concrete requests *)

(** X1 at [GET /] with no data file. *)
Lemma root_serves_page_witness :
  body (fst (server sample_page origin_pathname quiet GET_root None)) = sample_page
  /\ snd (server sample_page origin_pathname quiet GET_root None) = None.
Proof.
  destruct (root_serves_page sample_page origin_pathname quiet GET_root None)
    as (_ & Hb & _ & Hf); [reflexivity | reflexivity|].
  split; assumption.
Defined.

(** X2 at a data file holding 7. *)
Lemma get_count_returns_count_witness :
  body (fst (server sample_page origin_pathname quiet GET_count (Some (count_file 7))))
  = count_body 7.
Proof.
  destruct (get_count_returns_count sample_page origin_pathname quiet GET_count
              (Some (count_file 7)) (ofZ 7)) as (_ & _ & _ & H).
  - split; reflexivity.
  - apply count_file_holds. split; lia.
  - reflexivity.
  - apply (H 7); [split; lia | reflexivity].
Defined.

(** X3 at three requests on a data file that is not JSON. *)
Lemma only_increment_writes_witness :
  serve sample_page origin_pathname
    [(quiet, GET_count); (io_open_fails, OPTIONS_any); (io_cut, GET_unknown)]
    (Some "not json") = Some "not json".
Proof.
  apply only_increment_writes.
  repeat constructor; intros [H _]; discriminate H.
Defined.


(** X5 at a startup without failure and no data file. *)
Lemma startup_preserves_count_witness :
  readCount quiet (Some (count_file 0)) = readCount quiet None.
Proof.
  destruct (startup_preserves_count quiet None (Some (count_file 0)))
    as (_ & _ & H & _); [vm_compute; reflexivity|].
  apply H.
Defined.

(** X6 at a startup whose writes fail, on an existing file and a free
    port. *)
Lemma listens_iff_witness : listens io_open_fails true (Some "not json") = true.
Proof.
  apply (proj2 (listens_iff io_open_fails true (Some "not json"))).
  split; [reflexivity | left; discriminate].
Defined.

(** X7 at the count -12. *)
Lemma stringify_parse_count_witness :
  JSON_parse (JSON_stringify (count_obj (ofZ (-12))) 2) = Some (count_obj (ofZ (-12))).
Proof.
  apply (stringify_parse_count (-12)). split; lia.
Defined.

(** X8 at the count 9 written over a file that is not JSON. *)
Lemma write_then_read_witness :
  readCount quiet (snd (writeCount quiet (ofZ 9) (Some "not json"))) = ofZ 9.
Proof.
  apply (write_then_read quiet quiet (Some "not json") 9);
    [split; lia | reflexivity | reflexivity].
Defined.

(** X9 at a data file whose count is [1e999]. *)
Lemma increment_of_infinite_count_witness :
  body (fst (server sample_page origin_pathname quiet POST_increment (Some huge_file)))
  = null_body
  /\ readCount quiet
       (snd (server sample_page origin_pathname quiet POST_increment (Some huge_file)))
     = ofZ 0.
Proof.
  destruct (increment_of_infinite_count sample_page origin_pathname quiet
              POST_increment (Some huge_file)) as (_ & Hb & _ & Hr).
  - split; reflexivity.
  - reflexivity.
  - vm_compute. reflexivity.
  - split; [exact Hb | apply Hr].
Defined.

(** X10 at a data file that is not JSON. *)
Lemma increment_repairs_file_witness :
  snd (server sample_page origin_pathname quiet POST_increment (Some "not json"))
  = Some (count_file 1).
Proof.
  destruct (increment_repairs_file sample_page origin_pathname quiet POST_increment
              (Some "not json")) as (_ & _ & Hf & _).
  - split; reflexivity.
  - reflexivity.
  - left. right. exists "not json". split; [reflexivity|]. left. vm_compute. reflexivity.
  - exact Hf.
Defined.

(** X11 at a data file holding 41. *)
Lemma get_after_increment_witness :
  body (fst (server sample_page origin_pathname quiet GET_count
               (snd (server sample_page origin_pathname quiet POST_increment
                       (Some (count_file 41))))))
  = body (fst (server sample_page origin_pathname quiet POST_increment
                 (Some (count_file 41)))).
Proof.
  apply (get_after_increment sample_page origin_pathname quiet quiet
           POST_increment GET_count (Some (count_file 41)) 41).
  - split; reflexivity.
  - split; reflexivity.
  - reflexivity.
  - reflexivity.
  - vm_compute. reflexivity.
  - lia.
  - lia.
Defined.

(** X12 at three increments from [2^53 - 1]. *)
Lemma increments_saturate_witness :
  persisted_count
    (serve sample_page origin_pathname
       [(quiet, POST_increment); (quiet, POST_increment); (quiet, POST_increment)]
       (Some (count_file (2 ^ 53 - 1))))
  = ofZ (2 ^ 53).
Proof.
  apply (increments_saturate sample_page origin_pathname
           [(quiet, POST_increment); (quiet, POST_increment); (quiet, POST_increment)]
           (Some (count_file (2 ^ 53 - 1))) (2 ^ 53 - 1)).
  - repeat constructor.
  - vm_compute. reflexivity.
  - split; lia.
Defined.

(** X13 at a click on the fresh page with the data file holding 41. *)
Lemma click_shows_successor_witness :
  count_text (fst (click sample_page origin_pathname Delivered quiet
                     (Some (count_file 41)) initial_page)) = integer_text 42.
Proof.
  rewrite (click_shows_successor sample_page origin_pathname quiet
             (Some (count_file 41)) initial_page 41).
  - reflexivity.
  - split; reflexivity.
  - reflexivity.
  - vm_compute. reflexivity.
  - lia.
  - lia.
Defined.

(** X15 at a click while the data file cannot be opened for writing. *)
Lemma click_shows_zero_on_server_error_witness :
  count_text (fst (click sample_page origin_pathname Delivered io_open_fails
                     (Some (count_file 41)) initial_page)) = "0".
Proof.
  destruct (click_shows_zero_on_server_error sample_page origin_pathname io_open_fails
              (Some (count_file 41)) initial_page) as [_ H].
  - split; reflexivity.
  - discriminate.
  - rewrite H. reflexivity.
Defined.

(** X16 at a page loaded with the data file holding 41. *)
Lemma init_shows_count_witness :
  fst (init sample_page origin_pathname Delivered quiet (Some (count_file 41))
         initial_page)
  = {| count_text := integer_text 41; status_text := "Ready."; tap_disabled := false |}.
Proof.
  destruct (init_shows_count sample_page origin_pathname Delivered quiet
              (Some (count_file 41)) initial_page) as (_ & _ & H).
  - split; reflexivity.
  - apply (H 41); [reflexivity | reflexivity | | split; lia].
    apply count_file_holds. split; lia.
Defined.

(** X17 at the data file of the count 123 cut after 15 bytes. *)
Lemma truncated_file_reads_zero_witness :
  readCount quiet (Some (substring 0 15 (count_file 123))) = ofZ 0.
Proof.
  apply (truncated_file_reads_zero 123 15 quiet).
  - split; lia.
  - vm_compute. lia.
Defined.

(** X18 at [OPTIONS /anything]. *)
Lemma options_answered_no_content_witness :
  exists res,
    exchange sample_page origin_pathname rejects_bad_target quiet OPTIONS_any
      (Some (count_file 5)) = (Answered res, Some (count_file 5))
    /\ statusCode res = 204.
Proof.
  destruct (options_answered_no_content sample_page origin_pathname rejects_bad_target
              quiet OPTIONS_any (Some (count_file 5))) as (res & He & Hs & _).
  - reflexivity.
  - reflexivity.
  - exists res. split; assumption.
Defined.

(** ** Where the claims as stated fail *)

(** C1 as stated fails for an increment whose write fails: the value read
    is 5, the status is 500 and the data file still holds 5.  It fails
    for the value [2^53] as well: the response and the data file hold
    [2^53] again, not [2^53 + 1]. *)
Lemma increment_counterexample :
  (readCount io_open_fails (Some (count_file 5)) = ofZ 5
   /\ statusCode (fst (server sample_page origin_pathname io_open_fails POST_increment
                        (Some (count_file 5)))) = 500
   /\ snd (server sample_page origin_pathname io_open_fails POST_increment
             (Some (count_file 5))) = Some (count_file 5))
  /\ (readCount quiet (Some (count_file (2 ^ 53))) = ofZ (2 ^ 53)
      /\ body (fst (server sample_page origin_pathname quiet POST_increment
                      (Some (count_file (2 ^ 53))))) = count_body (2 ^ 53)
      /\ snd (server sample_page origin_pathname quiet POST_increment
                (Some (count_file (2 ^ 53)))) = Some (count_file (2 ^ 53))
      /\ count_body (2 ^ 53) <> count_body (2 ^ 53 + 1)).
Proof.
  split; [vm_compute; repeat split|].
  split; [vm_compute; reflexivity|].
  split; [vm_compute; reflexivity|].
  split; [vm_compute; reflexivity|].
  vm_compute. discriminate.
Qed.

(** C2 as stated fails from the persisted count [2^53]: after one
    increment without failure the persisted count is [2^53], not
    [2^53 + 1].  With a failing read it fails from 5: the write does not
    fail and the persisted count becomes 1, not 6.  From the count
    [1e-17], which is not an integer, one increment leaves exactly 1. *)
Lemma increments_counterexample :
  (int_value (persisted_count (Some (count_file (2 ^ 53)))) = Some (2 ^ 53)
   /\ clean origin_pathname (quiet, POST_increment)
   /\ int_value (persisted_count
         (serve sample_page origin_pathname [(quiet, POST_increment)]
            (Some (count_file (2 ^ 53))))) = Some (2 ^ 53))
  /\ (int_value (persisted_count (Some (count_file 5))) = Some 5
      /\ write io_read_fails = WriteOk
      /\ int_value (persisted_count
            (serve sample_page origin_pathname [(io_read_fails, POST_increment)]
               (Some (count_file 5)))) = Some 1)
  /\ (persisted_count (Some tiny_file) = dec_to_number false 1 (-17)
      /\ int_value (persisted_count (Some tiny_file)) = None
      /\ persisted_count
           (serve sample_page origin_pathname [(quiet, POST_increment)]
              (Some tiny_file)) = ofZ 1).
Proof.
  split; [|split].
  - split; [vm_compute; reflexivity|]. split; [repeat split|].
    vm_compute. reflexivity.
  - split; [vm_compute; reflexivity|].
    split; [reflexivity|]. vm_compute. reflexivity.
  - split; [vm_compute; reflexivity|].
    split; vm_compute; reflexivity.
Qed.

Lemma no_invariant_not_json : ~ file_invariant (Some "not json").
Proof.
  intros (x & z & (raw & l & Heq & Hp & _) & _).
  injection Heq as <-. vm_compute in Hp. discriminate.
Qed.

Lemma no_invariant_negative : ~ file_invariant (Some negative_file).
Proof.
  intros (x & z & (raw & l & Heq & Hp & Ho) & Hv & Hz).
  injection Heq as <-. vm_compute in Hp. injection Hp as <-.
  vm_compute in Ho. injection Ho as <-. vm_compute in Hv.
  injection Hv as <-. lia.
Qed.

Lemma no_invariant_cut : ~ file_invariant (Some (substring 0 3 (count_file 1))).
Proof.
  intros (x & z & (raw & l & Heq & Hp & _) & _).
  injection Heq as <-. vm_compute in Hp. discriminate.
Qed.

Lemma no_invariant_empty : ~ file_invariant (Some EmptyString).
Proof.
  intros (x & z & (raw & l & Heq & Hp & _) & _).
  injection Heq as <-. vm_compute in Hp. discriminate.
Qed.

Lemma no_invariant_overlap : ~ file_invariant (Some (count_file 1 ++ "}")).
Proof.
  intros (x & z & (raw & l & Heq & Hp & _) & _).
  injection Heq as <-. vm_compute in Hp. discriminate.
Qed.

(** C4 as stated fails in the state a startup leaves when the data file
    exists and is not JSON, or holds a negative count: the startup keeps
    the file and the invariant does not hold.  After a fresh start it fails
    when a write is cut short.  It fails while a request is in progress:
    between the opening of the data file and the write the file is empty.
    And it fails when two increment requests overlap: from the count 9
    the first writes 10 and the second, which read the empty file, writes
    1 over it, which leaves the last byte of the longer text. *)
Lemma invariant_counterexample :
  (reachable sample_page origin_pathname any any (Some "not json")
   /\ ~ file_invariant (Some "not json"))
  /\ (reachable sample_page origin_pathname any any (Some negative_file)
      /\ ~ file_invariant (Some negative_file))
  /\ (reachable sample_page origin_pathname (fun f => f = None) any
        (Some (substring 0 3 (count_file 1)))
      /\ ~ file_invariant (Some (substring 0 3 (count_file 1))))
  /\ (run [Arrive quiet; Advance 0; Advance 0] (at_rest (Some (count_file 5)))
      = {| data_file := Some EmptyString; in_progress := [(quiet, Writing (ofZ 6))] |}
      /\ ~ file_invariant (Some EmptyString))
  /\ (run two_overlapping (at_rest (Some (count_file 9)))
      = at_rest (Some (count_file 1 ++ "}"))
      /\ ~ file_invariant (Some (count_file 1 ++ "}"))).
Proof.
  split; [|split; [|split; [|split]]].
  - split; [|exact no_invariant_not_json].
    apply (reach_start _ _ _ _ quiet (Some "not json")); [exact I | exact I | reflexivity].
  - split; [|exact no_invariant_negative].
    apply (reach_start _ _ _ _ quiet (Some negative_file)); [exact I | exact I | reflexivity].
  - split; [|exact no_invariant_cut].
    change (Some (substring 0 3 (count_file 1)))
      with (snd (server sample_page origin_pathname io_cut POST_increment
                   (Some (count_file 0)))).
    apply reach_step; [|exact I].
    apply (reach_start _ _ _ _ quiet None); [reflexivity | exact I | vm_compute; reflexivity].
  - split; [vm_compute; reflexivity | exact no_invariant_empty].
  - split; [vm_compute; reflexivity | exact no_invariant_overlap].
Qed.

(** C6 as stated fails for a request whose target [url.parse] throws on:
    nothing is sent.  It fails for [HEAD]: the status is 404 and no body
    is sent. *)
Lemma not_found_counterexample :
  (method GET_bad_target <> "OPTIONS"
   /\ rejects_bad_target (url GET_bad_target) = true
   /\ exchange sample_page origin_pathname rejects_bad_target quiet GET_bad_target None
      = (Unanswered, None))
  /\ (method HEAD_unknown <> "OPTIONS"
      /\ origin_pathname (url HEAD_unknown) = Some "/nope"
      /\ exists res,
           exchange sample_page origin_pathname rejects_bad_target quiet HEAD_unknown None
           = (Answered res, None)
           /\ statusCode res = 404
           /\ body res = EmptyString
           /\ body res <> error_body "Not found").
Proof.
  split.
  - split; [discriminate|]. split; reflexivity.
  - split; [discriminate|]. split; [reflexivity|].
    eexists. split; [reflexivity|]. split; [reflexivity|]. split; [reflexivity|].
    discriminate.
Qed.

(** C9: the [OPTIONS] request for the target [http://[::1/x], on which
    [url.parse] throws, gets no response, where the claim says status 204
    and an empty body: [url.parse] runs before the test for [OPTIONS] and
    outside the [try] block.  The data file is not touched. *)
Theorem options_unanswered_on_rejected_target :
  method OPTIONS_bad_target = "OPTIONS"
  /\ rejects_bad_target (url OPTIONS_bad_target) = true
  /\ exchange sample_page origin_pathname rejects_bad_target quiet OPTIONS_bad_target
       (Some (count_file 5))
     = (Unanswered, Some (count_file 5)).
Proof. repeat split. Qed.
